(** * cs1550: a two-level FUSE file system on a 5 MB disk image

    Shallow embedding of [cs1550.c] and the properties of its block layer,
    bitmap allocator, [mknod], [read] and [write].

    Conventions of the embedding.
    - C integers are [Z]; conversions between C types are written out
      ([to_int], [to_ulong], [signed]).  The layout is the LP64 one the
      program is built for: [int] is 4 bytes, [long] and [size_t] 8 bytes,
      little endian.
    - A disk block is a list of 512 bytes, the image a list of blocks.
    - A block buffer in memory ([get_block], [calloc]) is the 512 bytes of
      the block followed by [past_end], the bytes that happen to lie after
      the buffer.  The program indexes [data[512]] at every block boundary;
      C leaves that access undefined, the embedding makes it explicit: such
      a store lands outside the 512 bytes that [write_disk_block] persists,
      such a load returns what [past_end] holds (0 when it holds nothing).
    - A null dereference is [Undef], and so is [set_bit] at a negative block
      number, which indexes the bitmap and the mask table before their
      start.  Any other access outside a buffer reads 0 and stores
      nothing. *)

From Stdlib Require Import String Ascii ZArith List Lia Bool.
From stdpp Require Import base list.
Local Open Scope Z_scope.

(** ** Constants of the [#define] block *)

Definition DISK_SIZE : Z := 5242880.
Definition BLOCK_SIZE : Z := 512.
Definition DISK_BLOCKS : Z := 10240.
Definition BIT_MAP_SIZE : Z := 1536.
Definition MAX_DATA_IN_BLOCK : Z := BLOCK_SIZE.
Definition BIT_MAP_LOCATION : Z := DISK_SIZE - BLOCK_SIZE * 3.

Definition MAX_FILENAME : Z := 8.
Definition MAX_EXTENSION : Z := 3.

Definition sizeof_int : Z := 4.
Definition sizeof_long : Z := 8.
Definition sizeof_size_t : Z := 8.

Definition MAX_DIRS_IN_ROOT : Z :=
  (BLOCK_SIZE - sizeof_int) / ((MAX_FILENAME + 1) + sizeof_long).
Definition MAX_FILES_IN_DIR : Z :=
  (BLOCK_SIZE - sizeof_int)
  / ((MAX_FILENAME + 1) + (MAX_EXTENSION + 1) + sizeof_size_t + sizeof_long).
Definition MAX_ENTRIES_IN_INDEX_BLOCK : Z := BLOCK_SIZE / sizeof_long.

(** errno values (Linux) *)
Definition EPERM : Z := 1.
Definition ENOENT : Z := 2.
Definition EEXIST : Z := 17.
Definition EISDIR : Z := 21.
Definition EFBIG : Z := 27.
Definition ENOSPC : Z := 28.
Definition ENAMETOOLONG : Z := 36.

(** ** Integer conversions *)

Definition signed (w : Z) (x : Z) : Z :=
  let m := x mod 2 ^ w in if m <? 2 ^ (w - 1) then m else m - 2 ^ w.

Definition to_int (x : Z) : Z := signed 32 x.
Definition to_long (x : Z) : Z := signed 64 x.
Definition to_ulong (x : Z) : Z := x mod 2 ^ 64.

(** ** Bytes, buffers and packed fields *)

Abbreviation block := (list Z) (only parsing).
Abbreviation buffer := (list Z) (only parsing).

Definition zero_block : block := replicate (Z.to_nat BLOCK_SIZE) 0.

Definition byte_at (b : buffer) (i : Z) : Z :=
  if i <? 0 then 0 else default 0 (b !! Z.to_nat i).

Definition set_byte (b : buffer) (i v : Z) : buffer :=
  if i <? 0 then b else <[Z.to_nat i := v]> b.

Fixpoint load_le (n : nat) (b : buffer) (off : Z) : Z :=
  match n with
  | O => 0
  | S k => byte_at b off + 256 * load_le k b (off + 1)
  end.

Fixpoint store_le (n : nat) (b : buffer) (off v : Z) : buffer :=
  match n with
  | O => b
  | S k => store_le k (set_byte b off (v mod 256)) (off + 1) (v / 256)
  end.

Definition load_int (b : buffer) (off : Z) : Z := signed 32 (load_le 4 b off).
Definition load_long (b : buffer) (off : Z) : Z := signed 64 (load_le 8 b off).
Definition load_size_t (b : buffer) (off : Z) : Z := load_le 8 b off.
Definition store_int (b : buffer) (off v : Z) : buffer := store_le 4 b off v.
Definition store_long (b : buffer) (off v : Z) : buffer := store_le 8 b off v.
Definition store_size_t (b : buffer) (off v : Z) : buffer := store_le 8 b off v.

(** ** String functions of the C library, on the bytes of a buffer

    The first argument is the text of a C string (its bytes before the
    terminating NUL), the second a position inside a buffer. *)

Fixpoint strncmp_eq (n : nat) (a : list Z) (b : buffer) (off : Z) : bool :=
  match n with
  | O => true
  | S k =>
      let ca := hd 0 a in
      if ca =? byte_at b off
      then (if ca =? 0 then true else strncmp_eq k (tl a) b (off + 1))
      else false
  end.

Fixpoint strcmp_eq (a : list Z) (b : buffer) (off : Z) : bool :=
  match a with
  | [] => byte_at b off =? 0
  | c :: a' =>
      if c =? byte_at b off
      then (if c =? 0 then true else strcmp_eq a' b (off + 1))
      else false
  end.

Definition strneq (a : list Z) (b : buffer) (off : Z) (l : Z) : bool :=
  strncmp_eq (Z.to_nat l) a b off.
Definition streq (a : list Z) (b : buffer) (off : Z) : bool := strcmp_eq a b off.

Definition strlen (a : list Z) : Z := Z.of_nat (length a).

Fixpoint strncpy (n : nat) (b : buffer) (off : Z) (src : list Z) : buffer :=
  match n with
  | O => b
  | S k =>
      let c := hd 0 src in
      strncpy k (set_byte b off c) (off + 1) (if c =? 0 then [] else tl src)
  end.

(** ** Field offsets of the three block layouts *)

Definition sizeof_cs1550_directory : Z := (MAX_FILENAME + 1) + sizeof_long.
Definition sizeof_cs1550_file_directory : Z :=
  (MAX_FILENAME + 1) + (MAX_EXTENSION + 1) + sizeof_size_t + sizeof_long.

Definition directories_off (i : Z) : Z := sizeof_int + sizeof_cs1550_directory * i.
Definition dname_off (i : Z) : Z := directories_off i.
Definition nStartBlock_off (i : Z) : Z := directories_off i + (MAX_FILENAME + 1).

Definition files_off (i : Z) : Z := sizeof_int + sizeof_cs1550_file_directory * i.
Definition fname_off (i : Z) : Z := files_off i.
Definition fext_off (i : Z) : Z := files_off i + (MAX_FILENAME + 1).
Definition fsize_off (i : Z) : Z := fext_off i + (MAX_EXTENSION + 1).
Definition nIndexBlock_off (i : Z) : Z := fsize_off i + sizeof_size_t.

Definition nDirectories (root : buffer) : Z := load_int root 0.
Definition nStartBlock (root : buffer) (i : Z) : Z := load_long root (nStartBlock_off i).
Definition nFiles (d : buffer) : Z := load_int d 0.
Definition fsize (d : buffer) (i : Z) : Z := load_size_t d (fsize_off i).
Definition nIndexBlock (d : buffer) (i : Z) : Z := load_long d (nIndexBlock_off i).
Definition entries (inode : buffer) (i : Z) : Z := load_long inode (sizeof_long * i).
Definition set_entries (inode : buffer) (i v : Z) : buffer :=
  store_long inode (sizeof_long * i) v.

(** ** The state: the open image, the in-memory bitmap *)

Record fs_state : Type := mkState {
  disk : list block;
  bitmap : list Z;
  past_end : list Z
}.

Definition with_disk (st : fs_state) (d : list block) : fs_state :=
  {| disk := d; bitmap := bitmap st; past_end := past_end st |}.
Definition with_bitmap (st : fs_state) (bm : list Z) : fs_state :=
  {| disk := disk st; bitmap := bm; past_end := past_end st |}.

Inductive outcome (A : Type) : Type :=
| Ok (a : A) (st : fs_state)
| Undef.
Arguments Ok {A} a st.
Arguments Undef {A}.

(** ** Helper functions of the source *)

Definition mask (p : Z) : Z :=
  if p <? 0 then 0 else nth (Z.to_nat p) [128; 64; 32; 16; 8; 4; 2; 1] 0.

(** [fread(bitmap, BIT_MAP_SIZE, 1, disk)] at [BIT_MAP_LOCATION]: the bytes
    the image has there overwrite the start of the array. *)
Definition fread_bitmap (st : fs_state) : list Z :=
  let avail :=
    concat (take 3 (drop (Z.to_nat (BIT_MAP_LOCATION / BLOCK_SIZE)) (disk st))) in
  take (Z.to_nat BIT_MAP_SIZE) (avail ++ drop (length avail) (bitmap st)).

Definition or_bit (bm : list Z) (byte_num bit_num : Z) : list Z :=
  set_byte bm byte_num (Z.lor (byte_at bm byte_num) (mask bit_num)).

Definition initBitmap (st : fs_state) : fs_state :=
  let bm0 := fread_bitmap st in
  let bm1 := or_bit bm0 0 0 in
  let bm2 := or_bit bm1 (BIT_MAP_SIZE - 1) 5 in
  let bm3 := or_bit bm2 (BIT_MAP_SIZE - 1) 6 in
  let bm4 := or_bit bm3 (BIT_MAP_SIZE - 1) 7 in
  with_bitmap st bm4.

Definition is_bit_set (data : Z) (p : Z) : bool :=
  negb (Z.land data (mask p) =? 0).

Definition set_bit (block_num : Z) (st : fs_state) : outcome Z :=
  if block_num >? DISK_BLOCKS then Ok (-1) st
  else if block_num <? 0 then Undef
  else
    let byte_num := Z.quot block_num 8 in
    let bit_num := Z.rem block_num 8 in
    Ok 0 (with_bitmap st (or_bit (bitmap st) byte_num bit_num)).

(** Inner loop of [find_free_block]: the first [bit_num' >= bit_num] that is
    clear in [data], or 8 when the loop runs to its end. *)
Fixpoint scan_bits (fuel : nat) (data : Z) (bit_num : Z) : Z :=
  match fuel with
  | O => bit_num
  | S f =>
      if bit_num <? 8
      then (if negb (is_bit_set data bit_num) then bit_num
            else scan_bits f data (bit_num + 1))
      else bit_num
  end.

(** Outer loop: [Some (byte_num, bit_num)] when [found], [None] otherwise. *)
Fixpoint scan_bytes (fuel : nat) (bm : list Z) (byte_num : Z) : option (Z * Z) :=
  match fuel with
  | O => None
  | S f =>
      if byte_num <? BIT_MAP_SIZE
      then
        let bit_num := scan_bits 8 (byte_at bm byte_num) 0 in
        if bit_num <? 8 then Some (byte_num, bit_num)
        else scan_bytes f bm (byte_num + 1)
      else None
  end.

Definition find_free_block (st : fs_state) : Z * fs_state :=
  let st1 :=
    if is_bit_set (byte_at (bitmap st) (BIT_MAP_SIZE - 1)) 7 then st
    else initBitmap st in
  match scan_bytes (Z.to_nat BIT_MAP_SIZE) (bitmap st1) 0 with
  | None => (- ENOSPC, st1)
  | Some (byte_num, bit_num) => (8 * byte_num + bit_num, st1)
  end.

(** [fwrite] of one block at [block_num * BLOCK_SIZE]; past the end of the
    image the file is extended, the gap reading as zeros. *)
Definition put_block (d : list block) (n : nat) (blk : block) : list block :=
  if decide (n < length d)%nat then <[n := blk]> d
  else d ++ replicate (n - length d) zero_block ++ [blk].

(** The block pointer may be NULL ([None]); it is only dereferenced, by
    [fwrite], once the bound test and the seek have passed. *)
Definition write_disk_block (block_num : Z) (blk : option buffer) (st : fs_state)
  : outcome Z :=
  if block_num >? DISK_BLOCKS then Ok (-1) st
  else if block_num <? 0 then Ok (-1) st
  else
    match blk with
    | None => Undef
    | Some b =>
        Ok 0 (with_disk st (put_block (disk st) (Z.to_nat block_num)
                                      (take (Z.to_nat BLOCK_SIZE) b)))
    end.

(** [get_block]: [None] is the NULL result. *)
Definition get_block (block_num : Z) (st : fs_state) : option buffer :=
  if block_num >? DISK_BLOCKS then None
  else if block_num <? 0 then None
  else
    match disk st !! Z.to_nat block_num with
    | Some blk => Some (blk ++ past_end st)
    | None => None
    end.

Definition get_inode := get_block.
Definition get_disk_block := get_block.
Definition get_dir := get_block.
Definition get_root_dir (st : fs_state) : option buffer := get_block 0 st.

(** [calloc(BLOCK_SIZE, 1)] *)
Definition calloc_block (st : fs_state) : buffer := zero_block ++ past_end st.

Definition bind {A B : Type} (c : outcome A) (k : A -> fs_state -> outcome B)
  : outcome B :=
  match c with
  | Ok a st => k a st
  | Undef => Undef
  end.

Notation "'let*' ( x , s ) ':=' c 'in' k" :=
  (bind c (fun x s => k))
  (at level 10, x name, s name, c at level 100, k at level 200).

(** ** Path parsing: [sscanf(path, "/%[^/]/%[^.].%s", dir, fname, fext)]

    The three destinations are zeroed before the call, so a field that is
    not assigned reads as the empty string.  The conversions have no width:
    a component longer than its array ([MAX_FILENAME + 1],
    [MAX_FILENAME + 1] and [MAX_EXTENSION + 1] bytes) overruns it before any
    test is made.  The embedding keeps the whole component, which is what
    the following [strlen] tests look at; it follows the source for
    components that fit, that is, where [name_too_long] is false. *)

Record parsed : Type := mkParsed {
  tokens : Z;
  dir : list Z;
  fname : list Z;
  fext : list Z
}.

Definition is_space (c : Z) : bool := (c =? 32) || ((9 <=? c) && (c <=? 13)).

Fixpoint scan_until (stop : Z -> bool) (s : list Z) : list Z * list Z :=
  match s with
  | [] => ([], [])
  | c :: s' =>
      if stop c then ([], s)
      else let (t, r) := scan_until stop s' in (c :: t, r)
  end.

Fixpoint skip_spaces (s : list Z) : list Z :=
  match s with
  | [] => []
  | c :: s' => if is_space c then skip_spaces s' else s
  end.

Definition slash : Z := 47.
Definition dot : Z := 46.

Definition sscanf_path (path : list Z) : parsed :=
  match fst (scan_until (Z.eqb 0) path) with
  | [] => mkParsed (-1) [] [] []
  | c :: r0 =>
      if negb (c =? slash) then mkParsed 0 [] [] []
      else
        let (d, r1) := scan_until (Z.eqb slash) r0 in
        match d, r0 with
        | [], [] => mkParsed (-1) [] [] []
        | [], _ => mkParsed 0 [] [] []
        | _, _ =>
            match r1 with
            | [] => mkParsed 1 d [] []
            | _ :: r2 =>
                let (f, r3) := scan_until (Z.eqb dot) r2 in
                match f, r3 with
                | [], _ => mkParsed 1 d [] []
                | _, [] => mkParsed 2 d f []
                | _, _ :: r4 =>
                    let (e, _) := scan_until is_space (skip_spaces r4) in
                    match e with
                    | [] => mkParsed 2 d f []
                    | _ => mkParsed 3 d f e
                    end
                end
            end
        end
  end.

Definition name_too_long (p : parsed) : bool :=
  (strlen (dir p) >? MAX_FILENAME) || (strlen (fname p) >? MAX_FILENAME)
  || (strlen (fext p) >? MAX_EXTENSION).

(** ** Directory and file searches

    [for(i = 0; i < n; i++) if(hit i) break;] leaves [i] at the first hit,
    or at [n] (at 0 when [n <= 0]). *)

Fixpoint search_loop (fuel : nat) (hit : Z -> bool) (n i : Z) : Z :=
  match fuel with
  | O => i
  | S f =>
      if i <? n then (if hit i then i else search_loop f hit n (i + 1))
      else i
  end.

Definition dir_index_strneq (root : buffer) (d : list Z) : Z :=
  search_loop (Z.to_nat (nDirectories root))
    (fun i => strneq d root (dname_off i) MAX_FILENAME) (nDirectories root) 0.

Definition dir_index_streq (root : buffer) (d : list Z) : Z :=
  search_loop (Z.to_nat (nDirectories root))
    (fun i => streq d root (dname_off i)) (nDirectories root) 0.

Definition file_match (sub_dir : buffer) (f e : list Z) (i : Z) : bool :=
  strneq f sub_dir (fname_off i) MAX_FILENAME
  && strneq e sub_dir (fext_off i) MAX_EXTENSION.

Definition file_index (sub_dir : buffer) (f e : list Z) : Z :=
  search_loop (Z.to_nat (nFiles sub_dir)) (file_match sub_dir f e)
    (nFiles sub_dir) 0.

(** ** mkdir *)

Definition cs1550_mkdir (path : list Z) (st : fs_state) : outcome Z :=
  let p := sscanf_path path in
  if tokens p >? 1 then Ok (- EPERM) st
  else if strlen (dir p) >? MAX_FILENAME then Ok (- ENAMETOOLONG) st
  else
    match get_root_dir st with
    | None => Ok (- ENOENT) st
    | Some root =>
        let n := nDirectories root in
        if n =? MAX_DIRS_IN_ROOT then Ok (- ENOSPC) st
        else if dir_index_strneq root (dir p) <? n then Ok (- EEXIST) st
        else
          let (free_block_index, st1) := find_free_block st in
          let root1 :=
            strncpy (Z.to_nat (MAX_FILENAME + 1)) root (dname_off n) (dir p) in
          let root2 := store_long root1 (nStartBlock_off n) free_block_index in
          let root3 := store_int root2 0 (n + 1) in
          let* (r, st2) := set_bit free_block_index st1 in
          if r <? 0 then Ok (-1) st2
          else
            let* (w, st3) := write_disk_block 0 (Some root3) st2 in
            if w <? 0 then Ok (-1) st3 else Ok 0 st3
    end.

(** ** mknod *)

Definition cs1550_mknod (path : list Z) (st : fs_state) : outcome Z :=
  let p := sscanf_path path in
  if tokens p <? 3 then Ok (- EPERM) st
  else if name_too_long p then Ok (- ENAMETOOLONG) st
  else
    match get_root_dir st with
    | None => Ok (- ENOENT) st
    | Some root =>
        let i := dir_index_streq root (dir p) in
        let sub_nStartBlock := to_int (nStartBlock root i) in
        match get_dir sub_nStartBlock st with
        | None => Ok (- ENOENT) st
        | Some sub_dir =>
            let nf := nFiles sub_dir in
            if file_index sub_dir (fname p) (fext p) <? nf then Ok (- EEXIST) st
            else if nf =? MAX_FILES_IN_DIR then Ok (- ENOSPC) st
            else
              let (index_block_num, st1) := find_free_block st in
              let* (_r1, st2) := set_bit index_block_num st1 in
              let (data_block_num, st3) := find_free_block st2 in
              let* (_r2, st4) := set_bit data_block_num st3 in
              if (index_block_num =? 0) || (data_block_num =? 0)
              then Ok (- ENOSPC) st4
              else
                let sd1 := store_long sub_dir (nIndexBlock_off nf) index_block_num in
                let sd2 := store_size_t sd1 (fsize_off nf) 0 in
                let sd3 :=
                  strncpy (Z.to_nat (MAX_FILENAME + 1)) sd2 (fname_off nf) (fname p) in
                let sd4 :=
                  strncpy (Z.to_nat (MAX_FILENAME + 1)) sd3 (fext_off nf) (fext p) in
                let sd5 := store_int sd4 0 (nf + 1) in
                let i_block := set_entries (calloc_block st4) 0 data_block_num in
                let d_block := calloc_block st4 in
                let* (_w1, st5) := write_disk_block sub_nStartBlock (Some sd5) st4 in
                let* (_w2, st6) := write_disk_block index_block_num (Some i_block) st5 in
                let* (_w3, st7) := write_disk_block data_block_num (Some d_block) st6 in
                Ok 0 st7
        end
    end.

(** ** Locating the block a transfer starts in

    [for(i = 0; inode->entries[i] != 0 && i < MAX_ENTRIES_IN_INDEX_BLOCK; i++)]
    with its [offset <= BLOCK_SIZE] test.  The loop changes [offset]; [read]
    uses the changed value afterwards, so it is part of the result. *)

Record located : Type := mkLocated {
  cur_block_addr : Z;
  cur_block_index : Z;
  cur_pos : Z;
  rest_offset : Z
}.

Fixpoint locate_loop (fuel : nat) (inode : buffer) (i offset : Z) : located :=
  match fuel with
  | O => mkLocated 0 0 0 offset
  | S f =>
      if negb (entries inode i =? 0) && (i <? MAX_ENTRIES_IN_INDEX_BLOCK)
      then
        if offset <=? BLOCK_SIZE then mkLocated (entries inode i) i offset offset
        else locate_loop f inode (i + 1) (offset - BLOCK_SIZE)
      else mkLocated 0 0 0 offset
  end.

Definition locate (inode : buffer) (offset : Z) : located :=
  locate_loop (S (Z.to_nat MAX_ENTRIES_IN_INDEX_BLOCK)) inode 0 offset.

(** ** read *)

(** How the copy loop of [read] ended: the caller's buffer, the number of
    bytes stored in it, and whether the loop left through the [break] taken
    at a zero [entries[]] slot. *)
Record read_end : Type := mkReadEnd {
  out_buf : list Z;
  delivered : Z;
  at_zero_slot : bool
}.

Fixpoint read_loop (fuel : nat) (st : fs_state) (inode : buffer)
    (file_block : option buffer) (cur_block_index cur_pos i size : Z)
    (buf : list Z) : option read_end :=
  match fuel with
  | O => Some (mkReadEnd buf i false)
  | S f =>
      if i <? size then
        match file_block with
        | None => None
        | Some fb =>
            if byte_at fb cur_pos =? 0 then Some (mkReadEnd buf i false)
            else
              let buf1 := set_byte buf i (byte_at fb cur_pos) in
              let cur_pos1 := cur_pos + 1 in
              if negb (cur_pos1 =? 0) && (cur_pos1 mod (BLOCK_SIZE + 1) =? 0)
              then
                let idx1 := cur_block_index + 1 in
                if negb (entries inode idx1 =? 0)
                then read_loop f st inode (get_disk_block (entries inode idx1) st)
                       idx1 cur_pos1 (i + 1) size buf1
                else Some (mkReadEnd buf1 (i + 1) true)
              else read_loop f st inode (Some fb) cur_block_index cur_pos1
                     (i + 1) size buf1
        end
      else Some (mkReadEnd buf i false)
  end.

(** The size [read] transfers and returns: [if(size + offset > file_size)
    size = file_size - offset;], in [size_t] arithmetic, with the offset the
    locating loop left. *)
Definition clamp_size (size offset file_size : Z) : Z :=
  if to_ulong (size + offset) >? to_ulong file_size
  then to_ulong (file_size - offset)
  else size.

(** What [read] has worked out when it enters its copy loop. *)
Record read_plan : Type := mkReadPlan {
  r_inode : buffer;
  r_file_size : Z;
  r_loc : located;
  r_file_block : option buffer;
  r_size : Z
}.

Inductive resolved (A : Type) : Type :=
| Fails (err : Z)
| Crashes
| Resolved (a : A).
Arguments Fails {A} err.
Arguments Crashes {A}.
Arguments Resolved {A} a.

Definition read_resolve (path : list Z) (size offset : Z) (st : fs_state)
  : resolved read_plan :=
  let p := sscanf_path path in
  if tokens p <? 3 then Fails (- EISDIR)
  else if name_too_long p then Fails (- ENAMETOOLONG)
  else
    match get_root_dir st with
    | None => Crashes
    | Some root =>
        let i := dir_index_streq root (dir p) in
        let sub_nStartBlock := nStartBlock root i in
        match get_dir sub_nStartBlock st with
        | None => Fails (- ENOENT)
        | Some sub_dir =>
            let j := file_index sub_dir (fname p) (fext p) in
            let found := j <? nFiles sub_dir in
            let file_inode_addr := if found then nIndexBlock sub_dir j else 0 in
            let file_size := if found then to_long (fsize sub_dir j) else 0 in
            if file_inode_addr =? 0 then Fails (- ENOENT)
            else
              match get_inode file_inode_addr st with
              | None => Crashes
              | Some inode =>
                  let loc := locate inode offset in
                  Resolved
                    (mkReadPlan inode file_size loc
                       (get_disk_block (cur_block_addr loc) st)
                       (clamp_size size (rest_offset loc) file_size))
              end
        end
    end.

(** [read] with the way its copy loop ended. *)
Definition read_steps (path buf : list Z) (size offset : Z) (st : fs_state)
  : outcome (Z * read_end) :=
  if size =? 0 then Ok (0, mkReadEnd buf 0 false) st
  else
    match read_resolve path size offset st with
    | Fails err => Ok (err, mkReadEnd buf 0 false) st
    | Crashes => Undef
    | Resolved pl =>
        match read_loop (Z.to_nat (r_size pl)) st (r_inode pl) (r_file_block pl)
                (cur_block_index (r_loc pl)) (to_ulong (cur_pos (r_loc pl)))
                0 (r_size pl) buf with
        | None => Undef
        | Some e => Ok (to_int (r_size pl), e) st
        end
    end.

(** [cs1550_read]: the returned [int] and the caller's buffer. *)
Definition cs1550_read (path buf : list Z) (size offset : Z) (st : fs_state)
  : outcome (Z * list Z) :=
  let* (re, st') := read_steps path buf size offset st in
  Ok (fst re, out_buf (snd re)) st'.

(** ** write *)

Definition c_MAX (a b : Z) : Z :=
  if to_ulong a >? to_ulong b then to_ulong a else to_ulong b.

Record write_end : Type := mkWriteEnd {
  w_inode : buffer;
  w_file_block : option buffer;
  w_block_index : Z;
  w_block_addr : Z;
  w_pos : Z
}.

Fixpoint write_loop (bs : list Z) (inode : buffer) (file_block : option buffer)
    (cur_block_index cur_block_addr cur_pos : Z) (st : fs_state)
  : outcome write_end :=
  match bs with
  | [] =>
      Ok (mkWriteEnd inode file_block cur_block_index cur_block_addr cur_pos) st
  | b :: bs' =>
      match file_block with
      | None => Undef
      | Some fb =>
          let fb1 := set_byte fb cur_pos b in
          if negb (cur_pos =? 0) && (Z.rem cur_pos BLOCK_SIZE =? 0)
          then
            let* (_w, st1) := write_disk_block cur_block_addr (Some fb1) st in
            let idx1 := cur_block_index + 1 in
            if negb (entries inode idx1 =? 0)
            then write_loop bs' inode (get_disk_block (entries inode idx1) st1)
                   idx1 cur_block_addr 0 st1
            else
              let (free, st2) := find_free_block st1 in
              let* (_r, st3) := set_bit free st2 in
              write_loop bs' (set_entries inode idx1 free)
                (Some (calloc_block st3)) idx1 free 0 st3
          else write_loop bs' inode (Some fb1) cur_block_index cur_block_addr
                 (cur_pos + 1) st
      end
  end.

(** What [write] has worked out when it reaches the [offset > file_old_size]
    test: the sub directory copy already carries the new [fsize]. *)
Record write_plan : Type := mkWritePlan {
  w_sub_nStartBlock : Z;
  w_sub_dir : buffer;
  w_file_inode_addr : Z;
  w_file_old_size : Z
}.

Definition write_resolve (path : list Z) (size offset : Z) (st : fs_state)
  : resolved write_plan :=
  let p := sscanf_path path in
  if tokens p <? 3 then Fails (- ENOENT)
  else if name_too_long p then Fails (- ENAMETOOLONG)
  else
    match get_root_dir st with
    | None => Crashes
    | Some root =>
        let i := dir_index_strneq root (dir p) in
        let sub_nStartBlock := nStartBlock root i in
        match get_dir sub_nStartBlock st with
        | None => Fails (- ENOENT)
        | Some sub_dir =>
            let j := file_index sub_dir (fname p) (fext p) in
            let found := j <? nFiles sub_dir in
            let file_inode_addr := if found then nIndexBlock sub_dir j else 0 in
            let file_old_size := if found then to_long (fsize sub_dir j) else 0 in
            let sub_dir' :=
              if found
              then store_size_t sub_dir (fsize_off j)
                     (c_MAX file_old_size (size + offset))
              else sub_dir in
            Resolved (mkWritePlan sub_nStartBlock sub_dir' file_inode_addr
                        file_old_size)
        end
    end.

Definition cs1550_write (path buf : list Z) (size offset : Z) (st : fs_state)
  : outcome Z :=
  if size =? 0 then Ok (- EPERM) st
  else
    match write_resolve path size offset st with
    | Fails err => Ok err st
    | Crashes => Undef
    | Resolved pl =>
        if offset >? w_file_old_size pl then Ok (- EFBIG) st
        else if w_file_inode_addr pl =? 0 then Ok (- ENOENT) st
        else
          match get_inode (w_file_inode_addr pl) st with
          | None => Undef
          | Some inode =>
              let loc := locate inode offset in
              let* (w, st1) :=
                write_loop (take (Z.to_nat size) buf) inode
                  (get_disk_block (cur_block_addr loc) st)
                  (cur_block_index loc) (cur_block_addr loc) (cur_pos loc) st in
              let* (_w1, st2) :=
                write_disk_block (w_sub_nStartBlock pl) (Some (w_sub_dir pl)) st1 in
              let* (_w2, st3) :=
                write_disk_block (w_file_inode_addr pl) (Some (w_inode w)) st2 in
              let* (_w3, st4) :=
                write_disk_block (w_block_addr w) (w_file_block w) st3 in
              Ok (to_int size) st4
          end
    end.

(** ** init: open the image and load the bitmap *)

Definition cs1550_init (st : fs_state) : fs_state := initBitmap st.

(** ** destroy: write the bitmap back

    [fwrite(bitmap, BIT_MAP_SIZE, 1, disk)] at [BIT_MAP_LOCATION], block by
    block. *)

Definition bitmap_chunk (bm : list Z) (i : nat) : block :=
  take (Z.to_nat BLOCK_SIZE) (drop (i * Z.to_nat BLOCK_SIZE) bm).

Definition fwrite_bitmap (st : fs_state) : list block :=
  let b := Z.to_nat (BIT_MAP_LOCATION / BLOCK_SIZE) in
  let bm := take (Z.to_nat BIT_MAP_SIZE) (bitmap st) in
  put_block
    (put_block (put_block (disk st) b (bitmap_chunk bm 0))
       (b + 1) (bitmap_chunk bm 1))
    (b + 2) (bitmap_chunk bm 2).

Definition cs1550_destroy (st : fs_state) : fs_state :=
  with_disk st (fwrite_bitmap st).

(** ** The operations that are accepted and do nothing *)

Definition cs1550_rmdir (path : list Z) (st : fs_state) : outcome Z := Ok 0 st.
Definition cs1550_unlink (path : list Z) (st : fs_state) : outcome Z := Ok 0 st.
Definition cs1550_truncate (path : list Z) (size : Z) (st : fs_state)
  : outcome Z := Ok 0 st.
Definition cs1550_open (path : list Z) (st : fs_state) : outcome Z := Ok 0 st.
Definition cs1550_flush (path : list Z) (st : fs_state) : outcome Z := Ok 0 st.

(** ** getattr *)

Record stat : Type := mkStat {
  st_mode : Z;
  st_nlink : Z;
  st_size : Z
}.

Definition S_IFDIR : Z := 16384.   (* 0040000 *)
Definition S_IFREG : Z := 32768.   (* 0100000 *)
Definition mode_0755 : Z := 493.
Definition mode_0666 : Z := 438.

(** The text of a C string: its bytes before the first NUL. *)
Definition c_text (s : list Z) : list Z := fst (scan_until (Z.eqb 0) s).

(** [strcmp(path, "/") == 0] *)
Definition is_root_path (path : list Z) : bool :=
  match c_text path with
  | [c] => c =? slash
  | _ => false
  end.

Definition cs1550_getattr (path : list Z) (st : fs_state) : outcome (Z * stat) :=
  let stbuf := mkStat 0 0 0 in
  if is_root_path path
  then Ok (0, mkStat (Z.lor S_IFDIR mode_0755) 2 0) st
  else
    let p := sscanf_path path in
    if (strlen (fname p) >? MAX_FILENAME) || (strlen (fext p) >? MAX_EXTENSION)
    then Ok (- ENAMETOOLONG, stbuf) st
    else if tokens p <? 1 then Ok (- ENOENT, stbuf) st
    else
      match get_root_dir st with
      | None => Undef
      | Some root =>
          let i := dir_index_strneq root (dir p) in
          if i =? nDirectories root then Ok (- ENOENT, stbuf) st
          else if tokens p =? 1
          then Ok (0, mkStat (Z.lor S_IFDIR mode_0755) 2 0) st
          else
            match get_dir (nStartBlock root i) st with
            | None => Undef
            | Some cur_dir =>
                let j := file_index cur_dir (fname p) (fext p) in
                if j <? nFiles cur_dir
                then Ok (0, mkStat (Z.lor S_IFREG mode_0666) 1
                              (to_long (fsize cur_dir j))) st
                else Ok (- ENOENT, stbuf) st
            end
      end.

(** ** readdir

    The names handed to [filler], in order, stand for the listing. *)

(** The C string that starts at [off] in a buffer. *)
Definition c_string_at (b : buffer) (off : Z) : list Z :=
  if off <? 0 then [] else c_text (drop (Z.to_nat off) b).

(** [strncpy(full_name, fname, 9); strcat(full_name, ".");
    strncat(full_name, fext, 4)] into the uninitialised [full_name]: when the
    name field holds no NUL in its nine bytes, [strcat] looks for one in
    bytes that were never written ([None]). *)
Definition full_name (sub_dir : buffer) (i : Z) : option (list Z) :=
  let name := take (Z.to_nat (MAX_FILENAME + 1)) (c_string_at sub_dir (fname_off i)) in
  if Z.of_nat (length name) =? MAX_FILENAME + 1 then None
  else Some (name ++ [dot]
               ++ take (Z.to_nat (MAX_EXTENSION + 1))
                    (c_string_at sub_dir (fext_off i))).

Fixpoint list_files (sub_dir : buffer) (ixs : list Z) : option (list (list Z)) :=
  match ixs with
  | [] => Some []
  | i :: ixs' =>
      match full_name sub_dir i with
      | None => None
      | Some nm =>
          match list_files sub_dir ixs' with
          | None => None
          | Some rest => Some (nm :: rest)
          end
      end
  end.

Definition dot_entries : list (list Z) := [[dot]; [dot; dot]].

Definition cs1550_readdir (path : list Z) (st : fs_state)
  : outcome (Z * list (list Z)) :=
  let p := sscanf_path path in
  match get_root_dir st with
  | None => Undef
  | Some root =>
      if is_root_path path
      then
        Ok (0, dot_entries
                 ++ map (fun i => c_string_at root (dname_off i))
                        (seqZ 0 (nDirectories root))) st
      else
        let i := dir_index_strneq root (dir p) in
        if i <? nDirectories root then
          match get_dir (nStartBlock root i) st with
          | None => Ok (- ENOENT, dot_entries) st
          | Some sub_dir =>
              match list_files sub_dir (seqZ 0 (nFiles sub_dir)) with
              | None => Undef
              | Some names => Ok (0, dot_entries ++ names) st
              end
          end
        else Ok (- ENOENT, dot_entries) st
  end.

(** ** Vocabulary of the statements *)

(** Bit [k] of the map, most significant bit of each byte first. *)
Definition bit_of (bm : list Z) (k : Z) : bool :=
  Z.testbit (byte_at bm (k / 8)) (7 - k mod 8).

(** The test [find_free_block] makes before it scans. *)
Definition initialised (st : fs_state) : bool :=
  is_bit_set (byte_at (bitmap st) (BIT_MAP_SIZE - 1)) 7.

(** The state [find_free_block] scans: the given one once its bitmap has
    been initialised, the one [initBitmap] loads otherwise. *)
Definition scanned_state (st : fs_state) : fs_state :=
  if initialised st then st else initBitmap st.

Definition result_of {A : Type} (o : outcome A) : option A :=
  match o with
  | Ok a _ => Some a
  | Undef => None
  end.

Definition state_of {A : Type} (o : outcome A) (otherwise : fs_state) : fs_state :=
  match o with
  | Ok _ st => st
  | Undef => otherwise
  end.

Fixpoint bytes_of_string (s : string) : list Z :=
  match s with
  | EmptyString => []
  | String c s' => Z.of_N (N_of_ascii c) :: bytes_of_string s'
  end.

(** *** Concrete images *)

(** The image [dd if=/dev/zero] creates, before [init]. *)
Definition blank_image : fs_state :=
  mkState (replicate (Z.to_nat DISK_BLOCKS) zero_block)
          (replicate (Z.to_nat BIT_MAP_SIZE) 0) [].

Definition mounted : fs_state := cs1550_init blank_image.

Definition alpha : list Z := bytes_of_string "/alpha".
Definition hi_txt : list Z := bytes_of_string "/alpha/hi.txt".

Definition with_alpha : fs_state := state_of (cs1550_mkdir alpha mounted) mounted.
Definition with_hi : fs_state := state_of (cs1550_mknod hi_txt with_alpha) with_alpha.

(** *** Existing files

    A path names an existing file when it parses into three components of
    legal length, the root lists its directory, and the directory block
    lists the file.  [write] looks the directory up with [strncmp], [read]
    and [mknod] with [strcmp]. *)

Record file_ref : Type := mkFileRef {
  f_sub_block : Z;
  f_sub_dir : buffer;
  f_index : Z
}.

Definition find_file (dir_index : buffer -> list Z -> Z) (path : list Z)
    (st : fs_state) : option file_ref :=
  let p := sscanf_path path in
  if (tokens p <? 3) || name_too_long p then None
  else
    match get_root_dir st with
    | None => None
    | Some root =>
        let i := dir_index root (dir p) in
        if i <? nDirectories root then
          match get_dir (nStartBlock root i) st with
          | None => None
          | Some sub_dir =>
              let j := file_index sub_dir (fname p) (fext p) in
              if j <? nFiles sub_dir
              then Some (mkFileRef (nStartBlock root i) sub_dir j)
              else None
          end
        else None
    end.

Definition find_for_write := find_file dir_index_strneq.
Definition find_for_read := find_file dir_index_streq.

(** The size and index block of a file, as the program reads them. *)
Definition file_size (f : file_ref) : Z := to_long (fsize (f_sub_dir f) (f_index f)).
Definition inode_addr (f : file_ref) : Z := nIndexBlock (f_sub_dir f) (f_index f).

Definition INT_MAX : Z := 2147483647.

(** *** Blocks an index block refers to *)

Definition readable (n : Z) (st : fs_state) : bool :=
  match get_block n st with
  | Some _ => true
  | None => false
  end.

(** The first [n] slots of an index block are zero or name a block that
    [get_block] can load. *)
Definition entries_readable (inode : buffer) (st : fs_state) (n : Z) : bool :=
  forallb (fun i => (entries inode i =? 0) || readable (entries inode i) st)
          (seqZ 0 n).

(** The index block of a file is there, and so are the blocks its first [n]
    slots list. *)
Definition index_block_ok (st : fs_state) (f : file_ref) (n : Z) : bool :=
  negb (inode_addr f =? 0)
  && match get_inode (inode_addr f) st with
     | Some inode => entries_readable inode st n
     | None => false
     end.

Definition the_file (o : option file_ref) : file_ref :=
  match o with
  | Some f => f
  | None => mkFileRef 0 [] 0
  end.

Definition hello : list Z := bytes_of_string "Hello".
Definition with_hello : fs_state :=
  state_of (cs1550_write hi_txt hello 5 0 with_hi) with_hi.

Definition entry_ok (st : fs_state) (inode : buffer) (i : Z) : Prop :=
  entries inode i = 0 \/ is_Some (get_block (entries inode i) st).

Definition the_block (o : option (list Z)) : list Z := default [] o.

(** The file holds one full block of ['A']. *)
Definition with_512 : fs_state :=
  state_of (cs1550_write hi_txt (replicate 512 65) 512 0 with_hi) with_hi.

(** One more byte, ['B'], written at offset 512. *)
Definition with_513 : fs_state :=
  state_of (cs1550_write hi_txt [66] 1 512 with_512) with_512.

(** A thousand bytes written in one call. *)
Definition with_1000 : fs_state :=
  state_of (cs1550_write hi_txt (replicate 1000 65) 1000 0 with_hi) with_hi.

(** The bytes ['A'], NUL, ['B'] written at offset 0. *)
Definition with_a0b : fs_state :=
  state_of (cs1550_write hi_txt [65; 0; 66] 3 0 with_hi) with_hi.

Definition zz_b_c : list Z := bytes_of_string "/zz/b.c".

(** An image whose directory entry claims 600 bytes for a file with a single
    data block, full of ['A']; the byte after a block buffer in memory is
    ['X']. *)
Definition short_of_blocks : fs_state :=
  mkState
    (put_block
       (put_block (disk with_hi) 3 (replicate 512 65)) 1
       (take 512 (store_size_t (the_block (get_block 1 with_hi)) (fsize_off 0) 600)))
    (bitmap with_hi) [88].

(** Return value, bytes delivered and zero-slot exit of a [read]. *)
Definition read_summary (o : outcome (Z * read_end)) : option (Z * Z * bool) :=
  match o with
  | Ok (r, e) _ => Some (r, delivered e, at_zero_slot e)
  | Undef => None
  end.

(** *** Round trips *)

(** [bs] stored byte by byte from position [p] on. *)
Fixpoint store_bytes (fb : buffer) (p : Z) (bs : list Z) : buffer :=
  match bs with
  | [] => fb
  | b :: bs' => store_bytes (set_byte fb p b) (p + 1) bs'
  end.

Definition nonzero_bytes (b : list Z) : bool :=
  forallb (fun x => negb (x =? 0)) b.

(** Slots 0 to [k] of the index block list a block. *)
Definition slots_in_use (inode : buffer) (k : Z) : bool :=
  forallb (fun m => negb (entries inode m =? 0)) (seqZ 0 (k + 1)).

(** Block [a] of the image has [BLOCK_SIZE] bytes. *)
Definition block_sized (a : Z) (st : fs_state) : bool :=
  match disk st !! Z.to_nat a with
  | Some blk => Z.of_nat (length blk) =? BLOCK_SIZE
  | None => false
  end.

(** The directory block of the file, its index block and its data block
    number [k] are three different blocks of the image, none of them the
    root, and the index block uses its slots 0 to [k]. *)
Definition file_blocks_ok (st : fs_state) (f : file_ref) (k : Z) : bool :=
  match get_inode (inode_addr f) st with
  | None => false
  | Some inode =>
      let sb := f_sub_block f in
      let ib := inode_addr f in
      let db := entries inode k in
      slots_in_use inode k
      && readable db st
      && negb (sb =? 0) && negb (ib =? 0)
      && negb (sb =? ib) && negb (sb =? db) && negb (ib =? db)
      && block_sized sb st && block_sized ib st && block_sized db st
      && (nFiles (f_sub_dir f) <=? MAX_FILES_IN_DIR)
  end.

(** *** Paths *)

(** No byte of [s] is a stop byte. *)
Definition free_of (stop : Z -> bool) (s : list Z) : bool :=
  forallb (fun c => negb (stop c)) s.

Definition is_nul_or (c0 : Z) (c : Z) : bool := (c =? 0) || (c =? c0).
Definition is_nul_or_space (c : Z) : bool := (c =? 0) || is_space c.

(** The path ["/d/f.e"]. *)
Definition file_path (d f e : list Z) : list Z :=
  slash :: d ++ slash :: f ++ dot :: e.

(** The path ["/d"]. *)
Definition dir_path (d : list Z) : list Z := slash :: d.

(** *** Attributes and listings *)

Definition dir_stat : stat := mkStat (Z.lor S_IFDIR mode_0755) 2 0.
Definition file_stat (size : Z) : stat := mkStat (Z.lor S_IFREG mode_0666) 1 size.
Definition root_path : list Z := [slash].

Definition beta : list Z := bytes_of_string "/beta".

(** The block slot [k] of the file's index block names. *)
Definition data_block_of (st : fs_state) (f : file_ref) (k : Z) : Z :=
  entries (the_block (get_inode (inode_addr f) st)) k.

(** *** An image with no free block left

    Every bit up to block 10247 is set; the first clear bit, 10248, is
    beyond [DISK_BLOCKS]. *)
Definition crowded_bitmap : list Z := replicate 1281 255 ++ replicate 254 0 ++ [7].
Definition crowded : fs_state := with_bitmap with_alpha crowded_bitmap.

(** The directory block [mknod] builds: the entry in the first free slot
    gets its index block, size 0, name and extension, and [nFiles] grows. *)
Definition with_new_file (sub_dir : buffer) (f e : list Z) (ib : Z) : buffer :=
  let nf := nFiles sub_dir in
  store_int
    (strncpy (Z.to_nat (MAX_FILENAME + 1))
       (strncpy (Z.to_nat (MAX_FILENAME + 1))
          (store_size_t (store_long sub_dir (nIndexBlock_off nf) ib)
                        (fsize_off nf) 0)
          (fname_off nf) f)
       (fext_off nf) e)
    0 (nf + 1).

(** The image of [short_of_blocks] when the byte that follows a block
    buffer in memory is zero. *)
Definition short_of_blocks_zero : fs_state :=
  mkState (disk short_of_blocks) (bitmap short_of_blocks) [].

(** * Properties *)

(** Closed goals about the concrete images are settled by evaluation. *)
Ltac evaluate :=
  repeat match goal with |- _ /\ _ => split end; vm_compute; reflexivity.

(** Closed side conditions: equations and comparisons of numbers. *)
Ltac side_condition :=
  vm_compute; repeat split; first [reflexivity | discriminate].
(** ** Bytes and fields of a buffer *)

Lemma length_set_byte b i v : length (set_byte b i v) = length b.
Proof. unfold set_byte. destruct (i <? 0); [reflexivity | apply length_insert]. Qed.

Lemma byte_at_set_byte_eq b i v :
  0 <= i < Z.of_nat (length b) -> byte_at (set_byte b i v) i = v.
Proof.
  intros Hi. unfold byte_at, set_byte.
  destruct (Z.ltb_spec i 0); [lia |].
  rewrite list_lookup_insert_eq by lia. reflexivity.
Qed.

Lemma byte_at_set_byte_ne b i j v :
  i <> j -> byte_at (set_byte b i v) j = byte_at b j.
Proof.
  intros Hne. unfold byte_at, set_byte.
  destruct (Z.ltb_spec j 0); [reflexivity |].
  destruct (Z.ltb_spec i 0); [reflexivity |].
  rewrite list_lookup_insert_ne by lia. reflexivity.
Qed.

Lemma drop_set_byte b i v n :
  i < Z.of_nat n -> drop n (set_byte b i v) = drop n b.
Proof.
  intros Hi. unfold set_byte. destruct (Z.ltb_spec i 0); [reflexivity |].
  apply drop_insert_lt. lia.
Qed.

Lemma byte_at_app_l b1 b2 i :
  i < Z.of_nat (length b1) -> byte_at (b1 ++ b2) i = byte_at b1 i.
Proof.
  intros Hi. unfold byte_at. destruct (Z.ltb_spec i 0); [reflexivity |].
  rewrite lookup_app_l by lia. reflexivity.
Qed.

Lemma byte_at_take b n i :
  i < Z.of_nat n -> byte_at (take n b) i = byte_at b i.
Proof.
  intros Hi. unfold byte_at. destruct (Z.ltb_spec i 0); [reflexivity |].
  rewrite lookup_take_lt by lia. reflexivity.
Qed.

Lemma length_store_le n b off v : length (store_le n b off v) = length b.
Proof.
  revert b off v. induction n as [| k IH]; intros b off v; simpl; [reflexivity |].
  rewrite IH. apply length_set_byte.
Qed.

Lemma byte_at_store_le_out n b off v i :
  i < off \/ off + Z.of_nat n <= i ->
  byte_at (store_le n b off v) i = byte_at b i.
Proof.
  revert b off v. induction n as [| k IH]; intros b off v Hi; simpl; [reflexivity |].
  rewrite IH by lia. apply byte_at_set_byte_ne. lia.
Qed.

Lemma drop_store_le n b off v m :
  off + Z.of_nat n <= Z.of_nat m -> drop m (store_le n b off v) = drop m b.
Proof.
  revert b off v. induction n as [| k IH]; intros b off v Hm; simpl; [reflexivity |].
  rewrite IH by lia. apply drop_set_byte. lia.
Qed.

Lemma load_le_ext n b b' off :
  (forall i, off <= i < off + Z.of_nat n -> byte_at b i = byte_at b' i) ->
  load_le n b off = load_le n b' off.
Proof.
  revert off. induction n as [| k IH]; intros off H; simpl; [reflexivity |].
  rewrite (H off) by lia. rewrite (IH (off + 1)); [reflexivity |].
  intros i Hi. apply H. lia.
Qed.

Lemma load_le_store_le_other n m b off off' v :
  off' + Z.of_nat m <= off \/ off + Z.of_nat n <= off' ->
  load_le m (store_le n b off v) off' = load_le m b off'.
Proof.
  intros H. apply load_le_ext. intros i Hi. apply byte_at_store_le_out. lia.
Qed.

Lemma load_le_store_le_same n b off v :
  0 <= off -> off + Z.of_nat n <= Z.of_nat (length b) ->
  0 <= v < 256 ^ Z.of_nat n ->
  load_le n (store_le n b off v) off = v.
Proof.
  revert b off v. induction n as [| k IH]; intros b off v Hoff Hlen Hv.
  - simpl in *. lia.
  - cbn [load_le store_le].
    rewrite byte_at_store_le_out by lia.
    rewrite byte_at_set_byte_eq by lia.
    rewrite IH.
    + pose proof (Z.div_mod v 256 ltac:(lia)). lia.
    + lia.
    + rewrite length_set_byte. lia.
    + rewrite Nat2Z.inj_succ, Z.pow_succ_r in Hv by lia.
      split; [apply Z.div_pos; lia |].
      apply Z.div_lt_upper_bound; lia.
Qed.

Lemma strncmp_eq_ext n a b b' off :
  (forall i, off <= i < off + Z.of_nat n -> byte_at b i = byte_at b' i) ->
  strncmp_eq n a b off = strncmp_eq n a b' off.
Proof.
  revert a off. induction n as [| k IH]; intros a off H; simpl; [reflexivity |].
  rewrite (H off) by lia. rewrite (IH (tl a) (off + 1)); [reflexivity |].
  intros i Hi. apply H. lia.
Qed.

Lemma search_loop_ext fuel hit hit' n i :
  0 <= i ->
  (forall k, 0 <= k < n -> hit k = hit' k) ->
  search_loop fuel hit n i = search_loop fuel hit' n i.
Proof.
  revert i. induction fuel as [| f IH]; intros i Hi H; simpl; [reflexivity |].
  destruct (Z.ltb_spec i n); [| reflexivity].
  rewrite (H i) by lia. rewrite IH by (auto; lia). reflexivity.
Qed.

Lemma search_loop_range fuel hit n i :
  0 <= i -> 0 <= search_loop fuel hit n i.
Proof.
  revert i. induction fuel as [| f IH]; intros i Hi; simpl; [lia |].
  destruct (i <? n); [| lia]. destruct (hit i); [lia |]. apply IH. lia.
Qed.

Lemma signed_small w x :
  0 < w -> 0 <= x < 2 ^ (w - 1) -> signed w x = x.
Proof.
  intros Hw Hx. unfold signed.
  assert (2 ^ w = 2 * 2 ^ (w - 1)) as Hp.
  { replace w with (Z.succ (w - 1)) at 1 by lia. rewrite Z.pow_succ_r by lia. lia. }
  rewrite Z.mod_small by lia.
  destruct (Z.ltb_spec x (2 ^ (w - 1))); lia.
Qed.

Lemma to_int_small x : 0 <= x < 2 ^ 31 -> to_int x = x.
Proof. intros H. apply signed_small; [lia | exact H]. Qed.

Lemma to_long_small x : 0 <= x < 2 ^ 63 -> to_long x = x.
Proof. intros H. apply signed_small; [lia | exact H]. Qed.

Lemma to_ulong_small x : 0 <= x < 2 ^ 64 -> to_ulong x = x.
Proof. intros H. unfold to_ulong. apply Z.mod_small. exact H. Qed.

(** ** The layout in numbers *)

Lemma MAX_FILES_IN_DIR_val : MAX_FILES_IN_DIR = 17.
Proof. reflexivity. Qed.
Lemma MAX_DIRS_IN_ROOT_val : MAX_DIRS_IN_ROOT = 29.
Proof. reflexivity. Qed.
Lemma MAX_ENTRIES_IN_INDEX_BLOCK_val : MAX_ENTRIES_IN_INDEX_BLOCK = 64.
Proof. reflexivity. Qed.

Lemma fname_off_val j : fname_off j = 4 + 29 * j.
Proof. unfold fname_off, files_off. change sizeof_cs1550_file_directory with 29.
       change sizeof_int with 4. lia. Qed.
Lemma fext_off_val j : fext_off j = 13 + 29 * j.
Proof. unfold fext_off. fold (fname_off j). rewrite fname_off_val.
       change MAX_FILENAME with 8. lia. Qed.
Lemma fsize_off_val j : fsize_off j = 17 + 29 * j.
Proof. unfold fsize_off. rewrite fext_off_val. change MAX_EXTENSION with 3. lia. Qed.
Lemma nIndexBlock_off_val j : nIndexBlock_off j = 25 + 29 * j.
Proof. unfold nIndexBlock_off. rewrite fsize_off_val. change sizeof_size_t with 8. lia. Qed.

(** ** The bitmap: bits, masks *)

Lemma mask_pow2 p : 0 <= p < 8 -> mask p = 2 ^ (7 - p).
Proof.
  intros Hp.
  assert (p = 0 \/ p = 1 \/ p = 2 \/ p = 3 \/ p = 4 \/ p = 5 \/ p = 6 \/ p = 7)
    as Hc by lia.
  repeat (destruct Hc as [-> | Hc]; [reflexivity |]). subst p. reflexivity.
Qed.

Lemma land_pow2 a n :
  0 <= n -> Z.land a (2 ^ n) = if Z.testbit a n then 2 ^ n else 0.
Proof.
  intros Hn. apply Z.bits_inj'. intros m Hm.
  rewrite Z.land_spec, Z.pow2_bits_eqb by lia.
  destruct (Z.eqb_spec n m) as [-> | Hne].
  - destruct (Z.testbit a m); simpl.
    + rewrite Z.pow2_bits_true; auto.
    + now rewrite Z.bits_0.
  - rewrite andb_false_r.
    destruct (Z.testbit a n).
    + rewrite Z.pow2_bits_false; auto.
    + now rewrite Z.bits_0.
Qed.

Lemma is_bit_set_testbit data p :
  0 <= p < 8 -> is_bit_set data p = Z.testbit data (7 - p).
Proof.
  intros Hp. unfold is_bit_set. rewrite mask_pow2, land_pow2 by lia.
  destruct (Z.testbit data (7 - p)).
  - assert (0 < 2 ^ (7 - p)) by (apply Z.pow_pos_nonneg; lia).
    destruct (Z.eqb_spec (2 ^ (7 - p)) 0); [lia | reflexivity].
  - reflexivity.
Qed.

Lemma scan_bits_spec fuel data p :
  0 <= p <= 8 -> 8 <= p + Z.of_nat fuel ->
  let r := scan_bits fuel data p in
  p <= r <= 8
  /\ (forall q, p <= q < r -> is_bit_set data q = true)
  /\ (r < 8 -> is_bit_set data r = false).
Proof.
  revert p. induction fuel as [| f IH]; intros p Hp Hf; simpl.
  - assert (p = 8) by lia. subst p. repeat split; lia.
  - destruct (Z.ltb_spec p 8) as [Hlt | Hge].
    + destruct (is_bit_set data p) eqn:Hb; simpl.
      * destruct (IH (p + 1)) as (Hr & Hset & Hclr); [lia | lia |].
        repeat split; try lia; [| exact Hclr].
        intros q Hq. destruct (Z.eq_dec q p) as [-> | Hne]; [exact Hb |].
        apply Hset. lia.
      * repeat split; try lia. intros _. exact Hb.
    + repeat split; lia.
Qed.

(** What the two nested loops of [find_free_block] compute. *)
Lemma scan_bytes_spec fuel bm b :
  0 <= b -> BIT_MAP_SIZE <= b + Z.of_nat fuel ->
  match scan_bytes fuel bm b with
  | None =>
      forall y q, b <= y < BIT_MAP_SIZE -> 0 <= q < 8 ->
                  is_bit_set (byte_at bm y) q = true
  | Some (y, t) =>
      b <= y < BIT_MAP_SIZE /\ 0 <= t < 8
      /\ is_bit_set (byte_at bm y) t = false
      /\ (forall y' q, b <= y' < y -> 0 <= q < 8 ->
                       is_bit_set (byte_at bm y') q = true)
      /\ (forall q, 0 <= q < t -> is_bit_set (byte_at bm y) q = true)
  end.
Proof.
  revert b. induction fuel as [| f IH]; intros b Hb Hf; cbn [scan_bytes].
  - intros y q Hy Hq. lia.
  - destruct (Z.ltb_spec b BIT_MAP_SIZE) as [Hlt | Hge].
    + pose proof (scan_bits_spec 8 (byte_at bm b) 0) as Hs.
      cbv zeta in Hs. destruct Hs as (Hr & Hset & Hclr); [lia | simpl; lia |].
      set (r := scan_bits 8 (byte_at bm b) 0) in *.
      destruct (Z.ltb_spec r 8) as [Hr8 | Hr8].
      * split; [lia |]. split; [lia |]. split; [apply Hclr; lia |].
        split; [intros; lia | intros; apply Hset; lia].
      * specialize (IH (b + 1)).
        destruct (scan_bytes f bm (b + 1)) as [[y t] |].
        -- destruct IH as (Hy & Ht & Hc & Hbefore & Hin); [lia | lia |].
           split; [lia |]. split; [lia |]. split; [exact Hc |].
           split; [| exact Hin].
           intros y' q Hy' Hq. destruct (Z.eq_dec y' b) as [-> | Hne].
           ++ apply Hset. lia.
           ++ apply Hbefore; lia.
        -- intros y q Hy Hq. destruct (Z.eq_dec y b) as [-> | Hne].
           ++ apply Hset. lia.
           ++ apply IH; lia.
    + intros y q Hy Hq. lia.
Qed.

Lemma bit_of_is_bit_set bm k :
  0 <= k -> bit_of bm k = is_bit_set (byte_at bm (k / 8)) (k mod 8).
Proof.
  intros Hk. unfold bit_of. rewrite is_bit_set_testbit; [reflexivity |].
  apply Z.mod_pos_bound. lia.
Qed.

Lemma find_free_block_scan st :
  let r := fst (find_free_block st) in
  let st1 := scanned_state st in
  snd (find_free_block st) = st1
  /\ ((r = - ENOSPC
       /\ forall k, 0 <= k < 8 * BIT_MAP_SIZE -> bit_of (bitmap st1) k = true)
      \/ (0 <= r < 8 * BIT_MAP_SIZE
          /\ bit_of (bitmap st1) r = false
          /\ forall k, 0 <= k < r -> bit_of (bitmap st1) k = true)).
Proof.
  unfold find_free_block, scanned_state, initialised.
  set (st1 := if is_bit_set _ 7 then st else initBitmap st).
  pose proof (scan_bytes_spec (Z.to_nat BIT_MAP_SIZE) (bitmap st1) 0) as Hs.
  destruct (scan_bytes (Z.to_nat BIT_MAP_SIZE) (bitmap st1) 0) as [[y t] |];
    simpl; (split; [reflexivity |]).
  - destruct Hs as (Hy & Ht & Hc & Hbefore & Hin); [lia | unfold BIT_MAP_SIZE; lia |].
    right. unfold BIT_MAP_SIZE in *.
    assert (Hdiv : (8 * y + t) / 8 = y).
    { rewrite Z.mul_comm, Z.div_add_l by lia. rewrite Z.div_small by lia. lia. }
    assert (Hmod : (8 * y + t) mod 8 = t).
    { rewrite Z.add_comm, Z.mul_comm, Z.mod_add by lia. apply Z.mod_small. lia. }
    split; [lia |]. split.
    + rewrite bit_of_is_bit_set by lia. now rewrite Hdiv, Hmod.
    + intros k Hk. rewrite bit_of_is_bit_set by lia.
      pose proof (Z.div_mod k 8 ltac:(lia)) as Hkm.
      pose proof (Z.mod_pos_bound k 8 ltac:(lia)) as Hkb.
      destruct (Z.eq_dec (k / 8) y) as [Heq | Hne].
      * rewrite Heq. apply Hin. lia.
      * apply Hbefore; lia.
  - left. split; [reflexivity |]. intros k Hk.
    rewrite bit_of_is_bit_set by lia.
    pose proof (Z.div_mod k 8 ltac:(lia)) as Hkm.
    pose proof (Z.mod_pos_bound k 8 ltac:(lia)) as Hkb.
    apply Hs; [lia | unfold BIT_MAP_SIZE; lia | unfold BIT_MAP_SIZE in *; lia | lia].
Qed.

Lemma length_or_bit bm y t : length (or_bit bm y t) = length bm.
Proof. apply length_set_byte. Qed.

Lemma length_fread_bitmap st :
  length (bitmap st) = Z.to_nat BIT_MAP_SIZE ->
  length (fread_bitmap st) = Z.to_nat BIT_MAP_SIZE.
Proof.
  intros Hlen. unfold fread_bitmap.
  rewrite length_take, length_app, length_drop. lia.
Qed.

Lemma is_bit_set_or_same x t :
  0 <= t < 8 -> is_bit_set (Z.lor x (mask t)) t = true.
Proof.
  intros Ht. rewrite is_bit_set_testbit, mask_pow2 by lia.
  rewrite Z.lor_spec, Z.pow2_bits_true by lia. apply orb_true_r.
Qed.

Lemma initialised_initBitmap st :
  length (bitmap st) = Z.to_nat BIT_MAP_SIZE -> initialised (initBitmap st) = true.
Proof.
  intros Hlen. unfold initialised, initBitmap. cbn [bitmap with_bitmap].
  unfold or_bit at 1. rewrite byte_at_set_byte_eq.
  - apply is_bit_set_or_same. lia.
  - rewrite !length_or_bit, length_fread_bitmap by exact Hlen.
    unfold BIT_MAP_SIZE. lia.
Qed.

Lemma initialised_scanned_state st :
  length (bitmap st) = Z.to_nat BIT_MAP_SIZE -> initialised (scanned_state st) = true.
Proof.
  intros Hlen. unfold scanned_state.
  destruct (initialised st) eqn:Hi; [exact Hi | now apply initialised_initBitmap].
Qed.

Lemma scanned_state_idem st :
  length (bitmap st) = Z.to_nat BIT_MAP_SIZE ->
  scanned_state (scanned_state st) = scanned_state st.
Proof.
  intros Hlen. unfold scanned_state at 1.
  now rewrite initialised_scanned_state.
Qed.

Lemma find_free_block_eq st :
  find_free_block st
  = (match scan_bytes (Z.to_nat BIT_MAP_SIZE) (bitmap (scanned_state st)) 0 with
     | None => - ENOSPC
     | Some (byte_num, bit_num) => 8 * byte_num + bit_num
     end, scanned_state st).
Proof.
  unfold find_free_block, scanned_state, initialised.
  destruct (scan_bytes _ _ 0) as [[y t] |]; reflexivity.
Qed.

(** Block numbers above [DISK_BLOCKS] are turned away by all three
    primitives. *)
Lemma beyond_DISK_BLOCKS_rejected n st blk :
  DISK_BLOCKS < n ->
  set_bit n st = Ok (-1) st /\ get_block n st = None
  /\ write_disk_block n blk st = Ok (-1) st.
Proof.
  intros Hn. unfold set_bit, get_block, write_disk_block.
  destruct (Z.gtb_spec n DISK_BLOCKS); [auto | lia].
Qed.

(** C7 (the code at the failing input): block number 10240, the first one
    outside the 10240-block image, passes the [block_num > DISK_BLOCKS] test
    of [set_bit] and of [write_disk_block].  [set_bit] returns 0 and sets a
    bit of byte 1280 of the bitmap; [write_disk_block] returns 0 and grows
    the image to 10241 blocks; [get_block] returns NULL only because the
    read behind the test finds no block there. *)
Theorem block_10240_passes_the_bound_test :
  result_of (set_bit DISK_BLOCKS mounted) = Some 0
  /\ byte_at (bitmap mounted) 1280 = 0
  /\ byte_at (bitmap (state_of (set_bit DISK_BLOCKS mounted) mounted)) 1280 = 128
  /\ result_of (write_disk_block DISK_BLOCKS (Some zero_block) mounted) = Some 0
  /\ Z.of_nat (length (disk mounted)) = 10240
  /\ Z.of_nat (length (disk (state_of
        (write_disk_block DISK_BLOCKS (Some zero_block) mounted) mounted))) = 10241
  /\ get_block DISK_BLOCKS mounted = None.
Proof. evaluate. Qed.

(** C8: with the bitmap initialised (its last bit set: [init] sets it and
    [set_bit] only adds bits, so it is set whenever the file system is
    mounted), [find_free_block] leaves the state as it is and returns the
    index of the first clear bit, scanning from byte 0 upward and from the
    most significant bit of each byte, or [-ENOSPC] when no bit is clear.  A
    second call made right after returns the same block number and again
    changes nothing. *)
Theorem find_free_block_first_clear st :
  initialised st = true ->
  let r := fst (find_free_block st) in
  snd (find_free_block st) = st
  /\ ((r = - ENOSPC
       /\ forall k, 0 <= k < 8 * BIT_MAP_SIZE -> bit_of (bitmap st) k = true)
      \/ (0 <= r < 8 * BIT_MAP_SIZE
          /\ bit_of (bitmap st) r = false
          /\ forall k, 0 <= k < r -> bit_of (bitmap st) k = true))
  /\ find_free_block (snd (find_free_block st)) = (r, st).
Proof.
  intros Hinit r. subst r.
  destruct (find_free_block_scan st) as [Hst Hr].
  unfold scanned_state in Hst, Hr. rewrite Hinit in Hst, Hr.
  cbv iota in Hst, Hr.
  split; [exact Hst |]. split; [exact Hr |].
  rewrite Hst. destruct (find_free_block st) as [a b].
  cbn [fst snd] in *. now subst b.
Qed.

Lemma find_free_block_first_clear_witness :
  let r := fst (find_free_block with_hello) in
  snd (find_free_block with_hello) = with_hello
  /\ ((r = - ENOSPC
       /\ forall k, 0 <= k < 8 * BIT_MAP_SIZE ->
                    bit_of (bitmap with_hello) k = true)
      \/ (0 <= r < 8 * BIT_MAP_SIZE
          /\ bit_of (bitmap with_hello) r = false
          /\ forall k, 0 <= k < r -> bit_of (bitmap with_hello) k = true))
  /\ find_free_block (snd (find_free_block with_hello)) = (r, with_hello).
Proof. apply (find_free_block_first_clear with_hello). vm_compute. reflexivity. Defined.

(** ** Return codes of [read] and [write] *)

Lemma find_file_inv dir_index path st f :
  find_file dir_index path st = Some f ->
  let p := sscanf_path path in
  (tokens p <? 3) = false /\ name_too_long p = false
  /\ exists root,
      get_root_dir st = Some root
      /\ dir_index root (dir p) < nDirectories root
      /\ f_sub_block f = nStartBlock root (dir_index root (dir p))
      /\ get_dir (f_sub_block f) st = Some (f_sub_dir f)
      /\ f_index f = file_index (f_sub_dir f) (fname p) (fext p)
      /\ 0 <= f_index f < nFiles (f_sub_dir f).
Proof.
  intros H p. unfold find_file in H. fold p in H.
  destruct (tokens p <? 3); [discriminate |].
  destruct (name_too_long p); [discriminate |]. cbn [orb] in H.
  split; [reflexivity |]. split; [reflexivity |].
  destruct (get_root_dir st) as [root |]; [| discriminate].
  exists root. split; [reflexivity |].
  destruct (Z.ltb_spec (dir_index root (dir p)) (nDirectories root)) as [Hi |];
    [| discriminate].
  destruct (get_dir _ st) as [sd |] eqn:Hsd; [| discriminate].
  destruct (Z.ltb_spec (file_index sd (fname p) (fext p)) (nFiles sd)) as [Hj |];
    [| discriminate].
  injection H as <-. cbn [f_sub_block f_sub_dir f_index].
  repeat split; auto.
  apply search_loop_range. lia.
Qed.

Lemma write_resolve_found path size offset st f :
  find_for_write path st = Some f ->
  write_resolve path size offset st
  = Resolved (mkWritePlan (f_sub_block f)
                (store_size_t (f_sub_dir f) (fsize_off (f_index f))
                   (c_MAX (file_size f) (size + offset)))
                (inode_addr f) (file_size f)).
Proof.
  unfold find_for_write, find_file, write_resolve.
  destruct (tokens (sscanf_path path) <? 3); [discriminate |].
  destruct (name_too_long (sscanf_path path)); [discriminate |]. cbn [orb].
  destruct (get_root_dir st) as [root |]; [| discriminate].
  destruct (dir_index_strneq root _ <? nDirectories root); [| discriminate].
  destruct (get_dir _ st) as [sub_dir |]; [| discriminate].
  destruct (file_index sub_dir _ _ <? nFiles sub_dir) eqn:Hj; [| discriminate].
  intros [= <-]. unfold file_size, inode_addr. cbn [f_sub_block f_sub_dir f_index].
  reflexivity.
Qed.

Lemma to_long_range x : - 2 ^ 63 <= to_long x < 2 ^ 63.
Proof.
  unfold to_long, signed.
  pose proof (Z.mod_pos_bound x (2 ^ 64) ltac:(lia)).
  destruct (Z.ltb_spec (x mod 2 ^ 64) (2 ^ (64 - 1))); lia.
Qed.

Lemma c_MAX_max a b :
  0 <= a < 2 ^ 63 -> 0 <= b < 2 ^ 64 -> c_MAX a b = Z.max a b.
Proof.
  intros Ha Hb. unfold c_MAX. rewrite !to_ulong_small by lia.
  destruct (Z.gtb_spec a b); lia.
Qed.

Lemma bind_Ok_inv {A B : Type} (c : outcome A) (k : A -> fs_state -> outcome B) b st' :
  bind c k = Ok b st' -> exists a st1, c = Ok a st1 /\ k a st1 = Ok b st'.
Proof. destruct c as [a st1 |]; simpl; [eauto | discriminate]. Qed.

(** The return value of a [write] that got past its checks is [(int)size]. *)
Lemma write_result_cases path buf size offset st r st' :
  cs1550_write path buf size offset st = Ok r st' ->
  (st' = st /\ (r = - EPERM /\ size = 0 \/ r = - ENOENT \/ r = - ENAMETOOLONG
                \/ r = - EFBIG))
  \/ (size <> 0 /\ r = to_int size).
Proof.
  unfold cs1550_write.
  destruct (Z.eqb_spec size 0) as [-> | Hsz].
  { intros [= <- <-]. left. auto. }
  destruct (write_resolve path size offset st) as [err | | pl] eqn:Hres.
  - intros [= <- <-]. left. split; [reflexivity |].
    unfold write_resolve in Hres.
    destruct (tokens _ <? 3); [injection Hres as <-; auto |].
    destruct (name_too_long _); [injection Hres as <-; auto |].
    destruct (get_root_dir st); [| discriminate].
    destruct (get_dir _ st); [discriminate | injection Hres as <-; auto].
  - discriminate.
  - destruct (offset >? w_file_old_size pl); [intros [= <- <-]; left; auto |].
    destruct (w_file_inode_addr pl =? 0); [intros [= <- <-]; left; auto |].
    destruct (get_inode _ st) as [inode |]; [| discriminate].
    intros H.
    apply bind_Ok_inv in H as (w & st1 & _ & H).
    apply bind_Ok_inv in H as (w1 & st2 & _ & H).
    apply bind_Ok_inv in H as (w2 & st3 & _ & H).
    apply bind_Ok_inv in H as (w3 & st4 & _ & H).
    injection H as <- <-. right. auto.
Qed.

(** C9: a read of size 0 returns 0 and leaves the buffer alone, whatever
    the path and the offset: the test comes before the path is parsed.
    With size 1 the same calls run into the checks that follow: a path of
    fewer than three components is [-EISDIR], an over-long component
    [-ENAMETOOLONG], a missing file [-ENOENT]. *)
Theorem read_size_zero_returns_zero :
  (forall path buf offset st, cs1550_read path buf 0 offset st = Ok (0, buf) st)
  /\ result_of (cs1550_read alpha [0] 1 0 with_hi) = Some (- EISDIR, [0])
  /\ result_of (cs1550_read (bytes_of_string "/alpha/longfilename.txt") [0] 1 0 with_hi)
     = Some (- ENAMETOOLONG, [0])
  /\ result_of (cs1550_read (bytes_of_string "/alpha/no.txt") [0] 1 0 with_hi)
     = Some (- ENOENT, [0]).
Proof.
  split; [intros; reflexivity |]. evaluate.
Qed.

(** An existing file and an offset beyond its size: the copy of the sub
    directory that [write] holds when it reaches the offset test carries the
    new size, the call returns [-EFBIG] and the block on disk keeps the old
    one. *)
Lemma write_past_end_discards_copy path buf size offset st f :
  size <> 0 ->
  find_for_write path st = Some f ->
  0 <= file_size f < offset ->
  0 <= size + offset < 2 ^ 64 ->
  nFiles (f_sub_dir f) <= MAX_FILES_IN_DIR ->
  BLOCK_SIZE <= Z.of_nat (length (f_sub_dir f)) ->
  cs1550_write path buf size offset st = Ok (- EFBIG) st
  /\ (exists pl, write_resolve path size offset st = Resolved pl
        /\ fsize (w_sub_dir pl) (f_index f)
           = Z.max (file_size f) (size + offset))
  /\ (exists sub_dir, get_dir (f_sub_block f) st = Some sub_dir
        /\ to_long (fsize sub_dir (f_index f)) = file_size f).
Proof.
  intros Hsize Hf Hoff Hsum Hnf Hlen.
  pose proof (write_resolve_found path size offset st f Hf) as Hres.
  split; [| split].
  - unfold cs1550_write. destruct (Z.eqb_spec size 0); [contradiction |].
    rewrite Hres. cbn [w_file_old_size].
    destruct (Z.gtb_spec offset (file_size f)); [reflexivity | lia].
  - eexists. split; [exact Hres |]. cbn [w_sub_dir].
    pose proof (to_long_range (fsize (f_sub_dir f) (f_index f))) as Hr.
    fold (file_size f) in Hr.
    rewrite c_MAX_max by lia.
    destruct (find_file_inv _ _ _ _ Hf) as (_ & _ & root & _ & _ & _ & _ & _ & Hj).
    unfold fsize, store_size_t, load_size_t.
    rewrite load_le_store_le_same.
    + reflexivity.
    + rewrite fsize_off_val. lia.
    + rewrite fsize_off_val. rewrite MAX_FILES_IN_DIR_val in Hnf.
      unfold BLOCK_SIZE in Hlen. lia.
    + change (256 ^ Z.of_nat 8) with (2 ^ 64). lia.
  - destruct (find_file_inv _ _ _ _ Hf) as (_ & _ & root & _ & _ & _ & Hsd & _).
    exists (f_sub_dir f). split; [exact Hsd | reflexivity].
Qed.

(** C10: whenever [write] returns [-EFBIG] the state, image and bitmap, is
    the one it was called in: no block has been written.  For an existing
    file and an offset beyond its size the call does return [-EFBIG], the
    copy of the sub directory held in memory carries
    [fsize = max(fsize, offset + size)] when the offset test is reached, and
    the block on disk keeps the old size. *)
Theorem write_EFBIG_leaves_image path buf size offset st :
  0 <= size <= INT_MAX ->
  (forall st', cs1550_write path buf size offset st = Ok (- EFBIG) st' -> st' = st)
  /\ (forall f,
        size <> 0 ->
        find_for_write path st = Some f ->
        0 <= file_size f < offset ->
        0 <= size + offset < 2 ^ 64 ->
        nFiles (f_sub_dir f) <= MAX_FILES_IN_DIR ->
        BLOCK_SIZE <= Z.of_nat (length (f_sub_dir f)) ->
        cs1550_write path buf size offset st = Ok (- EFBIG) st
        /\ (exists pl, write_resolve path size offset st = Resolved pl
              /\ fsize (w_sub_dir pl) (f_index f)
                 = Z.max (file_size f) (size + offset))
        /\ (exists sub_dir, get_dir (f_sub_block f) st = Some sub_dir
              /\ to_long (fsize sub_dir (f_index f)) = file_size f)).
Proof.
  intros Hsize. split.
  - intros st' Hw.
    destruct (write_result_cases _ _ _ _ _ _ _ Hw) as [[Hst _] | [Hnz Hr]];
      [exact Hst |].
    exfalso. rewrite to_int_small in Hr by (unfold INT_MAX in Hsize; lia).
    unfold EFBIG in Hr. lia.
  - intros f. apply write_past_end_discards_copy.
Qed.

Lemma write_EFBIG_leaves_image_witness :
  (forall st', cs1550_write hi_txt [65] 1 7 with_hello = Ok (- EFBIG) st' ->
               st' = with_hello)
  /\ cs1550_write hi_txt [65] 1 7 with_hello = Ok (- EFBIG) with_hello
  /\ (exists pl, write_resolve hi_txt 1 7 with_hello = Resolved pl
        /\ fsize (w_sub_dir pl) (f_index (the_file (find_for_write hi_txt with_hello)))
           = Z.max (file_size (the_file (find_for_write hi_txt with_hello))) (1 + 7))
  /\ (exists sub_dir,
        get_dir (f_sub_block (the_file (find_for_write hi_txt with_hello))) with_hello
        = Some sub_dir
        /\ to_long (fsize sub_dir (f_index (the_file (find_for_write hi_txt with_hello))))
           = file_size (the_file (find_for_write hi_txt with_hello))).
Proof.
  split.
  - apply (write_EFBIG_leaves_image hi_txt [65] 1 7 with_hello); side_condition.
  - apply (proj2 (write_EFBIG_leaves_image hi_txt [65] 1 7 with_hello
                    ltac:(side_condition))
             (the_file (find_for_write hi_txt with_hello)));
      side_condition.
Defined.

(** ** [write] runs to its end *)

Lemma bit_of_or_bit_other bm k k' :
  0 <= k -> 0 <= k' -> k <> k' ->
  bit_of (or_bit bm (Z.quot k 8) (Z.rem k 8)) k' = bit_of bm k'.
Proof.
  intros Hk Hk' Hne.
  rewrite Z.quot_div_nonneg, Z.rem_mod_nonneg by lia.
  pose proof (Z.div_mod k 8 ltac:(lia)) as E.
  pose proof (Z.div_mod k' 8 ltac:(lia)) as E'.
  pose proof (Z.mod_pos_bound k 8 ltac:(lia)) as B.
  pose proof (Z.mod_pos_bound k' 8 ltac:(lia)) as B'.
  assert (0 <= k / 8) as Hq by (apply Z.div_pos; lia).
  unfold bit_of, or_bit.
  destruct (Z.eq_dec (k' / 8) (k / 8)) as [Heq | Hdiff].
  - rewrite Heq.
    destruct (Z.lt_ge_cases (k / 8) (Z.of_nat (length bm))) as [Hin | Hout].
    + rewrite byte_at_set_byte_eq by lia.
      rewrite Z.lor_spec, mask_pow2 by lia.
      rewrite Z.pow2_bits_false by lia. apply orb_false_r.
    + unfold set_byte. destruct (k / 8 <? 0); [reflexivity |].
      rewrite list_insert_ge by lia. reflexivity.
  - rewrite byte_at_set_byte_ne by lia. reflexivity.
Qed.

Lemma initialised_bit_of st :
  initialised st = bit_of (bitmap st) (8 * BIT_MAP_SIZE - 1).
Proof.
  unfold initialised. rewrite bit_of_is_bit_set by (unfold BIT_MAP_SIZE; lia).
  reflexivity.
Qed.

Lemma get_block_is_Some n st :
  is_Some (get_block n st)
  <-> 0 <= n <= DISK_BLOCKS /\ n < Z.of_nat (length (disk st)).
Proof.
  unfold get_block.
  destruct (Z.gtb_spec n DISK_BLOCKS).
  { split; [intros [x Hx]; discriminate | lia]. }
  destruct (Z.ltb_spec n 0).
  { split; [intros [x Hx]; discriminate | lia]. }
  destruct (disk st !! Z.to_nat n) as [b |] eqn:Hb.
  - apply lookup_lt_Some in Hb. split; [lia | eauto].
  - apply lookup_ge_None in Hb. split; [intros [x Hx]; discriminate | lia].
Qed.

Lemma length_put_block d m blk : (length d <= length (put_block d m blk))%nat.
Proof.
  unfold put_block. destruct (decide (m < length d)%nat).
  - rewrite length_insert. lia.
  - rewrite length_app. lia.
Qed.

Lemma write_disk_block_total a b st :
  exists w st1,
    write_disk_block a (Some b) st = Ok w st1
    /\ bitmap st1 = bitmap st /\ past_end st1 = past_end st
    /\ (forall n, is_Some (get_block n st) -> is_Some (get_block n st1)).
Proof.
  unfold write_disk_block.
  destruct (a >? DISK_BLOCKS); [exists (-1), st; auto |].
  destruct (a <? 0); [exists (-1), st; auto |].
  eexists _, _. split; [reflexivity |]. split; [reflexivity |].
  split; [reflexivity |].
  intros n Hn. apply get_block_is_Some in Hn. apply get_block_is_Some.
  cbn [disk with_disk].
  pose proof (length_put_block (disk st) (Z.to_nat a) (take (Z.to_nat BLOCK_SIZE) b)).
  lia.
Qed.

Lemma find_free_block_initialised st c :
  initialised st = true ->
  0 <= c < 8 * BIT_MAP_SIZE -> bit_of (bitmap st) c = false ->
  exists free, find_free_block st = (free, st) /\ 0 <= free <= c.
Proof.
  intros Hi Hc Hclear.
  destruct (find_free_block_scan st) as [Hst Hr].
  unfold scanned_state in *. rewrite Hi in *.
  destruct (find_free_block st) as [free st1]. cbn [fst snd] in *. subst st1.
  exists free. split; [reflexivity |].
  destruct Hr as [[_ Hall] | (Hrange & _ & Hbefore)].
  - rewrite Hall in Hclear by lia. discriminate.
  - destruct (Z.le_gt_cases free c) as [| Hgt]; [lia |].
    rewrite Hbefore in Hclear by lia. discriminate.
Qed.

Lemma set_bit_total free st :
  0 <= free ->
  exists r st1,
    set_bit free st = Ok r st1
    /\ disk st1 = disk st /\ past_end st1 = past_end st
    /\ (forall k, DISK_BLOCKS < k -> bit_of (bitmap st1) k = bit_of (bitmap st) k).
Proof.
  intros Hfree. unfold set_bit.
  destruct (Z.gtb_spec free DISK_BLOCKS); [exists (-1), st; auto |].
  destruct (Z.ltb_spec free 0); [lia |].
  eexists _, _. split; [reflexivity |]. split; [reflexivity |].
  split; [reflexivity |].
  intros k Hk. cbn [bitmap with_bitmap].
  apply bit_of_or_bit_other; unfold DISK_BLOCKS in *; lia.
Qed.

Lemma get_block_same_disk n st st1 :
  disk st1 = disk st -> past_end st1 = past_end st ->
  get_block n st1 = get_block n st.
Proof. intros Hd Hp. unfold get_block. now rewrite Hd, Hp. Qed.

Lemma entries_set_entries_other inode i j v :
  i <> j -> entries (set_entries inode j v) i = entries inode i.
Proof.
  intros Hne. unfold entries, set_entries, load_long, store_long.
  rewrite load_le_store_le_other; [reflexivity |].
  unfold sizeof_long. lia.
Qed.

Lemma write_loop_total c bs :
  forall inode fb idx addr pos st,
    initialised st = true ->
    DISK_BLOCKS < c < 8 * BIT_MAP_SIZE -> bit_of (bitmap st) c = false ->
    (forall i, idx < i <= idx + Z.of_nat (length bs) -> entry_ok st inode i) ->
    exists w st',
      write_loop bs inode (Some fb) idx addr pos st = Ok w st'
      /\ is_Some (w_file_block w).
Proof.
  induction bs as [| b bs IH]; intros inode fb idx addr pos st Hinit Hc Hclear Hent.
  - eexists _, _. split; [reflexivity |]. cbn. eauto.
  - cbn [write_loop].
    destruct (negb (pos =? 0) && (Z.rem pos BLOCK_SIZE =? 0)).
    + destruct (write_disk_block_total addr (set_byte fb pos b) st)
        as (w0 & st1 & Hw & Hbm & Hpe & Hread).
      rewrite Hw. cbn [bind].
      assert (Hinit1 : initialised st1 = true).
      { unfold initialised in *. now rewrite Hbm. }
      assert (Hclear1 : bit_of (bitmap st1) c = false) by now rewrite Hbm.
      assert (Hent1 : forall i, idx < i <= idx + Z.of_nat (length (b :: bs)) ->
                                entry_ok st1 inode i).
      { intros i Hi. destruct (Hent i Hi) as [Hz | Hs]; [left; exact Hz |].
        right. apply Hread. exact Hs. }
      cbn [length] in Hent1.
      destruct (Z.eqb_spec (entries inode (idx + 1)) 0) as [Hzero | Hnz]; cbn [negb].
      * destruct (find_free_block_initialised st1 c Hinit1 ltac:(unfold DISK_BLOCKS in *; lia) Hclear1)
          as (free & Hfree & Hfr).
        rewrite Hfree.
        destruct (set_bit_total free st1 ltac:(lia)) as (r & st3 & Hsb & Hd & Hp & Hbits).
        rewrite Hsb. cbn [bind].
        apply IH.
        -- rewrite initialised_bit_of in *. rewrite Hbits; [exact Hinit1 |].
           unfold DISK_BLOCKS, BIT_MAP_SIZE. lia.
        -- exact Hc.
        -- rewrite Hbits by lia. exact Hclear1.
        -- intros i Hi. unfold entry_ok.
           rewrite entries_set_entries_other by lia.
           rewrite (get_block_same_disk _ st1 st3 Hd Hp).
           apply Hent1. lia.
      * destruct (Hent1 (idx + 1) ltac:(lia)) as [Hz | [nb Hnb]]; [contradiction |].
        unfold get_disk_block. rewrite Hnb.
        apply IH; auto.
        intros i Hi. apply Hent1. lia.
    + apply IH; auto.
      intros i Hi. apply Hent. cbn [length]. lia.
Qed.

Lemma locate_loop_cases fuel inode i offset :
  0 <= i ->
  let loc := locate_loop fuel inode i offset in
  0 <= cur_block_index loc < MAX_ENTRIES_IN_INDEX_BLOCK
  /\ (cur_block_addr loc = 0
      \/ cur_block_addr loc = entries inode (cur_block_index loc)).
Proof.
  revert i offset. induction fuel as [| f IH]; intros i offset Hi; cbn [locate_loop].
  - cbn. rewrite MAX_ENTRIES_IN_INDEX_BLOCK_val. split; [lia | auto].
  - destruct (Z.eqb_spec (entries inode i) 0); cbn [negb andb].
    { cbn. rewrite MAX_ENTRIES_IN_INDEX_BLOCK_val. split; [lia | auto]. }
    destruct (Z.ltb_spec i MAX_ENTRIES_IN_INDEX_BLOCK).
    2:{ cbn. rewrite MAX_ENTRIES_IN_INDEX_BLOCK_val. split; [lia | auto]. }
    destruct (offset <=? BLOCK_SIZE).
    + cbn. split; [lia | auto].
    + apply IH. lia.
Qed.

Lemma entries_readable_spec inode st n i :
  entries_readable inode st n = true -> 0 <= i < n -> entry_ok st inode i.
Proof.
  unfold entries_readable, entry_ok, readable. rewrite forallb_forall.
  intros H Hi. specialize (H i).
  rewrite <- list_elem_of_In, elem_of_seqZ in H. specialize (H ltac:(lia)).
  apply orb_true_iff in H as [H | H].
  - left. apply Z.eqb_eq. exact H.
  - right. destruct (get_block (entries inode i) st); [eauto | discriminate].
Qed.

(** An existing file whose index block and data blocks are in the image,
    with a bitmap that is initialised and not full: a [write] at or before
    the end of the file returns [size]. *)
Lemma write_returns_size path buf size offset st f c :
  0 < size <= INT_MAX ->
  find_for_write path st = Some f ->
  offset <= file_size f ->
  index_block_ok st f (MAX_ENTRIES_IN_INDEX_BLOCK + size) = true ->
  initialised st = true ->
  DISK_BLOCKS < c < 8 * BIT_MAP_SIZE -> bit_of (bitmap st) c = false ->
  exists st', cs1550_write path buf size offset st = Ok size st'.
Proof.
  intros Hsize Hf Hoff Hidx Hinit Hc Hclear.
  unfold cs1550_write. destruct (Z.eqb_spec size 0); [lia |].
  rewrite (write_resolve_found path size offset st f Hf).
  cbn [w_file_old_size w_file_inode_addr w_sub_nStartBlock w_sub_dir].
  destruct (Z.gtb_spec offset (file_size f)); [lia |].
  unfold index_block_ok in Hidx. apply andb_true_iff in Hidx as [Hnz Hidx].
  apply negb_true_iff in Hnz. rewrite Hnz.
  destruct (get_inode (inode_addr f) st) as [inode |]; [| discriminate].
  pose proof (fun i => entries_readable_spec inode st _ i Hidx) as Hent.
  destruct (find_file_inv _ _ _ _ Hf) as (_ & _ & root & Hroot & _).
  destruct (locate_loop_cases (S (Z.to_nat MAX_ENTRIES_IN_INDEX_BLOCK)) inode 0 offset
              ltac:(lia)) as [Hk Ha].
  fold (locate inode offset) in Hk, Ha.
  assert (Hzero : is_Some (get_disk_block 0 st)).
  { unfold get_disk_block. fold (get_root_dir st). rewrite Hroot. eauto. }
  assert (Hstart : is_Some (get_disk_block (cur_block_addr (locate inode offset)) st)).
  { destruct Ha as [-> | ->]; [exact Hzero |].
    destruct (Hent (cur_block_index (locate inode offset)) ltac:(lia)) as [-> | Hs];
      [exact Hzero | exact Hs]. }
  destruct Hstart as [fb Hfb]. rewrite Hfb.
  destruct (write_loop_total c (take (Z.to_nat size) buf) inode fb
              (cur_block_index (locate inode offset))
              (cur_block_addr (locate inode offset))
              (cur_pos (locate inode offset)) st Hinit Hc Hclear)
    as (w & st1 & Hw & [fb' Hfb']).
  { intros i Hi. apply Hent. rewrite length_take in Hi. lia. }
  rewrite Hw. cbn [bind].
  destruct (write_disk_block_total (f_sub_block f)
              (store_size_t (f_sub_dir f) (fsize_off (f_index f))
                 (c_MAX (file_size f) (size + offset))) st1) as (w1 & st2 & -> & _).
  cbn [bind].
  destruct (write_disk_block_total (inode_addr f) (w_inode w) st2) as (w2 & st3 & -> & _).
  cbn [bind]. rewrite Hfb'.
  destruct (write_disk_block_total (w_block_addr w) fb' st3) as (w3 & st4 & -> & _).
  cbn [bind]. exists st4. rewrite to_int_small by (unfold INT_MAX in *; lia).
  reflexivity.
Qed.

(** C5: [write] returns [-EPERM] exactly when [size] is 0; for an existing
    file it returns [-EFBIG] when the offset is beyond the file's size (so at
    [fsize + 1]); and a write at [offset = fsize] of an existing file, whose
    index block and listed blocks are in the image and whose bitmap is
    initialised and not full, is carried out and returns [size]. *)
Theorem write_return_codes path buf size offset st :
  0 <= size <= INT_MAX ->
  (size = 0 -> cs1550_write path buf size offset st = Ok (- EPERM) st)
  /\ (forall r st', cs1550_write path buf size offset st = Ok r st' ->
                    r = - EPERM -> size = 0)
  /\ (forall f, find_for_write path st = Some f -> size <> 0 ->
                file_size f < offset ->
                cs1550_write path buf size offset st = Ok (- EFBIG) st)
  /\ (forall f c, find_for_write path st = Some f -> size <> 0 ->
                  offset = file_size f ->
                  index_block_ok st f (MAX_ENTRIES_IN_INDEX_BLOCK + size) = true ->
                  initialised st = true ->
                  DISK_BLOCKS < c < 8 * BIT_MAP_SIZE ->
                  bit_of (bitmap st) c = false ->
                  exists st', cs1550_write path buf size offset st = Ok size st').
Proof.
  intros Hsize. split; [| split; [| split]].
  - intros ->. reflexivity.
  - intros r st' Hw ->.
    destruct (write_result_cases _ _ _ _ _ _ _ Hw) as [[_ Hr] | [Hnz Hr]].
    + unfold EPERM, ENOENT, ENAMETOOLONG, EFBIG in Hr. lia.
    + destruct (Z.eq_dec size 0) as [| Hne]; [assumption |].
      rewrite to_int_small in Hr by (unfold INT_MAX in Hsize; lia).
      unfold EPERM in Hr. lia.
  - intros f Hf Hnz Hoff. unfold cs1550_write.
    destruct (Z.eqb_spec size 0); [contradiction |].
    rewrite (write_resolve_found _ _ _ _ _ Hf). cbn [w_file_old_size].
    destruct (Z.gtb_spec offset (file_size f)); [reflexivity | lia].
  - intros f c Hf Hnz Hoff Hidx Hinit Hc Hclear.
    apply (write_returns_size path buf size offset st f c); auto; lia.
Qed.

Lemma write_return_codes_witness :
  cs1550_write hi_txt hello 0 5 with_hello = Ok (- EPERM) with_hello
  /\ cs1550_write hi_txt hello 5 6 with_hello = Ok (- EFBIG) with_hello
  /\ exists st', cs1550_write hi_txt hello 5 5 with_hello = Ok 5 st'.
Proof.
  split; [| split].
  - apply (write_return_codes hi_txt hello 0 5 with_hello); side_condition.
  - apply (proj1 (proj2 (proj2
             (write_return_codes hi_txt hello 5 6 with_hello ltac:(side_condition))))
           (the_file (find_for_write hi_txt with_hello))); side_condition.
  - apply (proj2 (proj2 (proj2
             (write_return_codes hi_txt hello 5 5 with_hello ltac:(side_condition))))
           (the_file (find_for_write hi_txt with_hello)) 10241); side_condition.
Defined.

(** ** Where the code parts from the specification *)

Lemma locate_loop_found fuel inode :
  forall i off k,
    0 <= i <= k -> k < MAX_ENTRIES_IN_INDEX_BLOCK ->
    (Z.to_nat (k - i) < fuel)%nat ->
    (forall m, i <= m <= k -> entries inode m <> 0) ->
    (BLOCK_SIZE * (k - i) < off \/ k = i) ->
    off <= BLOCK_SIZE * (k - i + 1) ->
    locate_loop fuel inode i off
    = mkLocated (entries inode k) k (off - BLOCK_SIZE * (k - i))
                (off - BLOCK_SIZE * (k - i)).
Proof.
  induction fuel as [| f IH]; intros i off k Hik Hk Hfuel Hent Hlo Hhi; [lia |].
  cbn [locate_loop].
  destruct (Z.eqb_spec (entries inode i) 0) as [Hz | _];
    [exfalso; apply (Hent i); [lia | exact Hz] |].
  destruct (Z.ltb_spec i MAX_ENTRIES_IN_INDEX_BLOCK); [| lia]. cbn [negb andb].
  unfold BLOCK_SIZE in *.
  destruct (Z.leb_spec off 512) as [Hle | Hgt].
  - assert (k = i) as -> by lia.
    replace (off - 512 * (i - i)) with off by lia. reflexivity.
  - assert (i < k) as Hlt by lia.
    rewrite (IH (i + 1) (off - 512) k); try lia.
    + f_equal; lia.
    + intros m Hm. apply Hent. lia.
Qed.

(** At an offset that is a multiple of the block size the transfer is
    located at position 512 of the block before. *)
Lemma locate_at_boundary inode k :
  1 <= k <= MAX_ENTRIES_IN_INDEX_BLOCK ->
  (forall m, 0 <= m < k -> entries inode m <> 0) ->
  locate inode (BLOCK_SIZE * k)
  = mkLocated (entries inode (k - 1)) (k - 1) BLOCK_SIZE BLOCK_SIZE.
Proof.
  intros Hk Hent. unfold locate.
  rewrite (locate_loop_found _ inode 0 (BLOCK_SIZE * k) (k - 1));
    rewrite ?MAX_ENTRIES_IN_INDEX_BLOCK_val in *; unfold BLOCK_SIZE; try lia.
  - f_equal; lia.
  - intros m Hm. apply Hent. lia.
Qed.

(** C2 (the code at the failing input): the file holds exactly 512 bytes
    and one byte ['B'] is written at offset 512.  The write is located at
    index 0, position 512, not at index 1, position 0; it returns 1 and the
    size becomes 513, a second data block is allocated for slot 1, but its
    byte 0 is 0, and a read of that byte delivers nothing. *)
Theorem write_at_block_boundary_misses_next_block :
  file_size (the_file (find_for_write hi_txt with_512)) = 512
  /\ locate (the_block (get_inode 2 with_512)) 512 = mkLocated 3 0 512 512
  /\ result_of (cs1550_write hi_txt [66] 1 512 with_512) = Some 1
  /\ file_size (the_file (find_for_write hi_txt with_513)) = 513
  /\ entries (the_block (get_inode 2 with_513)) 1 = 4
  /\ byte_at (the_block (get_block 4 with_513)) 0 = 0
  /\ result_of (cs1550_read hi_txt [0] 1 512 with_513) = Some (1, [0]).
Proof. evaluate. Qed.

Lemma read_loop_zero_byte fuel st inode fb idx pos i size buf :
  (0 < fuel)%nat -> i < size -> byte_at fb pos = 0 ->
  read_loop fuel st inode (Some fb) idx pos i size buf = Some (mkReadEnd buf i false).
Proof.
  intros Hfuel Hi Hz. destruct fuel as [| f]; [lia |]. cbn [read_loop].
  destruct (Z.ltb_spec i size); [| lia]. rewrite Hz. reflexivity.
Qed.

(** C4 (the code at two failing inputs).  A file of 1000 bytes read at
    offset 1000, its size: the clamp compares against the offset left by the
    locating loop, 488, does not fire, and the call returns 10.  A file of 5
    bytes read at offset 7: [file_size - offset] wraps around in [size_t] and
    the call returns -2.  No byte is stored in the buffer either time. *)
Theorem read_at_or_past_end_returns_nonzero :
  file_size (the_file (find_for_read hi_txt with_1000)) = 1000
  /\ result_of (cs1550_read hi_txt (replicate 10 7) 10 1000 with_1000)
     = Some (10, replicate 10 7)
  /\ file_size (the_file (find_for_read hi_txt with_hello)) = 5
  /\ result_of (cs1550_read hi_txt (replicate 10 7) 10 7 with_hello)
     = Some (-2, replicate 10 7).
Proof.
  split; [vm_compute; reflexivity |]. split; [vm_compute; reflexivity |].
  split; [vm_compute; reflexivity |].
  assert (Hres : read_resolve hi_txt 10 7 with_hello
                 = Resolved (mkReadPlan (the_block (get_inode 2 with_hello)) 5
                               (mkLocated 3 0 7 7)
                               (Some (the_block (get_block 3 with_hello)))
                               18446744073709551614))
    by (vm_compute; reflexivity).
  unfold cs1550_read, read_steps. change (10 =? 0) with false. cbv iota.
  rewrite Hres. cbn [r_size r_inode r_file_block r_loc cur_block_index cur_pos].
  rewrite read_loop_zero_byte; [reflexivity | lia | lia | vm_compute; reflexivity].
Qed.

(** C6 (the code at the failing input): the root lists the one directory
    [alpha]; [mknod "/zz/b.c"] finds no [zz], leaves its loop with
    [i = nDirectories], reads block number 0 from the unused slot, takes the
    root block for the directory, and returns 0, having written a file entry
    into block 0. *)
Theorem mknod_in_missing_directory_succeeds :
  nDirectories (the_block (get_root_dir with_hi)) = 1
  /\ dir_index_streq (the_block (get_root_dir with_hi)) (dir (sscanf_path zz_b_c)) = 1
  /\ nStartBlock (the_block (get_root_dir with_hi)) 1 = 0
  /\ result_of (cs1550_mknod zz_b_c with_hi) = Some 0
  /\ nDirectories (the_block (get_root_dir (state_of (cs1550_mknod zz_b_c with_hi) with_hi)))
     = 2
  /\ result_of (cs1550_mknod (bytes_of_string "/a/b.c") mounted) = Some 0.
Proof. evaluate. Qed.

(** C1: the round trip fails on a region that holds a zero byte.  The bytes
    ['A'], NUL, ['B'] are written at offset 0 of a new file; the write
    returns 3 and the three bytes are in the data block on disk.  The read of
    the same region returns 3 but stops copying at the NUL: one byte is
    delivered, the buffer holds ['A'] and its two old bytes. *)
Lemma round_trip_fails_on_zero_byte :
  result_of (cs1550_write hi_txt [65; 0; 66] 3 0 with_hi) = Some 3
  /\ take 3 (the_block (get_block 3 with_a0b)) = [65; 0; 66]
  /\ file_size (the_file (find_for_read hi_txt with_a0b)) = 3
  /\ read_summary (read_steps hi_txt [255; 255; 255] 3 0 with_a0b)
     = Some (3, 1, false)
  /\ result_of (cs1550_read hi_txt [255; 255; 255] 3 0 with_a0b)
     = Some (3, [65; 255; 255]).
Proof. evaluate. Qed.

(** C3: a read that meets a zero [entries[]] slot returns the size asked
    for, not the bytes delivered.  The directory entry claims 600 bytes, the
    index block lists one data block, full of ['A'].  A read of 600 bytes
    from offset 0 copies the 512 bytes of the block and then looks at
    [data[512]], one byte past the block buffer: the test for the end of a
    block is [cur_pos % (BLOCK_SIZE + 1) == 0].  When that byte is not zero
    it is copied too, slot 1 is found zero, the loop is left through
    [break] with 513 bytes delivered, and the call returns 600.  When it is
    zero the loop ends on the byte without looking at the slot, 512 bytes
    delivered, and the call returns 600 as well. *)
Lemma read_at_zero_slot_returns_size :
  file_size (the_file (find_for_read hi_txt short_of_blocks)) = 600
  /\ entries (the_block (get_inode 2 short_of_blocks)) 1 = 0
  /\ read_summary (read_steps hi_txt (replicate 600 0) 600 0 short_of_blocks)
     = Some (600, 513, true)
  /\ (fst <$> result_of (cs1550_read hi_txt (replicate 600 0) 600 0 short_of_blocks))
     = Some 600
  /\ read_summary (read_steps hi_txt (replicate 600 0) 600 0 short_of_blocks_zero)
     = Some (600, 512, false)
  /\ (fst <$> result_of
                (cs1550_read hi_txt (replicate 600 0) 600 0 short_of_blocks_zero))
     = Some 600.
Proof. evaluate. Qed.

(** ** A write and the read that follows it *)

Lemma length_store_bytes bs : forall fb p, length (store_bytes fb p bs) = length fb.
Proof.
  induction bs as [| b bs IH]; intros fb p; cbn [store_bytes]; [reflexivity |].
  rewrite IH. apply length_set_byte.
Qed.

Lemma byte_at_store_bytes_out bs :
  forall fb p i, i < p \/ p + Z.of_nat (length bs) <= i ->
                 byte_at (store_bytes fb p bs) i = byte_at fb i.
Proof.
  induction bs as [| b bs IH]; intros fb p i Hi; cbn [store_bytes]; [reflexivity |].
  cbn [length] in Hi. rewrite IH by lia. apply byte_at_set_byte_ne. lia.
Qed.

Lemma byte_at_store_bytes_head b bs fb p :
  0 <= p < Z.of_nat (length fb) ->
  byte_at (store_bytes fb p (b :: bs)) p = b.
Proof.
  intros Hp. cbn [store_bytes]. rewrite byte_at_store_bytes_out by lia.
  apply byte_at_set_byte_eq. lia.
Qed.

Lemma drop_store_bytes bs :
  forall fb p m, p + Z.of_nat (length bs) <= Z.of_nat m ->
                 drop m (store_bytes fb p bs) = drop m fb.
Proof.
  induction bs as [| b bs IH]; intros fb p m Hm; cbn [store_bytes]; [reflexivity |].
  cbn [length] in Hm. rewrite IH by lia. apply drop_set_byte. lia.
Qed.

Lemma take_store_bytes_0 bs :
  forall rb, (length bs <= length rb)%nat ->
             take (length bs) (store_bytes rb 0 bs) = bs.
Proof.
  assert (H : forall bs rb (pre : list Z),
             (length bs <= length rb)%nat ->
             store_bytes (pre ++ rb) (Z.of_nat (length pre)) bs
             = pre ++ bs ++ drop (length bs) rb).
  { clear bs. induction bs as [| b bs IH]; intros rb pre Hlen; cbn [store_bytes].
    - rewrite drop_0. reflexivity.
    - destruct rb as [| x rb]; [cbn in Hlen; lia |].
      unfold set_byte. destruct (Z.ltb_spec (Z.of_nat (length pre)) 0); [lia |].
      rewrite Nat2Z.id.
      replace (length pre) with (length pre + 0)%nat at 1 by lia.
      rewrite insert_app_r. cbn [insert list_insert].
      replace (pre ++ b :: rb) with ((pre ++ [b]) ++ rb)
        by (rewrite <- app_assoc; reflexivity).
      replace (Z.of_nat (length pre) + 1) with (Z.of_nat (length (pre ++ [b])))
        by (rewrite length_app; cbn; lia).
      rewrite IH by (cbn in Hlen; lia).
      rewrite <- app_assoc. reflexivity. }
  intros rb Hlen. specialize (H bs rb [] Hlen).
  change (store_bytes rb 0 bs = bs ++ drop (length bs) rb) in H. rewrite H.
  rewrite take_app_length. reflexivity.
Qed.

(** The loop of [write] while it stays short of position 512. *)
Lemma write_loop_inside bs :
  forall inode fb idx addr p st,
    0 <= p -> p + Z.of_nat (length bs) <= BLOCK_SIZE ->
    write_loop bs inode (Some fb) idx addr p st
    = Ok (mkWriteEnd inode (Some (store_bytes fb p bs)) idx addr
            (p + Z.of_nat (length bs))) st.
Proof.
  induction bs as [| b bs IH]; intros inode fb idx addr p st Hp Hlen.
  - cbn. rewrite Z.add_0_r. reflexivity.
  - cbn [write_loop length store_bytes] in *. unfold BLOCK_SIZE in *.
    assert (Hin : negb (p =? 0) && (Z.rem p 512 =? 0) = false).
    { destruct (Z.eqb_spec p 0) as [-> | Hne]; [reflexivity |]. cbn [negb andb].
      rewrite Z.rem_small by lia. apply Z.eqb_neq. exact Hne. }
    rewrite Hin, IH by lia. do 2 f_equal. lia.
Qed.

(** The loop of [read] over bytes that are not NUL, short of position 512. *)
Lemma read_loop_inside bs :
  forall fuel st inode fb idx p i size rb,
    (length bs <= fuel)%nat ->
    0 <= p -> p + Z.of_nat (length bs) <= BLOCK_SIZE ->
    0 <= i -> size = i + Z.of_nat (length bs) ->
    nonzero_bytes bs = true ->
    (forall m, (m < length bs)%nat ->
               byte_at fb (p + Z.of_nat m) = nth m bs 0) ->
    read_loop fuel st inode (Some fb) idx p i size rb
    = Some (mkReadEnd (store_bytes rb i bs) size false).
Proof.
  induction bs as [| b bs IH];
    intros fuel st inode fb idx p i size rb Hfuel Hp Hlen Hi Hsize Hnz Hbytes.
  - cbn in Hsize. rewrite Z.add_0_r in Hsize. subst size.
    destruct fuel as [| f]; cbn [read_loop store_bytes]; [reflexivity |].
    rewrite Z.ltb_irrefl. reflexivity.
  - destruct fuel as [| f]; [cbn in Hfuel; lia |].
    cbn [length] in *. cbn [read_loop store_bytes].
    destruct (Z.ltb_spec i size); [| lia].
    pose proof (Hbytes 0%nat ltac:(lia)) as Hb. cbn in Hb. rewrite Z.add_0_r in Hb.
    cbn [nonzero_bytes forallb] in Hnz. apply andb_true_iff in Hnz as [Hb0 Hnz].
    rewrite Hb. apply negb_true_iff in Hb0. rewrite Hb0.
    unfold BLOCK_SIZE in *.
    assert (Hin : negb (p + 1 =? 0) && ((p + 1) mod (512 + 1) =? 0) = false).
    { rewrite Z.mod_small by lia.
      destruct (Z.eqb_spec (p + 1) 0); [lia | reflexivity]. }
    rewrite Hin.
    apply IH; try lia; auto.
    intros m Hm. specialize (Hbytes (S m) ltac:(lia)).
    cbn [nth] in Hbytes. rewrite <- Hbytes. f_equal. lia.
Qed.

Lemma byte_at_store_bytes_in bs :
  forall fb p m,
    0 <= p -> p + Z.of_nat (length bs) <= Z.of_nat (length fb) ->
    (m < length bs)%nat ->
    byte_at (store_bytes fb p bs) (p + Z.of_nat m) = nth m bs 0.
Proof.
  induction bs as [| b bs IH]; intros fb p m Hp Hlen Hm; [cbn in Hm; lia |].
  cbn [length] in *. destruct m as [| m].
  - rewrite Z.add_0_r. apply byte_at_store_bytes_head. lia.
  - cbn [store_bytes nth].
    replace (p + Z.of_nat (S m)) with (p + 1 + Z.of_nat m) by lia.
    apply IH; [lia | rewrite length_set_byte; lia | lia].
Qed.

(** *** Blocks of the image after [write_disk_block] *)

Lemma get_block_inv n st buf :
  get_block n st = Some buf ->
  0 <= n <= DISK_BLOCKS
  /\ exists blk, disk st !! Z.to_nat n = Some blk /\ buf = blk ++ past_end st.
Proof.
  unfold get_block.
  destruct (Z.gtb_spec n DISK_BLOCKS); [discriminate |].
  destruct (Z.ltb_spec n 0); [discriminate |].
  destruct (disk st !! Z.to_nat n) as [blk |]; [| discriminate].
  intros [= <-]. split; [lia | eauto].
Qed.

Lemma write_disk_block_spec a x st :
  is_Some (get_block a st) ->
  exists st1,
    write_disk_block a (Some x) st = Ok 0 st1
    /\ get_block a st1 = Some (take (Z.to_nat BLOCK_SIZE) x ++ past_end st)
    /\ (forall m, m <> a -> get_block m st1 = get_block m st)
    /\ bitmap st1 = bitmap st /\ past_end st1 = past_end st.
Proof.
  intros [buf Hbuf].
  destruct (get_block_inv _ _ _ Hbuf) as (Ha & blk & Hblk & _).
  pose proof (lookup_lt_Some _ _ _ Hblk) as Hlt.
  unfold write_disk_block.
  destruct (Z.gtb_spec a DISK_BLOCKS); [lia |].
  destruct (Z.ltb_spec a 0); [lia |].
  eexists. split; [reflexivity |].
  unfold get_block. cbn [disk past_end with_disk bitmap].
  unfold put_block. destruct (decide (Z.to_nat a < length (disk st))%nat); [| lia].
  split; [| split; [| auto]].
  - destruct (Z.gtb_spec a DISK_BLOCKS); [lia |].
    destruct (Z.ltb_spec a 0); [lia |].
    rewrite list_lookup_insert_eq by lia. reflexivity.
  - intros m Hm.
    destruct (m >? DISK_BLOCKS); [reflexivity |].
    destruct (Z.ltb_spec m 0); [reflexivity |].
    rewrite list_lookup_insert_ne by lia. reflexivity.
Qed.

Lemma block_sized_buffer a st buf :
  block_sized a st = true -> get_block a st = Some buf ->
  drop (Z.to_nat BLOCK_SIZE) buf = past_end st
  /\ BLOCK_SIZE <= Z.of_nat (length buf).
Proof.
  unfold block_sized. intros Hs Hb.
  destruct (get_block_inv _ _ _ Hb) as (_ & blk & Hblk & ->).
  rewrite Hblk in Hs. apply Z.eqb_eq in Hs.
  split.
  - apply drop_app_length'. lia.
  - rewrite length_app. lia.
Qed.

Lemma reload_buffer (buf : list Z) pe :
  drop (Z.to_nat BLOCK_SIZE) buf = pe ->
  take (Z.to_nat BLOCK_SIZE) buf ++ pe = buf.
Proof. intros <-. apply take_drop. Qed.

(** *** The directory block with a new [fsize] *)

Lemma nFiles_store_fsize sd j v :
  0 <= j -> nFiles (store_size_t sd (fsize_off j) v) = nFiles sd.
Proof.
  intros Hj. unfold nFiles, load_int, store_size_t.
  rewrite load_le_store_le_other; [reflexivity |]. rewrite fsize_off_val. lia.
Qed.

Lemma nIndexBlock_store_fsize sd j v :
  nIndexBlock (store_size_t sd (fsize_off j) v) j = nIndexBlock sd j.
Proof.
  unfold nIndexBlock, load_long, store_size_t.
  rewrite load_le_store_le_other; [reflexivity |].
  rewrite fsize_off_val, nIndexBlock_off_val. lia.
Qed.

Lemma file_match_store_fsize sd j v fn fe k :
  file_match (store_size_t sd (fsize_off j) v) fn fe k = file_match sd fn fe k.
Proof.
  unfold file_match, strneq, store_size_t.
  f_equal; apply strncmp_eq_ext; intros i Hi; apply byte_at_store_le_out;
    rewrite fsize_off_val; rewrite ?fname_off_val, ?fext_off_val in Hi;
    unfold MAX_FILENAME, MAX_EXTENSION in Hi; lia.
Qed.

Lemma fsize_store_fsize sd j v :
  0 <= j -> fsize_off j + 8 <= Z.of_nat (length sd) -> 0 <= v < 2 ^ 64 ->
  fsize (store_size_t sd (fsize_off j) v) j = v.
Proof.
  intros Hj Hlen Hv. unfold fsize, load_size_t, store_size_t.
  apply load_le_store_le_same.
  - rewrite fsize_off_val. lia.
  - lia.
  - change (256 ^ Z.of_nat 8) with (2 ^ 64). exact Hv.
Qed.

Lemma file_index_store_fsize sd j v fn fe :
  0 <= j ->
  file_index (store_size_t sd (fsize_off j) v) fn fe = file_index sd fn fe.
Proof.
  intros Hj. unfold file_index. rewrite nFiles_store_fsize by exact Hj.
  apply search_loop_ext; [lia |].
  intros k _. apply file_match_store_fsize.
Qed.

Lemma find_file_after dir_index path st st' f sd' :
  find_file dir_index path st = Some f ->
  get_root_dir st' = get_root_dir st ->
  get_dir (f_sub_block f) st' = Some sd' ->
  nFiles sd' = nFiles (f_sub_dir f) ->
  file_index sd' (fname (sscanf_path path)) (fext (sscanf_path path)) = f_index f ->
  find_file dir_index path st' = Some (mkFileRef (f_sub_block f) sd' (f_index f)).
Proof.
  intros Hf Hroot Hsd Hn Hidx.
  destruct (find_file_inv _ _ _ _ Hf)
    as (Htok & Hname & root & Hr & Hi & Hsb & _ & _ & Hj).
  unfold find_file. rewrite Htok, Hname. cbn [orb].
  rewrite Hroot, Hr.
  destruct (Z.ltb_spec (dir_index root (dir (sscanf_path path))) (nDirectories root));
    [| lia].
  rewrite <- Hsb, Hsd, Hidx, Hn.
  destruct (Z.ltb_spec (f_index f) (nFiles (f_sub_dir f))); [reflexivity | lia].
Qed.

Lemma read_resolve_found path size offset st f inode :
  find_for_read path st = Some f ->
  inode_addr f <> 0 ->
  get_inode (inode_addr f) st = Some inode ->
  read_resolve path size offset st
  = Resolved (mkReadPlan inode (file_size f) (locate inode offset)
                (get_disk_block (cur_block_addr (locate inode offset)) st)
                (clamp_size size (rest_offset (locate inode offset)) (file_size f))).
Proof.
  intros Hf Hnz Hinode.
  destruct (find_file_inv _ _ _ _ Hf)
    as (Htok & Hname & root & Hr & Hi & Hsb & Hsd & Hidx & Hj).
  unfold read_resolve. rewrite Htok, Hname, Hr, <- Hsb, Hsd, <- Hidx.
  destruct (Z.ltb_spec (f_index f) (nFiles (f_sub_dir f))); [| lia].
  fold (inode_addr f). fold (file_size f).
  destruct (Z.eqb_spec (inode_addr f) 0); [contradiction |].
  rewrite Hinode. reflexivity.
Qed.

Lemma file_blocks_ok_inv st f k :
  file_blocks_ok st f k = true ->
  exists inode fb,
    get_inode (inode_addr f) st = Some inode
    /\ get_block (entries inode k) st = Some fb
    /\ (forall m, 0 <= m <= k -> entries inode m <> 0)
    /\ f_sub_block f <> 0 /\ inode_addr f <> 0
    /\ f_sub_block f <> inode_addr f
    /\ f_sub_block f <> entries inode k
    /\ inode_addr f <> entries inode k
    /\ block_sized (f_sub_block f) st = true
    /\ block_sized (inode_addr f) st = true
    /\ block_sized (entries inode k) st = true
    /\ nFiles (f_sub_dir f) <= MAX_FILES_IN_DIR.
Proof.
  unfold file_blocks_ok. destruct (get_inode (inode_addr f) st) as [inode |];
    [| discriminate].
  intros H.
  repeat match type of H with
         | _ && _ = true => let H' := fresh "H" in apply andb_true_iff in H as [H H']
         end.
  repeat match goal with
         | Hn : negb (_ =? _) = true |- _ =>
             apply negb_true_iff in Hn; apply Z.eqb_neq in Hn
         end.
  unfold readable in *.
  destruct (get_block (entries inode k) st) as [fb |] eqn:Hfb; [| discriminate].
  exists inode, fb. repeat split; auto.
  - intros m Hm. unfold slots_in_use in H. rewrite forallb_forall in H.
    specialize (H m). rewrite <- list_elem_of_In, elem_of_seqZ in H.
    specialize (H ltac:(lia)). apply negb_true_iff in H. apply Z.eqb_neq in H. exact H.
  - apply Z.leb_le. assumption.
Qed.

Lemma clamp_size_inside n p fs :
  0 <= n -> 0 <= p -> n + p <= fs -> fs < 2 ^ 64 -> clamp_size n p fs = n.
Proof.
  intros Hn Hp Hle Hfs. unfold clamp_size. rewrite !to_ulong_small by lia.
  destruct (Z.gtb_spec (n + p) fs); [lia | reflexivity].
Qed.

(** X22: the round trip where it holds.  For an existing file whose
    directory block, index block and data block [k] are distinct 512-byte
    blocks of the image, a buffer [b] of bytes none of which is NUL, and a
    region that starts at or before the end of the file and lies in data
    block [k] short of in-block position 512 (offset 0, or [512 k < o], and
    [o + n <= 512 (k + 1)]): the write returns [n], and the read of the same
    region that follows returns [n] and delivers exactly the bytes of [b]. *)
Theorem write_then_read_inside_block path b rb o st f k :
  find_for_write path st = Some f ->
  find_for_read path st = Some f ->
  file_blocks_ok st f k = true ->
  0 <= k < MAX_ENTRIES_IN_INDEX_BLOCK ->
  BLOCK_SIZE * k < o \/ (k = 0 /\ 0 <= o) ->
  o + Z.of_nat (length b) <= BLOCK_SIZE * (k + 1) ->
  o <= file_size f ->
  b <> [] -> nonzero_bytes b = true ->
  (length b <= length rb)%nat ->
  exists st',
    cs1550_write path b (Z.of_nat (length b)) o st = Ok (Z.of_nat (length b)) st'
    /\ exists rb',
        cs1550_read path rb (Z.of_nat (length b)) o st'
        = Ok (Z.of_nat (length b), rb') st'
        /\ take (length b) rb' = b.
Proof.
  intros Hfw Hfr Hok Hk Hlo Hhi Hend Hne Hnz Hrb.
  destruct (file_blocks_ok_inv _ _ _ Hok)
    as (inode & fb & Hinode & Hfb & Hslots & Hsb0 & Hib0 & Hsbib & Hsbdb & Hibdb
        & Hsz_sb & Hsz_ib & Hsz_db & Hnf).
  destruct (find_file_inv _ _ _ _ Hfw)
    as (_ & _ & root & Hroot & _ & _ & Hsd & _ & Hj).
  unfold get_dir, get_inode in *.
  set (n := Z.of_nat (length b)) in *.
  set (sb := f_sub_block f) in *. set (ib := inode_addr f) in *.
  set (db := entries inode k) in *. set (j := f_index f) in *.
  set (sd := f_sub_dir f) in *. set (p := o - BLOCK_SIZE * k).
  rewrite MAX_ENTRIES_IN_INDEX_BLOCK_val in Hk. rewrite MAX_FILES_IN_DIR_val in Hnf.
  assert (Hn : 0 < n) by (destruct b; [contradiction | subst n; cbn [length]; lia]).
  assert (Hp : 0 <= p /\ p + n <= 512) by (unfold p, BLOCK_SIZE in *; lia).
  assert (Hfs : 0 <= file_size f < 2 ^ 63).
  { pose proof (to_long_range (fsize sd j)). unfold file_size. fold sd j.
    unfold file_size in Hend. fold sd j in Hend. unfold BLOCK_SIZE in *. lia. }
  assert (Hloc : locate inode o = mkLocated db k p p).
  { unfold locate.
    rewrite (locate_loop_found _ inode 0 o k);
      rewrite ?MAX_ENTRIES_IN_INDEX_BLOCK_val, ?Z.sub_0_r; try lia.
    - reflexivity.
    - intros m Hm. apply Hslots. lia. }
  destruct (block_sized_buffer _ _ _ Hsz_sb Hsd) as [Hdrop_sd Hlen_sd].
  destruct (block_sized_buffer _ _ _ Hsz_ib Hinode) as [Hdrop_in Hlen_in].
  destruct (block_sized_buffer _ _ _ Hsz_db Hfb) as [Hdrop_fb Hlen_fb].
  set (v := c_MAX (file_size f) (n + o)).
  assert (Hv : v = Z.max (file_size f) (n + o)).
  { unfold v. apply c_MAX_max; [lia | unfold BLOCK_SIZE in *; lia]. }
  set (sd' := store_size_t sd (fsize_off j) v).
  set (fb' := store_bytes fb p b).
  assert (Hdb0 : db <> 0) by (apply Hslots; lia).
  (* the write *)
  destruct (write_disk_block_spec sb sd' st ltac:(rewrite Hsd; eauto))
    as (st1 & Hw1 & Hsb1 & Hoth1 & _ & Hpe1).
  destruct (write_disk_block_spec ib inode st1
              ltac:(rewrite Hoth1 by lia; rewrite Hinode; eauto))
    as (st2 & Hw2 & Hib2 & Hoth2 & _ & Hpe2).
  destruct (write_disk_block_spec db fb' st2
              ltac:(rewrite Hoth2, Hoth1 by lia; rewrite Hfb; eauto))
    as (st3 & Hw3 & Hdb3 & Hoth3 & _ & Hpe3).
  exists st3. split.
  { unfold cs1550_write.
    destruct (Z.eqb_spec n 0); [lia |].
    rewrite (write_resolve_found _ _ _ _ _ Hfw).
    cbn [w_file_old_size w_file_inode_addr w_sub_nStartBlock w_sub_dir].
    destruct (Z.gtb_spec o (file_size f)); [lia |].
    fold ib. destruct (Z.eqb_spec ib 0); [contradiction |].
    unfold get_inode, get_disk_block.
    rewrite Hinode, Hloc. cbn [cur_block_addr cur_block_index cur_pos].
    rewrite Hfb.
    replace (take (Z.to_nat n) b) with b by (symmetry; apply take_ge; lia).
    rewrite write_loop_inside by (unfold BLOCK_SIZE; fold n; lia).
    cbn [bind w_inode w_file_block w_block_addr].
    fold sb sd j v sd' fb'. rewrite Hw1. cbn [bind]. rewrite Hw2. cbn [bind].
    rewrite Hw3. cbn [bind]. rewrite to_int_small by lia. reflexivity. }
  (* the blocks of the image after the write *)
  assert (Hroot3 : get_root_dir st3 = get_root_dir st).
  { unfold get_root_dir. rewrite Hoth3, Hoth2, Hoth1 by lia. reflexivity. }
  assert (Hsd3 : get_block sb st3 = Some sd').
  { rewrite Hoth3, Hoth2, Hsb1 by lia. f_equal.
    apply reload_buffer. unfold sd', store_size_t.
    rewrite drop_store_le; [exact Hdrop_sd |].
    rewrite fsize_off_val. unfold BLOCK_SIZE. lia. }
  assert (Hin3 : get_block ib st3 = Some inode).
  { rewrite Hoth3, Hib2, Hpe1 by lia. f_equal.
    apply reload_buffer. exact Hdrop_in. }
  assert (Hfb3 : get_block db st3 = Some fb').
  { rewrite Hdb3, Hpe2, Hpe1. f_equal.
    apply reload_buffer. unfold fb'.
    rewrite drop_store_bytes; [exact Hdrop_fb | unfold BLOCK_SIZE; fold n; lia]. }
  assert (Hfr3 : find_for_read path st3 = Some (mkFileRef sb sd' j)).
  { apply (find_file_after _ _ st st3 f sd' Hfr Hroot3 Hsd3).
    - apply nFiles_store_fsize. lia.
    - unfold sd'. rewrite file_index_store_fsize by lia.
      destruct (find_file_inv _ _ _ _ Hfr) as (_ & _ & _ & _ & _ & _ & _ & Hx & _).
      symmetry. exact Hx. }
  assert (Hsize3 : file_size (mkFileRef sb sd' j) = Z.max (file_size f) (n + o)).
  { change (to_long (fsize sd' j) = Z.max (file_size f) (n + o)). unfold sd'.
    rewrite fsize_store_fsize.
    - rewrite Hv. apply to_long_small. unfold BLOCK_SIZE in *. lia.
    - lia.
    - rewrite fsize_off_val. unfold BLOCK_SIZE in *. lia.
    - rewrite Hv. unfold BLOCK_SIZE in *. lia. }
  assert (Hib3 : inode_addr (mkFileRef sb sd' j) = ib).
  { unfold inode_addr. cbn [f_sub_dir f_index]. unfold sd'.
    apply nIndexBlock_store_fsize. }
  exists (store_bytes rb 0 b). split; [| apply take_store_bytes_0; exact Hrb].
  unfold cs1550_read, read_steps.
  destruct (Z.eqb_spec n 0); [lia |].
  rewrite (read_resolve_found path n o st3 _ inode Hfr3)
    by (rewrite ?Hib3; auto).
  cbn [r_size r_inode r_file_block r_loc].
  rewrite Hloc. cbn [cur_block_addr cur_block_index cur_pos rest_offset].
  unfold get_disk_block. rewrite Hfb3, Hsize3.
  rewrite clamp_size_inside by (unfold BLOCK_SIZE in *; lia).
  rewrite to_ulong_small by lia.
  rewrite (read_loop_inside b); try (unfold BLOCK_SIZE; fold n; lia); auto.
  - cbn [bind fst snd out_buf]. rewrite to_int_small by lia. reflexivity.
  - intros m Hm. unfold fb'.
    apply byte_at_store_bytes_in; fold n; unfold BLOCK_SIZE in *; lia.
Qed.

Lemma write_then_read_inside_block_witness :
  (exists st',
     cs1550_write hi_txt hello (Z.of_nat (length hello)) 0 with_hi
     = Ok (Z.of_nat (length hello)) st'
     /\ exists rb',
         cs1550_read hi_txt (replicate 5 0) (Z.of_nat (length hello)) 0 st'
         = Ok (Z.of_nat (length hello), rb') st'
         /\ take (length hello) rb' = hello)
  /\ (exists st',
        cs1550_write hi_txt hello (Z.of_nat (length hello)) 600 with_1000
        = Ok (Z.of_nat (length hello)) st'
        /\ exists rb',
            cs1550_read hi_txt (replicate 5 0) (Z.of_nat (length hello)) 600 st'
            = Ok (Z.of_nat (length hello), rb') st'
            /\ take (length hello) rb' = hello).
Proof.
  split.
  - apply (write_then_read_inside_block hi_txt hello (replicate 5 0) 0 with_hi
             (the_file (find_for_write hi_txt with_hi)) 0);
      first [ side_condition | right; side_condition | discriminate
            | vm_compute; lia ].
  - apply (write_then_read_inside_block hi_txt hello (replicate 5 0) 600 with_1000
             (the_file (find_for_write hi_txt with_1000)) 1);
      first [ side_condition | left; side_condition | discriminate
            | vm_compute; lia ].
Defined.

(** ** A read that runs into a zero slot *)

Lemma read_loop_at_zero_slot fuel st inode :
  forall fbo idx pos i size buf e,
    read_loop fuel st inode fbo idx pos i size buf = Some e ->
    at_zero_slot e = true ->
    i < delivered e <= size.
Proof.
  induction fuel as [| f IH]; intros fbo idx pos i size buf e; cbn [read_loop].
  - intros [= <-]. discriminate.
  - destruct (Z.ltb_spec i size) as [Hlt |]; [| intros [= <-]; discriminate].
    destruct fbo as [fb |]; [| discriminate].
    destruct (byte_at fb pos =? 0); [intros [= <-]; discriminate |].
    destruct (negb (pos + 1 =? 0) && ((pos + 1) mod (BLOCK_SIZE + 1) =? 0)).
    + destruct (negb (entries inode (idx + 1) =? 0)).
      * intros H Hz. specialize (IH _ _ _ _ _ _ _ H Hz). lia.
      * intros [= <-] _. cbn [delivered]. lia.
    + intros H Hz. specialize (IH _ _ _ _ _ _ _ H Hz). lia.
Qed.

(** In general: when a read leaves its copy loop at a zero [entries[]]
    slot, having delivered [d] bytes, it has delivered at least one byte and
    no more than the size it transfers, and the value it returns is that
    size ([size], or [fsize - offset] with the offset the locating loop
    left, when the clamp applies), not [d]. *)
Lemma read_at_zero_slot_returns_clamped_size path buf size offset st r d :
  read_summary (read_steps path buf size offset st) = Some (r, d, true) ->
  exists pl,
    read_resolve path size offset st = Resolved pl
    /\ r_size pl = clamp_size size (rest_offset (r_loc pl)) (r_file_size pl)
    /\ r = to_int (r_size pl)
    /\ 0 < d <= r_size pl
    /\ exists rb', cs1550_read path buf size offset st = Ok (r, rb') st.
Proof.
  unfold cs1550_read, read_steps.
  destruct (size =? 0); [intros [=] |].
  destruct (read_resolve path size offset st) as [err | | pl] eqn:Hres;
    [intros [=] | intros [=] |].
  destruct (read_loop _ st _ _ _ _ 0 _ buf) as [e |] eqn:Hloop; [| intros [=]].
  cbn [read_summary bind fst snd]. intros [= <- <- Hz].
  exists pl. split; [reflexivity |].
  split.
  - unfold read_resolve in Hres.
    destruct (tokens _ <? 3); [discriminate |].
    destruct (name_too_long _); [discriminate |].
    destruct (get_root_dir st); [| discriminate].
    destruct (get_dir _ st); [| discriminate].
    destruct (_ =? 0); [discriminate |].
    destruct (get_inode _ st); [| discriminate].
    injection Hres as <-. reflexivity.
  - split; [reflexivity |]. split.
    + exact (read_loop_at_zero_slot _ _ _ _ _ _ _ _ _ _ Hloop Hz).
    + eexists. reflexivity.
Qed.

Lemma read_at_zero_slot_returns_clamped_size_example :
  exists pl,
    read_resolve hi_txt 600 0 short_of_blocks = Resolved pl
    /\ r_size pl = clamp_size 600 (rest_offset (r_loc pl)) (r_file_size pl)
    /\ 600 = to_int (r_size pl)
    /\ 0 < 513 <= r_size pl
    /\ exists rb',
        cs1550_read hi_txt (replicate 600 0) 600 0 short_of_blocks
        = Ok (600, rb') short_of_blocks.
Proof.
  apply (read_at_zero_slot_returns_clamped_size hi_txt (replicate 600 0) 600 0
           short_of_blocks 600 513).
  vm_compute. reflexivity.
Qed.

(** The zero-slot test is behind the byte past the block.  While the buffer
    of the current block has at most [BLOCK_SIZE] bytes and reads as zero
    after them, the loop never reaches a position that is a multiple of
    [BLOCK_SIZE + 1]: it ends on the zero byte first, without changing block
    and without looking at a slot. *)
Lemma read_loop_within_block fuel st inode :
  forall fbo idx pos i size buf e,
    (forall fb, fbo = Some fb -> Z.of_nat (length fb) <= BLOCK_SIZE) ->
    0 <= pos ->
    read_loop fuel st inode fbo idx pos i size buf = Some e ->
    at_zero_slot e = false.
Proof.
  induction fuel as [| f IH]; intros fbo idx pos i size buf e Hfb Hpos;
    cbn [read_loop].
  - intros [= <-]. reflexivity.
  - destruct (i <? size); [| intros [= <-]; reflexivity].
    destruct fbo as [fb |]; [| discriminate].
    destruct (Z.eqb_spec (byte_at fb pos) 0) as [| Hb]; [intros [= <-]; reflexivity |].
    assert (Hin : pos < Z.of_nat (length fb)).
    { unfold byte_at in Hb. destruct (Z.ltb_spec pos 0); [lia |].
      destruct (fb !! Z.to_nat pos) as [x |] eqn:E; [| contradiction].
      apply lookup_lt_Some in E. lia. }
    specialize (Hfb fb eq_refl) as Hlen. unfold BLOCK_SIZE in *.
    replace (negb (pos + 1 =? 0) && ((pos + 1) mod (512 + 1) =? 0)) with false.
    + apply IH; [exact Hfb | lia].
    + symmetry. apply andb_false_iff. right. apply Z.eqb_neq.
      rewrite Z.mod_small by lia. lia.
Qed.

Lemma zero_slot_exit_reads_past_block path buf size offset st r d z :
  past_end st = [] ->
  (forall n blk, disk st !! n = Some blk -> Z.of_nat (length blk) <= BLOCK_SIZE) ->
  read_summary (read_steps path buf size offset st) = Some (r, d, z) ->
  z = false.
Proof.
  intros Hpe Hblocks. unfold read_steps.
  destruct (size =? 0); [intros [= _ _ <-]; reflexivity |].
  destruct (read_resolve path size offset st) as [err | | pl] eqn:Hres;
    [intros [= _ _ <-]; reflexivity | intros [=] |].
  destruct (read_loop _ st _ _ _ _ 0 _ buf) as [e |] eqn:Hloop; [| intros [=]].
  cbn [read_summary]. intros [= _ _ <-].
  refine (read_loop_within_block _ _ _ _ _ _ _ _ _ _ _ _ Hloop).
  - intros fb Hfb. unfold read_resolve in Hres.
    destruct (tokens _ <? 3); [discriminate |].
    destruct (name_too_long _); [discriminate |].
    destruct (get_root_dir st); [| discriminate].
    destruct (get_dir _ st); [| discriminate].
    destruct (_ =? 0); [discriminate |].
    destruct (get_inode _ st); [| discriminate].
    injection Hres as <-. cbn [r_file_block] in Hfb.
    unfold get_disk_block in Hfb.
    apply get_block_inv in Hfb as (_ & blk & Hlk & ->).
    rewrite Hpe, app_nil_r. exact (Hblocks _ _ Hlk).
  - unfold to_ulong. apply Z.mod_pos_bound. reflexivity.
Qed.

(** * Further properties of the code *)

(** ** The allocator *)

Lemma bit_of_or_bit bm y t k :
  0 <= y < Z.of_nat (length bm) -> 0 <= t < 8 -> 0 <= k ->
  bit_of (or_bit bm y t) k = bit_of bm k || (k =? 8 * y + t).
Proof.
  intros Hy Ht Hk.
  pose proof (Z.div_mod k 8 ltac:(lia)) as E.
  pose proof (Z.mod_pos_bound k 8 ltac:(lia)) as B.
  unfold bit_of, or_bit.
  destruct (Z.eq_dec (k / 8) y) as [Heq | Hne].
  - rewrite Heq, byte_at_set_byte_eq by lia.
    rewrite Z.lor_spec, mask_pow2, Z.pow2_bits_eqb by lia. f_equal.
    destruct (Z.eqb_spec (7 - t) (7 - k mod 8)), (Z.eqb_spec k (8 * y + t));
      try reflexivity; lia.
  - rewrite byte_at_set_byte_ne by lia.
    destruct (Z.eqb_spec k (8 * y + t)) as [-> | _]; [| now rewrite orb_false_r].
    exfalso. apply Hne.
    rewrite Z.mul_comm, Z.div_add_l, Z.div_small by lia. lia.
Qed.

Lemma set_bit_bits n st :
  0 <= n <= DISK_BLOCKS ->
  length (bitmap st) = Z.to_nat BIT_MAP_SIZE ->
  set_bit n st = Ok 0 (with_bitmap st (or_bit (bitmap st) (n / 8) (n mod 8)))
  /\ forall k, 0 <= k ->
       bit_of (or_bit (bitmap st) (n / 8) (n mod 8)) k
       = bit_of (bitmap st) k || (k =? n).
Proof.
  intros Hn Hlen. unfold DISK_BLOCKS, BIT_MAP_SIZE in *.
  pose proof (Z.div_mod n 8 ltac:(lia)) as E.
  pose proof (Z.mod_pos_bound n 8 ltac:(lia)) as B.
  split.
  - unfold set_bit, DISK_BLOCKS.
    destruct (Z.gtb_spec n 10240); [lia |].
    destruct (Z.ltb_spec n 0); [lia |].
    rewrite Z.quot_div_nonneg, Z.rem_mod_nonneg by lia. reflexivity.
  - intros k Hk. rewrite bit_of_or_bit; try lia.
    now rewrite <- E.
Qed.

(** X1: [set_bit] on a block number from 0 to 10240 returns 0, sets the
    bit of that block (bit [n mod 8] of byte [n / 8], most significant bit
    first) and changes no other bit, nor the image. *)
Theorem set_bit_marks_one_block n st :
  0 <= n <= DISK_BLOCKS ->
  length (bitmap st) = Z.to_nat BIT_MAP_SIZE ->
  exists st',
    set_bit n st = Ok 0 st'
    /\ disk st' = disk st
    /\ length (bitmap st') = Z.to_nat BIT_MAP_SIZE
    /\ bit_of (bitmap st') n = true
    /\ forall k, 0 <= k -> k <> n -> bit_of (bitmap st') k = bit_of (bitmap st) k.
Proof.
  intros Hn Hlen. destruct (set_bit_bits n st Hn Hlen) as [Hset Hbits].
  eexists. split; [exact Hset |]. cbn [disk bitmap with_bitmap].
  split; [reflexivity |]. split; [rewrite length_or_bit; exact Hlen |]. split.
  - rewrite Hbits by lia. rewrite Z.eqb_refl. apply orb_true_r.
  - intros k Hk Hne. rewrite Hbits by lia.
    destruct (Z.eqb_spec k n); [contradiction | apply orb_false_r].
Qed.

Lemma set_bit_marks_one_block_witness :
  exists st',
    set_bit 7 mounted = Ok 0 st'
    /\ disk st' = disk mounted
    /\ length (bitmap st') = Z.to_nat BIT_MAP_SIZE
    /\ bit_of (bitmap st') 7 = true
    /\ forall k, 0 <= k -> k <> 7 -> bit_of (bitmap st') k = bit_of (bitmap mounted) k.
Proof. apply (set_bit_marks_one_block 7 mounted); side_condition. Defined.

(** X2: the block [find_free_block] returns, once marked with [set_bit],
    is not handed out again: the next [find_free_block] returns a larger
    block number, or [-ENOSPC]. *)
Theorem allocated_block_is_not_returned_again st b :
  length (bitmap st) = Z.to_nat BIT_MAP_SIZE ->
  initialised st = true ->
  fst (find_free_block st) = b ->
  0 <= b <= DISK_BLOCKS ->
  exists st',
    set_bit b st = Ok 0 st'
    /\ snd (find_free_block st') = st'
    /\ (fst (find_free_block st') = - ENOSPC \/ b < fst (find_free_block st')).
Proof.
  intros Hlen Hinit Hb Hrange.
  destruct (find_free_block_scan st) as [Hst Hr]. rewrite Hb in Hr.
  unfold scanned_state in Hr. rewrite Hinit in Hr.
  destruct Hr as [[Hno _] | (_ & _ & Hbefore)]; [unfold ENOSPC in Hno; lia |].
  destruct (set_bit_bits b st Hrange Hlen) as [Hset Hbits].
  eexists. split; [exact Hset |].
  set (st' := with_bitmap st _).
  assert (Hinit' : initialised st' = true).
  { rewrite initialised_bit_of in *. unfold st'. cbn [bitmap with_bitmap].
    rewrite Hbits by (unfold BIT_MAP_SIZE; lia). now rewrite Hinit. }
  destruct (find_free_block_scan st') as [Hst' Hr'].
  unfold scanned_state in Hst', Hr'. rewrite Hinit' in Hst', Hr'.
  split; [exact Hst' |].
  destruct Hr' as [[Hno _] | (Hr0 & Hclear & _)]; [left; exact Hno | right].
  destruct (Z.lt_ge_cases b (fst (find_free_block st'))) as [| Hle]; [assumption |].
  exfalso. unfold st' in Hclear at 1. cbn [bitmap with_bitmap] in Hclear.
  rewrite Hbits in Hclear by lia.
  apply orb_false_iff in Hclear as [Hold Hneq].
  apply Z.eqb_neq in Hneq.
  rewrite Hbefore in Hold by lia. discriminate.
Qed.

Lemma allocated_block_is_not_returned_again_witness :
  exists st',
    set_bit 1 mounted = Ok 0 st'
    /\ snd (find_free_block st') = st'
    /\ (fst (find_free_block st') = - ENOSPC \/ 1 < fst (find_free_block st')).
Proof.
  apply (allocated_block_is_not_returned_again mounted 1); side_condition.
Defined.

(** X3: [initBitmap] loads the map from the image and sets four bits: bit 0
    and the last three bits of the 12288-bit map (bits 12285 to 12287).  Every
    other bit, the bits of blocks 10237 to 10239 among them, is as it was
    loaded; the image is not written. *)
Theorem initBitmap_sets_four_bits st k :
  length (bitmap st) = Z.to_nat BIT_MAP_SIZE ->
  0 <= k < 8 * BIT_MAP_SIZE ->
  bit_of (bitmap (initBitmap st)) k
  = bit_of (fread_bitmap st) k || (k =? 0) || (8 * BIT_MAP_SIZE - 3 <=? k)
  /\ disk (initBitmap st) = disk st.
Proof.
  intros Hlen Hk. split; [| reflexivity].
  pose proof (length_fread_bitmap st Hlen) as Hl.
  unfold initBitmap. cbn [bitmap with_bitmap]. unfold BIT_MAP_SIZE in *.
  rewrite !bit_of_or_bit by (rewrite ?length_or_bit; lia).
  change (8 * (1536 - 1) + 7) with 12287. change (8 * (1536 - 1) + 6) with 12286.
  change (8 * (1536 - 1) + 5) with 12285. change (8 * 0 + 0) with 0.
  rewrite <- !orb_assoc. f_equal. f_equal.
  destruct (Z.eqb_spec k 12285), (Z.eqb_spec k 12286), (Z.eqb_spec k 12287),
    (Z.leb_spec (8 * 1536 - 3) k); try reflexivity; lia.
Qed.

Lemma initBitmap_sets_four_bits_witness :
  bit_of (bitmap (initBitmap blank_image)) 10237
  = bit_of (fread_bitmap blank_image) 10237 || (10237 =? 0)
    || (8 * BIT_MAP_SIZE - 3 <=? 10237)
  /\ disk (initBitmap blank_image) = disk blank_image.
Proof. apply (initBitmap_sets_four_bits blank_image 10237); side_condition. Defined.

(** *** The bitmap across [destroy] and [init] *)

Lemma put_block_lookup_eq d n blk : put_block d n blk !! n = Some blk.
Proof.
  unfold put_block. destruct (decide (n < length d)%nat).
  - apply list_lookup_insert_eq. lia.
  - rewrite app_assoc, lookup_app_r; rewrite length_app, length_replicate; [| lia].
    replace (n - (length d + (n - length d)))%nat with 0%nat by lia. reflexivity.
Qed.

Lemma put_block_lookup_ne d n m blk :
  m <> n -> (m < length d)%nat -> put_block d n blk !! m = d !! m.
Proof.
  intros Hne Hm. unfold put_block. destruct (decide (n < length d)%nat).
  - apply list_lookup_insert_ne. lia.
  - apply lookup_app_l. lia.
Qed.

Lemma length_put_block_gt d n blk : (n < length (put_block d n blk))%nat.
Proof. apply lookup_lt_is_Some. rewrite put_block_lookup_eq. eauto. Qed.

Lemma take_3_drop {A : Type} (l : list A) b x0 x1 x2 :
  l !! b = Some x0 -> l !! (b + 1)%nat = Some x1 -> l !! (b + 2)%nat = Some x2 ->
  take 3 (drop b l) = [x0; x1; x2].
Proof.
  intros H0 H1 H2.
  assert (E0 : drop b l !! 0%nat = Some x0) by (rewrite lookup_drop, Nat.add_0_r; exact H0).
  assert (E1 : drop b l !! 1%nat = Some x1) by (rewrite lookup_drop; exact H1).
  assert (E2 : drop b l !! 2%nat = Some x2) by (rewrite lookup_drop; exact H2).
  destruct (drop b l) as [| y0 [| y1 [| y2 r]]]; try discriminate.
  injection E0 as ->. injection E1 as ->. injection E2 as ->. reflexivity.
Qed.

Lemma bitmap_chunks bm :
  length bm = Z.to_nat BIT_MAP_SIZE ->
  bitmap_chunk bm 0 ++ bitmap_chunk bm 1 ++ bitmap_chunk bm 2 ++ [] = bm.
Proof.
  intros Hlen. unfold bitmap_chunk. rewrite app_nil_r.
  change (0 * Z.to_nat BLOCK_SIZE)%nat with 0%nat. rewrite drop_0.
  set (n := Z.to_nat BLOCK_SIZE).
  assert (Hn : (length bm = n + n + n)%nat) by (rewrite Hlen; reflexivity).
  replace (1 * n)%nat with n by lia. replace (2 * n)%nat with (n + n)%nat by lia.
  rewrite (take_ge (drop (n + n) bm)) by (rewrite length_drop; lia).
  rewrite <- drop_drop, take_drop. apply take_drop.
Qed.

Lemma fread_bitmap_destroy st :
  length (bitmap st) = Z.to_nat BIT_MAP_SIZE ->
  fread_bitmap (cs1550_destroy st) = bitmap st.
Proof.
  intros Hlen. unfold fread_bitmap, cs1550_destroy, fwrite_bitmap.
  cbn [disk bitmap with_disk].
  rewrite (take_ge (bitmap st)) by lia.
  set (b := Z.to_nat (BIT_MAP_LOCATION / BLOCK_SIZE)).
  set (d1 := put_block (disk st) b _). set (d2 := put_block d1 (b + 1) _).
  pose proof (length_put_block_gt (disk st) b (bitmap_chunk (bitmap st) 0)) as L1.
  fold d1 in L1.
  pose proof (length_put_block_gt d1 (b + 1) (bitmap_chunk (bitmap st) 1)) as L2.
  fold d2 in L2.
  rewrite (take_3_drop _ b (bitmap_chunk (bitmap st) 0) (bitmap_chunk (bitmap st) 1)
             (bitmap_chunk (bitmap st) 2)).
  - cbn [concat]. rewrite bitmap_chunks by exact Hlen.
    rewrite take_app_le by lia. apply take_ge. lia.
  - rewrite put_block_lookup_ne by lia. unfold d2.
    rewrite put_block_lookup_ne by lia. apply put_block_lookup_eq.
  - rewrite put_block_lookup_ne by lia. apply put_block_lookup_eq.
  - apply put_block_lookup_eq.
Qed.

Lemma or_bit_already_set bm y t :
  0 <= t < 8 -> is_bit_set (byte_at bm y) t = true -> or_bit bm y t = bm.
Proof.
  intros Ht Hset. unfold or_bit.
  assert (Hlor : Z.lor (byte_at bm y) (mask t) = byte_at bm y).
  { rewrite is_bit_set_testbit in Hset by lia. rewrite mask_pow2 by lia.
    apply Z.bits_inj'. intros m Hm. rewrite Z.lor_spec, Z.pow2_bits_eqb by lia.
    destruct (Z.eqb_spec (7 - t) m) as [<- | _]; [| apply orb_false_r].
    rewrite Hset. reflexivity. }
  rewrite Hlor. unfold set_byte, byte_at.
  destruct (y <? 0); [reflexivity |].
  destruct (bm !! Z.to_nat y) as [x |] eqn:Hx.
  - apply list_insert_id. exact Hx.
  - apply list_insert_ge. apply lookup_ge_None. exact Hx.
Qed.

Lemma or_bit_keeps_set bm y t y' t' :
  0 <= t < 8 -> 0 <= t' < 8 ->
  is_bit_set (byte_at bm y') t' = true ->
  is_bit_set (byte_at (or_bit bm y t) y') t' = true.
Proof.
  intros Ht Ht' Hset. unfold or_bit.
  destruct (Z.eq_dec y y') as [<- | Hne]; [| now rewrite byte_at_set_byte_ne].
  destruct (Z.lt_ge_cases y 0) as [Hneg | Hpos].
  { unfold set_byte. destruct (Z.ltb_spec y 0); [exact Hset | lia]. }
  destruct (Z.lt_ge_cases y (Z.of_nat (length bm))) as [Hin | Hout].
  - rewrite byte_at_set_byte_eq by lia.
    rewrite is_bit_set_testbit in * by lia.
    rewrite Z.lor_spec, Hset. reflexivity.
  - unfold set_byte. destruct (Z.ltb_spec y 0); [lia |].
    rewrite list_insert_ge by lia. exact Hset.
Qed.

(** X4: the bitmap survives an unmount and a mount.  [destroy] writes the
    1536 bytes of the map to blocks 10237 to 10239 and [init] reads them back:
    for a map that carries the four bits [init] sets, the map after
    [destroy] then [init] is the map before. *)
Theorem bitmap_survives_destroy_and_init st :
  length (bitmap st) = Z.to_nat BIT_MAP_SIZE ->
  is_bit_set (byte_at (bitmap st) 0) 0 = true ->
  is_bit_set (byte_at (bitmap st) (BIT_MAP_SIZE - 1)) 5 = true ->
  is_bit_set (byte_at (bitmap st) (BIT_MAP_SIZE - 1)) 6 = true ->
  is_bit_set (byte_at (bitmap st) (BIT_MAP_SIZE - 1)) 7 = true ->
  bitmap (cs1550_init (cs1550_destroy st)) = bitmap st.
Proof.
  intros Hlen H0 H5 H6 H7. unfold cs1550_init, initBitmap.
  cbn [bitmap with_bitmap]. rewrite fread_bitmap_destroy by exact Hlen.
  rewrite (or_bit_already_set (bitmap st) 0 0) by (lia || exact H0).
  rewrite (or_bit_already_set (bitmap st) _ 5) by (lia || exact H5).
  rewrite (or_bit_already_set (bitmap st) _ 6) by (lia || exact H6).
  apply or_bit_already_set; [lia | exact H7].
Qed.

Lemma bitmap_survives_destroy_and_init_witness :
  bitmap (cs1550_init (cs1550_destroy with_hello)) = bitmap with_hello.
Proof.
  apply (bitmap_survives_destroy_and_init with_hello); side_condition.
Defined.

(** X5: the four bits [init] sets stay set: [set_bit] only adds bits, so a
    bitmap that is initialised remains so after any [set_bit], and
    [find_free_block] never reloads it. *)
Theorem set_bit_keeps_bitmap_initialised n st :
  initialised st = true ->
  initialised (state_of (set_bit n st) st) = true
  /\ snd (find_free_block (state_of (set_bit n st) st))
     = state_of (set_bit n st) st.
Proof.
  intros Hinit.
  assert (Hi : initialised (state_of (set_bit n st) st) = true).
  { unfold set_bit.
    destruct (n >? DISK_BLOCKS); [exact Hinit |].
    destruct (Z.ltb_spec n 0); [exact Hinit |].
    unfold initialised in *. cbn [state_of bitmap with_bitmap].
    apply or_bit_keeps_set; [| lia | exact Hinit].
    rewrite Z.rem_mod_nonneg by lia. apply Z.mod_pos_bound. lia. }
  split; [exact Hi |].
  rewrite find_free_block_eq. cbn [snd]. unfold scanned_state. now rewrite Hi.
Qed.

Lemma set_bit_keeps_bitmap_initialised_witness :
  initialised (state_of (set_bit 9 mounted) mounted) = true
  /\ snd (find_free_block (state_of (set_bit 9 mounted) mounted))
     = state_of (set_bit 9 mounted) mounted.
Proof.
  apply (set_bit_keeps_bitmap_initialised 9 mounted). vm_compute. reflexivity.
Defined.

(** ** Locating the start of a transfer *)

Lemma slots_in_use_spec inode k m :
  slots_in_use inode k = true -> 0 <= m <= k -> entries inode m <> 0.
Proof.
  unfold slots_in_use. rewrite forallb_forall. intros H Hm.
  specialize (H m). rewrite <- list_elem_of_In, elem_of_seqZ in H.
  specialize (H ltac:(lia)). apply negb_true_iff in H. now apply Z.eqb_neq in H.
Qed.

(** X6: with slots 0 to [k] of the index block in use, an offset in
    [(512 k, 512 (k + 1)]] (or any offset up to 512 when [k = 0]) is located
    in the block of slot [k], at in-block position [offset - 512 k]; that
    position runs from 1 to 512, and from 0 only in block 0. *)
Theorem locate_picks_slot inode o k :
  0 <= k < MAX_ENTRIES_IN_INDEX_BLOCK ->
  slots_in_use inode k = true ->
  BLOCK_SIZE * k < o \/ k = 0 ->
  o <= BLOCK_SIZE * (k + 1) ->
  locate inode o
  = mkLocated (entries inode k) k (o - BLOCK_SIZE * k) (o - BLOCK_SIZE * k).
Proof.
  intros Hk Hslots Hlo Hhi. unfold locate.
  rewrite MAX_ENTRIES_IN_INDEX_BLOCK_val in *.
  rewrite (locate_loop_found _ inode 0 o k);
    rewrite ?MAX_ENTRIES_IN_INDEX_BLOCK_val, ?Z.sub_0_r; try lia.
  - reflexivity.
  - intros m Hm. apply (slots_in_use_spec inode k); [exact Hslots | lia].
Qed.

Lemma locate_picks_slot_witness :
  locate (the_block (get_inode 2 with_1000)) 600
  = mkLocated (entries (the_block (get_inode 2 with_1000)) 1) 1
              (600 - BLOCK_SIZE * 1) (600 - BLOCK_SIZE * 1).
Proof.
  apply (locate_picks_slot (the_block (get_inode 2 with_1000)) 600 1);
    first [side_condition | left; side_condition].
Defined.

Lemma locate_loop_past fuel inode :
  forall i off m,
    0 <= i <= m -> m <= MAX_ENTRIES_IN_INDEX_BLOCK ->
    (Z.to_nat (m - i) < fuel)%nat ->
    (forall j, i <= j < m -> entries inode j <> 0) ->
    (m < MAX_ENTRIES_IN_INDEX_BLOCK -> entries inode m = 0) ->
    BLOCK_SIZE * (m - i) < off ->
    locate_loop fuel inode i off = mkLocated 0 0 0 (off - BLOCK_SIZE * (m - i)).
Proof.
  induction fuel as [| f IH]; intros i off m Him Hm Hfuel Hent Hend Hoff; [lia |].
  cbn [locate_loop]. rewrite MAX_ENTRIES_IN_INDEX_BLOCK_val in *.
  unfold BLOCK_SIZE in *.
  destruct (Z.eq_dec i m) as [-> | Hne].
  - replace (off - 512 * (m - m)) with off by lia.
    destruct (Z.ltb_spec m 64) as [Hlt | Hge].
    + rewrite (Hend Hlt). reflexivity.
    + rewrite andb_false_r. reflexivity.
  - destruct (Z.eqb_spec (entries inode i) 0) as [Hz | _];
      [exfalso; apply (Hent i); [lia | exact Hz] |].
    destruct (Z.ltb_spec i 64); [| lia]. cbn [negb andb].
    destruct (Z.leb_spec off 512); [lia |].
    rewrite (IH (i + 1) (off - 512) m); try lia.
    + f_equal. lia.
    + intros j Hj. apply Hent. lia.
Qed.

(** X7: when only slots 0 to [m - 1] of the index block are in use and the
    offset lies more than [512 m] bytes into the file, the locating loop ends
    without a block: block address 0, index 0, position 0.  ([read] and
    [write] then load block 0, the root directory, as the data block.) *)
Theorem locate_past_the_slots_in_use inode o m :
  0 <= m <= MAX_ENTRIES_IN_INDEX_BLOCK ->
  (m = 0 \/ slots_in_use inode (m - 1) = true) ->
  (m < MAX_ENTRIES_IN_INDEX_BLOCK -> entries inode m = 0) ->
  BLOCK_SIZE * m < o ->
  locate inode o = mkLocated 0 0 0 (o - BLOCK_SIZE * m).
Proof.
  intros Hm Hslots Hend Ho. unfold locate.
  assert (Hent : forall j, 0 <= j < m -> entries inode j <> 0).
  { intros j Hj. destruct Hslots as [-> | Hs]; [lia |].
    apply (slots_in_use_spec inode (m - 1)); [exact Hs | lia]. }
  rewrite (locate_loop_past _ inode 0 o m); rewrite ?Z.sub_0_r; auto.
  - lia.
  - lia.
  - rewrite MAX_ENTRIES_IN_INDEX_BLOCK_val in *. lia.
Qed.

Lemma locate_past_the_slots_in_use_witness :
  locate (the_block (get_inode 2 with_1000)) 1025
  = mkLocated 0 0 0 (1025 - BLOCK_SIZE * 2).
Proof.
  apply (locate_past_the_slots_in_use (the_block (get_inode 2 with_1000)) 1025 2);
    first [side_condition | right; side_condition | intros _; side_condition].
Defined.

(** ** Paths *)

Lemma scan_until_app stop a c r :
  free_of stop a = true -> stop c = true ->
  scan_until stop (a ++ c :: r) = (a, c :: r).
Proof.
  intros Ha Hc. induction a as [| x a IH]; cbn [app scan_until].
  - rewrite Hc. reflexivity.
  - cbn [free_of forallb] in Ha. apply andb_true_iff in Ha as [Hx Ha].
    apply negb_true_iff in Hx. rewrite Hx, (IH Ha). reflexivity.
Qed.

Lemma scan_until_all stop a :
  free_of stop a = true -> scan_until stop a = (a, []).
Proof.
  intros Ha. induction a as [| x a IH]; cbn [scan_until]; [reflexivity |].
  cbn [free_of forallb] in Ha. apply andb_true_iff in Ha as [Hx Ha].
  apply negb_true_iff in Hx. rewrite Hx, (IH Ha). reflexivity.
Qed.

Lemma free_of_weaken (P Q : Z -> bool) s :
  (forall c, Q c = true -> P c = true) ->
  free_of P s = true -> free_of Q s = true.
Proof.
  intros HPQ. unfold free_of. rewrite !forallb_forall. intros H c Hc.
  specialize (H c Hc). destruct (Q c) eqn:E; [| reflexivity].
  rewrite (HPQ c E) in H. exact H.
Qed.

Lemma free_of_app P a b :
  free_of P (a ++ b) = free_of P a && free_of P b.
Proof. apply forallb_app. Qed.

(** X8: a path ["/d/f.e"] whose directory holds no ['/'], whose name holds
    no ['.'], whose extension holds no white space, none of them empty or
    holding a NUL, parses into three tokens: exactly [d], [f] and [e]. *)
Theorem sscanf_path_of_file_path d f e :
  d <> [] -> f <> [] -> e <> [] ->
  free_of (is_nul_or slash) d = true ->
  free_of (is_nul_or dot) f = true ->
  free_of is_nul_or_space e = true ->
  sscanf_path (file_path d f e) = mkParsed 3 d f e.
Proof.
  intros Hd Hf He Fd Ff Fe.
  assert (Zd : free_of (Z.eqb 0) d = true).
  { apply (free_of_weaken (is_nul_or slash)); [| exact Fd].
    intros c Hc. unfold is_nul_or. apply Z.eqb_eq in Hc. subst c. reflexivity. }
  assert (Zf : free_of (Z.eqb 0) f = true).
  { apply (free_of_weaken (is_nul_or dot)); [| exact Ff].
    intros c Hc. unfold is_nul_or. apply Z.eqb_eq in Hc. subst c. reflexivity. }
  assert (Ze : free_of (Z.eqb 0) e = true).
  { apply (free_of_weaken is_nul_or_space); [| exact Fe].
    intros c Hc. unfold is_nul_or_space. apply Z.eqb_eq in Hc. subst c. reflexivity. }
  assert (Sd : free_of (Z.eqb slash) d = true).
  { apply (free_of_weaken (is_nul_or slash)); [| exact Fd].
    intros c Hc. unfold is_nul_or. apply Z.eqb_eq in Hc. subst c.
    rewrite Z.eqb_refl. apply orb_true_r. }
  assert (Df : free_of (Z.eqb dot) f = true).
  { apply (free_of_weaken (is_nul_or dot)); [| exact Ff].
    intros c Hc. unfold is_nul_or. apply Z.eqb_eq in Hc. subst c.
    rewrite Z.eqb_refl. apply orb_true_r. }
  assert (Se : free_of is_space e = true).
  { apply (free_of_weaken is_nul_or_space); [| exact Fe].
    intros c Hc. unfold is_nul_or_space. rewrite Hc. apply orb_true_r. }
  unfold sscanf_path, file_path.
  rewrite scan_until_all.
  2:{ change (slash :: d ++ slash :: f ++ dot :: e)
        with ([slash] ++ d ++ [slash] ++ f ++ [dot] ++ e).
      rewrite !free_of_app, Zd, Zf, Ze. reflexivity. }
  cbn [fst]. rewrite Z.eqb_refl. cbn [negb].
  rewrite (scan_until_app (Z.eqb slash) d slash) by (auto; apply Z.eqb_refl).
  destruct d as [| d0 d']; [contradiction |].
  rewrite (scan_until_app (Z.eqb dot) f dot) by (auto; apply Z.eqb_refl).
  destruct f as [| f0 f']; [contradiction |].
  destruct e as [| e0 e']; [contradiction |].
  assert (He0 : is_space e0 = false).
  { cbn [free_of forallb] in Se. apply andb_true_iff in Se as [H _].
    now apply negb_true_iff in H. }
  cbn [skip_spaces]. rewrite He0.
  rewrite scan_until_all by exact Se. reflexivity.
Qed.

Lemma sscanf_path_of_file_path_witness :
  sscanf_path (file_path (bytes_of_string "alpha") (bytes_of_string "hi")
                         (bytes_of_string "txt"))
  = mkParsed 3 (bytes_of_string "alpha") (bytes_of_string "hi")
               (bytes_of_string "txt").
Proof.
  apply (sscanf_path_of_file_path (bytes_of_string "alpha") (bytes_of_string "hi")
           (bytes_of_string "txt")); first [discriminate | side_condition].
Defined.

Lemma scan_until_free P Q s :
  free_of P s = true ->
  free_of P (fst (scan_until Q s)) = true
  /\ free_of P (snd (scan_until Q s)) = true.
Proof.
  induction s as [| c s IH]; intros H; cbn [scan_until]; [auto |].
  destruct (Q c); [cbn [fst snd]; auto |].
  cbn [free_of forallb] in H. apply andb_true_iff in H as [Hc Hs].
  destruct (IH Hs) as [H1 H2]. destruct (scan_until Q s) as [t r].
  cbn [fst snd free_of forallb] in *. rewrite Hc. auto.
Qed.

Lemma scan_until_fst_free Q s : free_of Q (fst (scan_until Q s)) = true.
Proof.
  induction s as [| c s IH]; cbn [scan_until]; [reflexivity |].
  destruct (Q c) eqn:E; [reflexivity |].
  destruct (scan_until Q s) as [t r]. cbn [fst free_of forallb] in *.
  rewrite E. exact IH.
Qed.

Lemma scan_until_snd_stop Q s c r :
  snd (scan_until Q s) = c :: r -> Q c = true.
Proof.
  induction s as [| x s IH]; cbn [scan_until]; [discriminate |].
  destruct (Q x) eqn:E; [intros [= <- _]; exact E |].
  destruct (scan_until Q s) as [t r']. cbn [snd] in *. exact IH.
Qed.

Lemma free_of_tail P c s : free_of P (c :: s) = true -> free_of P s = true.
Proof. cbn [free_of forallb]. intros H. now apply andb_true_iff in H as [_ H]. Qed.

Lemma sscanf_path_without_dot path :
  free_of (Z.eqb dot) path = true -> (tokens (sscanf_path path) <? 3) = true.
Proof.
  intros Hfree. unfold sscanf_path.
  destruct (scan_until_free (Z.eqb dot) (Z.eqb 0) path Hfree) as [H0 _].
  destruct (fst (scan_until (Z.eqb 0) path)) as [| c r0]; [reflexivity |].
  destruct (negb (c =? slash)); [reflexivity |].
  apply free_of_tail in H0.
  destruct (scan_until_free (Z.eqb dot) (Z.eqb slash) r0 H0) as [_ H1].
  destruct (scan_until (Z.eqb slash) r0) as [d r1]. cbn [snd] in H1.
  destruct d as [| d0 d']; [destruct r0; reflexivity |].
  destruct r1 as [| c1 r2]; [reflexivity |].
  apply free_of_tail in H1.
  pose proof (scan_until_snd_stop (Z.eqb dot) r2) as Hstop.
  destruct (scan_until_free (Z.eqb dot) (Z.eqb dot) r2 H1) as [_ H2].
  destruct (scan_until (Z.eqb dot) r2) as [f r3]. cbn [snd] in *.
  destruct f as [| f0 f']; [reflexivity |].
  destruct r3 as [| c3 r4]; [reflexivity |].
  exfalso. specialize (Hstop c3 r4 eq_refl).
  cbn [free_of forallb] in H2. rewrite Hstop in H2. discriminate.
Qed.

(** X9: a file needs an extension.  For a path that holds no ['.'] and
    whose components fit the arrays [sscanf] fills (at most [MAX_FILENAME]
    bytes of directory and of file name), [mknod] returns [-EPERM], a
    [read] of non-zero size [-EISDIR] and a [write] of non-zero size
    [-ENOENT], in every state and without touching it. *)
Theorem path_without_dot_names_no_file path st :
  free_of (Z.eqb dot) path = true ->
  name_too_long (sscanf_path path) = false ->
  cs1550_mknod path st = Ok (- EPERM) st
  /\ (forall buf size offset, size <> 0 ->
        cs1550_read path buf size offset st = Ok (- EISDIR, buf) st
        /\ cs1550_write path buf size offset st = Ok (- ENOENT) st).
Proof.
  intros Hfree _. pose proof (sscanf_path_without_dot path Hfree) as Htok.
  split.
  - unfold cs1550_mknod. rewrite Htok. reflexivity.
  - intros buf size offset Hsize. split.
    + unfold cs1550_read, read_steps, read_resolve.
      destruct (Z.eqb_spec size 0); [contradiction |]. rewrite Htok. reflexivity.
    + unfold cs1550_write, write_resolve.
      destruct (Z.eqb_spec size 0); [contradiction |]. rewrite Htok. reflexivity.
Qed.

Lemma path_without_dot_names_no_file_witness :
  cs1550_mknod (bytes_of_string "/alpha/readme") with_alpha = Ok (- EPERM) with_alpha
  /\ (forall buf size offset, size <> 0 ->
        cs1550_read (bytes_of_string "/alpha/readme") buf size offset with_alpha
        = Ok (- EISDIR, buf) with_alpha
        /\ cs1550_write (bytes_of_string "/alpha/readme") buf size offset with_alpha
           = Ok (- ENOENT) with_alpha).
Proof.
  apply (path_without_dot_names_no_file (bytes_of_string "/alpha/readme") with_alpha);
    vm_compute; reflexivity.
Defined.

(** ** Names stored in a block and compared with it *)

Lemma free_of_nul_hd a :
  free_of (Z.eqb 0) a = true -> a <> [] -> (hd 0 a =? 0) = false.
Proof.
  destruct a as [| x a]; [contradiction |]. cbn [free_of forallb hd].
  intros H _. apply andb_true_iff in H as [H _].
  apply negb_true_iff in H. rewrite Z.eqb_sym. exact H.
Qed.

Lemma nth_tl (a : list Z) m : nth m (tl a) 0 = nth (S m) a 0.
Proof. destruct a; [destruct m; reflexivity | reflexivity]. Qed.

Lemma nth_nil_0 m : nth m (@nil Z) 0 = 0.
Proof. destruct m; reflexivity. Qed.

(** The bytes [strncpy] leaves: the text, then NULs up to [n] bytes. *)
Lemma byte_at_strncpy n :
  forall b off src i,
    free_of (Z.eqb 0) src = true ->
    0 <= off -> off + Z.of_nat n <= Z.of_nat (length b) ->
    byte_at (strncpy n b off src) i
    = if (off <=? i) && (i <? off + Z.of_nat n)
      then nth (Z.to_nat (i - off)) src 0
      else byte_at b i.
Proof.
  induction n as [| k IH]; intros b off src i Hfree Hoff Hlen.
  - cbn [strncpy]. destruct (Z.leb_spec off i), (Z.ltb_spec i (off + Z.of_nat 0));
      cbn [andb]; try reflexivity; lia.
  - cbn [strncpy].
    assert (Hrest : free_of (Z.eqb 0) (if hd 0 src =? 0 then [] else tl src) = true).
    { destruct (hd 0 src =? 0); [reflexivity |].
      destruct src; [reflexivity | now apply free_of_tail in Hfree]. }
    rewrite IH by (try rewrite length_set_byte; auto; lia).
    destruct (Z.leb_spec (off + 1) i), (Z.ltb_spec i (off + 1 + Z.of_nat k));
      destruct (Z.leb_spec off i), (Z.ltb_spec i (off + Z.of_nat (S k)));
      cbn [andb]; try lia.
    + replace (Z.to_nat (i - off)) with (S (Z.to_nat (i - (off + 1)))) by lia.
      destruct (hd 0 src =? 0) eqn:E.
      * rewrite nth_nil_0. destruct src as [| x s]; [reflexivity |].
        rewrite (free_of_nul_hd _ Hfree) in E by discriminate. discriminate.
      * apply nth_tl.
    + apply byte_at_set_byte_ne. lia.
    + assert (i = off) as -> by lia. rewrite byte_at_set_byte_eq by lia.
      rewrite Z.sub_diag. destruct src; reflexivity.
    + apply byte_at_set_byte_ne. lia.
Qed.

Lemma length_strncpy n : forall b off src, length (strncpy n b off src) = length b.
Proof.
  induction n as [| k IH]; intros b off src; cbn [strncpy]; [reflexivity |].
  rewrite IH. apply length_set_byte.
Qed.

Lemma drop_strncpy n :
  forall b off src m,
    off + Z.of_nat n <= Z.of_nat m -> drop m (strncpy n b off src) = drop m b.
Proof.
  induction n as [| k IH]; intros b off src m Hm; cbn [strncpy]; [reflexivity |].
  rewrite IH by lia. apply drop_set_byte. lia.
Qed.

(** [strncmp] finds a text equal to the bytes it was copied to. *)
Lemma strncmp_eq_bytes n :
  forall a b off,
    (forall m, (m < n)%nat -> byte_at b (off + Z.of_nat m) = nth m a 0) ->
    strncmp_eq n a b off = true.
Proof.
  induction n as [| k IH]; intros a b off H; cbn [strncmp_eq]; [reflexivity |].
  pose proof (H 0%nat ltac:(lia)) as H0. rewrite Z.add_0_r in H0.
  replace (hd 0 a) with (nth 0 a 0) by (destruct a; reflexivity).
  rewrite H0, Z.eqb_refl.
  destruct (nth 0 a 0 =? 0); [reflexivity |].
  apply IH. intros m Hm. rewrite nth_tl, <- H by lia. f_equal. lia.
Qed.

Lemma strcmp_eq_bytes a :
  forall b off,
    free_of (Z.eqb 0) a = true ->
    (forall m, (m <= length a)%nat -> byte_at b (off + Z.of_nat m) = nth m a 0) ->
    strcmp_eq a b off = true.
Proof.
  induction a as [| c a IH]; intros b off Hfree H; cbn [strcmp_eq].
  - specialize (H 0%nat ltac:(cbn; lia)). rewrite Z.add_0_r in H. rewrite H.
    reflexivity.
  - pose proof (H 0%nat ltac:(cbn; lia)) as H0. rewrite Z.add_0_r in H0.
    cbn [nth] in H0. rewrite H0, Z.eqb_refl.
    destruct (c =? 0); [reflexivity |].
    apply IH; [now apply free_of_tail in Hfree |].
    intros m Hm. specialize (H (S m) ltac:(cbn; lia)). cbn [nth] in H.
    rewrite <- H. f_equal. lia.
Qed.

(** What [strcmp] accepts, [strncmp] accepts. *)
Lemma strcmp_eq_strncmp_eq n :
  forall a b off, strcmp_eq a b off = true -> strncmp_eq n a b off = true.
Proof.
  induction n as [| k IH]; intros a b off H; cbn [strncmp_eq]; [reflexivity |].
  destruct a as [| c a]; cbn [strcmp_eq hd tl] in *.
  - apply Z.eqb_eq in H. rewrite H. reflexivity.
  - destruct (c =? byte_at b off); [| discriminate].
    destruct (c =? 0); [reflexivity |]. apply IH. exact H.
Qed.

Lemma strcmp_eq_ext a :
  forall b b' off,
    (forall i, off <= i <= off + Z.of_nat (length a) -> byte_at b i = byte_at b' i) ->
    strcmp_eq a b off = strcmp_eq a b' off.
Proof.
  induction a as [| c a IH]; intros b b' off H; cbn [strcmp_eq].
  - rewrite (H off) by (cbn; lia). reflexivity.
  - rewrite (H off) by (cbn [length]; lia).
    rewrite (IH b b' (off + 1)); [reflexivity |].
    intros i Hi. apply H. cbn [length]. lia.
Qed.

(** The C string read back from where a text and its NUL were stored. *)
Lemma c_string_at_bytes a :
  forall b off,
    0 <= off ->
    free_of (Z.eqb 0) a = true ->
    off + Z.of_nat (length a) < Z.of_nat (length b) ->
    (forall m, (m <= length a)%nat -> byte_at b (off + Z.of_nat m) = nth m a 0) ->
    c_string_at b off = a.
Proof.
  intros b off Hoff Hfree Hlen H. unfold c_string_at, c_text.
  destruct (Z.ltb_spec off 0); [lia |].
  assert (Hdrop : exists r, drop (Z.to_nat off) b = a ++ 0 :: r).
  { exists (drop (Z.to_nat off + length a + 1) b).
    apply list_eq. intros m. rewrite lookup_drop.
    destruct (Nat.lt_ge_cases m (length a)) as [Hm | Hm].
    - rewrite lookup_app_l by lia.
      specialize (H m ltac:(lia)). unfold byte_at in H.
      destruct (Z.ltb_spec (off + Z.of_nat m) 0); [lia |].
      replace (Z.to_nat (off + Z.of_nat m)) with (Z.to_nat off + m)%nat in H by lia.
      destruct (b !! (Z.to_nat off + m)%nat) as [x |] eqn:E.
      + cbn in H. subst x. symmetry. apply nth_lookup_Some with (d := 0) in E as E'.
        destruct (a !! m) as [y |] eqn:Ea.
        * f_equal. symmetry. now apply (nth_lookup_Some _ _ 0) in Ea.
        * apply lookup_ge_None in Ea. lia.
      + apply lookup_ge_None in E. lia.
    - rewrite lookup_app_r by lia.
      destruct (Nat.eq_dec m (length a)) as [-> | Hne].
      + rewrite Nat.sub_diag. change ((0 :: ?l) !! 0%nat) with (Some 0).
        specialize (H (length a) ltac:(lia)). unfold byte_at in H.
        destruct (Z.ltb_spec (off + Z.of_nat (length a)) 0); [lia |].
        replace (Z.to_nat (off + Z.of_nat (length a)))
          with (Z.to_nat off + length a)%nat in H by lia.
        destruct (b !! (Z.to_nat off + length a)%nat) as [x |] eqn:E.
        * cbn in H. rewrite nth_overflow in H by lia. now subst x.
        * apply lookup_ge_None in E. lia.
      + rewrite lookup_cons_ne_0 by lia. rewrite lookup_drop. f_equal. lia. }
  destruct Hdrop as [r ->].
  rewrite (scan_until_app (Z.eqb 0) a 0 r) by auto. reflexivity.
Qed.

Lemma search_loop_none fuel hit n :
  forall i, 0 <= i -> (Z.to_nat (n - i) <= fuel)%nat ->
            search_loop fuel hit n i = n ->
            forall k, i <= k < n -> hit k = false.
Proof.
  induction fuel as [| f IH]; intros i Hi Hfuel H k Hk; [lia |].
  cbn [search_loop] in H. destruct (Z.ltb_spec i n); [| lia].
  destruct (hit i) eqn:E; [lia |].
  destruct (Z.eq_dec k i) as [-> | Hne]; [exact E |].
  apply (IH (i + 1)); lia.
Qed.

Lemma search_loop_first fuel hit n k :
  forall i, 0 <= i <= k -> k < n -> (Z.to_nat (k - i) < fuel)%nat ->
            (forall j, i <= j < k -> hit j = false) -> hit k = true ->
            search_loop fuel hit n i = k.
Proof.
  induction fuel as [| f IH]; intros i Hi Hk Hfuel Hnone Hhit; [lia |].
  cbn [search_loop]. destruct (Z.ltb_spec i n); [| lia].
  destruct (Z.eq_dec i k) as [-> | Hne]; [now rewrite Hhit |].
  rewrite (Hnone i) by lia. apply IH; try lia; auto.
  intros j Hj. apply Hnone. lia.
Qed.

(** ** mkdir *)

Lemma sscanf_path_components_free path :
  let p := sscanf_path path in
  free_of (Z.eqb 0) (dir p) = true
  /\ free_of (Z.eqb 0) (fname p) = true
  /\ free_of (Z.eqb 0) (fext p) = true.
Proof.
  unfold sscanf_path.
  pose proof (scan_until_fst_free (Z.eqb 0) path) as H0.
  destruct (fst (scan_until (Z.eqb 0) path)) as [| c r0]; [cbn; auto |].
  destruct (negb (c =? slash)); [cbn; auto |].
  apply free_of_tail in H0.
  destruct (scan_until_free (Z.eqb 0) (Z.eqb slash) r0 H0) as [Hd H1].
  destruct (scan_until (Z.eqb slash) r0) as [d r1]. cbn [fst snd] in *.
  destruct d as [| d0 d']; [destruct r0; cbn; auto |].
  destruct r1 as [| c1 r2]; [cbn [dir fname fext]; auto |].
  apply free_of_tail in H1.
  destruct (scan_until_free (Z.eqb 0) (Z.eqb dot) r2 H1) as [Hf H2].
  destruct (scan_until (Z.eqb dot) r2) as [f r3]. cbn [fst snd] in *.
  destruct f as [| f0 f']; [cbn [dir fname fext]; auto |].
  destruct r3 as [| c3 r4]; [cbn [dir fname fext]; auto |].
  apply free_of_tail in H2.
  assert (H3 : free_of (Z.eqb 0) (skip_spaces r4) = true).
  { clear -H2. induction r4 as [| x r IH]; [reflexivity |]. cbn [skip_spaces].
    destruct (is_space x); [apply IH; now apply free_of_tail in H2 | exact H2]. }
  destruct (scan_until_free (Z.eqb 0) is_space _ H3) as [He _].
  destruct (scan_until is_space (skip_spaces r4)) as [e r5]. cbn [fst] in He.
  destruct e; cbn [dir fname fext]; auto.
Qed.

Lemma sscanf_path_one_token path :
  tokens (sscanf_path path) = 1 ->
  fname (sscanf_path path) = [] /\ fext (sscanf_path path) = []
  /\ is_root_path path = false.
Proof.
  unfold sscanf_path, is_root_path, c_text.
  destruct (fst (scan_until (Z.eqb 0) path)) as [| c r0]; [discriminate |].
  destruct (negb (c =? slash)); [discriminate |].
  destruct r0 as [| c0 r0']; [cbn; discriminate |].
  destruct (scan_until (Z.eqb slash) (c0 :: r0')) as [d r1].
  destruct d as [| d0 d']; [discriminate |].
  destruct r1 as [| c1 r2]; [cbn; auto |].
  destruct (scan_until (Z.eqb dot) r2) as [f r3].
  destruct f as [| f0 f']; [cbn; auto |].
  destruct r3 as [| c3 r4]; [discriminate |].
  destruct (scan_until is_space (skip_spaces r4)) as [e r5].
  destruct e; discriminate.
Qed.

Lemma scanned_state_image st :
  disk (scanned_state st) = disk st /\ past_end (scanned_state st) = past_end st.
Proof. unfold scanned_state. destruct (initialised st); split; reflexivity. Qed.

Lemma set_bit_image n st r st1 :
  set_bit n st = Ok r st1 -> disk st1 = disk st /\ past_end st1 = past_end st.
Proof.
  unfold set_bit. destruct (n >? DISK_BLOCKS).
  - intros H. injection H as _ <-. auto.
  - destruct (n <? 0); [discriminate |]. intros H. injection H as _ <-. auto.
Qed.

(** X10: [mkdir] changes the image only when it returns 0, and then it
    changes block 0 only: every other block reads as before, whatever the
    path and the state are. *)
Theorem mkdir_touches_only_the_root path st :
  (result_of (cs1550_mkdir path st) <> Some 0 ->
   disk (state_of (cs1550_mkdir path st) st) = disk st)
  /\ (forall n, n <> 0 ->
        get_block n (state_of (cs1550_mkdir path st) st) = get_block n st).
Proof.
  unfold cs1550_mkdir.
  destruct (tokens (sscanf_path path) >? 1); [cbn; auto |].
  destruct (strlen (dir (sscanf_path path)) >? MAX_FILENAME); [cbn; auto |].
  destruct (get_root_dir st) as [root |] eqn:Hroot; [| cbn; auto].
  destruct (nDirectories root =? MAX_DIRS_IN_ROOT); [cbn; auto |].
  destruct (dir_index_strneq root (dir (sscanf_path path)) <? nDirectories root);
    [cbn; auto |].
  rewrite find_free_block_eq.
  destruct (scanned_state_image st) as [Hd Hp].
  set (free := match scan_bytes _ _ 0 with None => _ | Some _ => _ end).
  destruct (set_bit free (scanned_state st)) as [r st2 |] eqn:Hset; [| cbn; auto].
  destruct (set_bit_image _ _ _ _ Hset) as [Hd2 Hp2].
  cbn [bind]. destruct (r <? 0).
  - cbn [result_of state_of]. split; [intros _; congruence |].
    intros n _. apply get_block_same_disk; congruence.
  - assert (Hsome : is_Some (get_block 0 st2)).
    { rewrite (get_block_same_disk 0 st st2) by congruence.
      unfold get_root_dir in Hroot. rewrite Hroot. eauto. }
    set (root3 := store_int _ 0 _).
    destruct (write_disk_block_spec 0 root3 st2 Hsome)
      as (st3 & Hw & _ & Hother & _ & Hp3).
    rewrite Hw. cbn. split; [congruence |].
    intros n Hn. rewrite (Hother n Hn). apply get_block_same_disk; congruence.
Qed.

Lemma dname_off_val i : dname_off i = 4 + 17 * i.
Proof.
  unfold dname_off, directories_off. change sizeof_cs1550_directory with 17.
  change sizeof_int with 4. lia.
Qed.

Lemma nStartBlock_off_val i : nStartBlock_off i = 13 + 17 * i.
Proof.
  unfold nStartBlock_off. fold (dname_off i). rewrite dname_off_val.
  change MAX_FILENAME with 8. lia.
Qed.

Lemma initialised_length st :
  initialised st = true -> BIT_MAP_SIZE <= Z.of_nat (length (bitmap st)).
Proof.
  unfold initialised, byte_at. change (BIT_MAP_SIZE - 1 <? 0) with false. cbv iota.
  destruct (bitmap st !! Z.to_nat (BIT_MAP_SIZE - 1)) as [x |] eqn:Hx.
  - intros _. apply lookup_lt_Some in Hx. unfold BIT_MAP_SIZE in *. lia.
  - cbn. discriminate.
Qed.

Section Mkdir.

Variables (path : list Z) (st : fs_state) (root : buffer) (b : Z).

Let d := dir (sscanf_path path).
Let n := nDirectories root.

Hypothesis at_most_one_token : tokens (sscanf_path path) <= 1.
Hypothesis short_name : strlen d <= MAX_FILENAME.
Hypothesis root_loaded : get_root_dir st = Some root.
Hypothesis root_sized : block_sized 0 st = true.
Hypothesis room : 0 <= n < MAX_DIRS_IN_ROOT.
Hypothesis fresh : dir_index_strneq root d = n.
Hypothesis bitmap_ready : initialised st = true.
Hypothesis free_block : fst (find_free_block st) = b.
Hypothesis free_block_range : 0 <= b <= DISK_BLOCKS.

Let root3 : buffer :=
  store_int
    (store_long (strncpy (Z.to_nat (MAX_FILENAME + 1)) root (dname_off n) d)
                (nStartBlock_off n) b)
    0 (n + 1).

Local Lemma root_length :
  drop (Z.to_nat BLOCK_SIZE) root = past_end st /\ 512 <= Z.of_nat (length root).
Proof. exact (block_sized_buffer 0 st root root_sized root_loaded). Qed.

Local Lemma d_free : free_of (Z.eqb 0) d = true.
Proof. exact (proj1 (sscanf_path_components_free path)). Qed.

Local Lemma d_length : Z.of_nat (length d) <= 8.
Proof. exact short_name. Qed.

Local Lemma n_range : 0 <= n < 29.
Proof. pose proof room as H. rewrite MAX_DIRS_IN_ROOT_val in H. exact H. Qed.

Local Lemma length_root3 : length root3 = length root.
Proof.
  unfold root3, store_int, store_long.
  now rewrite !length_store_le, length_strncpy.
Qed.

Local Lemma root3_name m :
  0 <= m < 9 -> byte_at root3 (dname_off n + m) = nth (Z.to_nat m) d 0.
Proof.
  intros Hm. pose proof n_range. pose proof root_length as [_ Hlen].
  unfold root3, store_int, store_long.
  rewrite !byte_at_store_le_out
    by (rewrite ?nStartBlock_off_val, dname_off_val; lia).
  rewrite byte_at_strncpy; [| exact d_free | rewrite dname_off_val; lia
                            | rewrite dname_off_val; change (Z.to_nat (MAX_FILENAME + 1)) with 9%nat; lia].
  change (Z.to_nat (MAX_FILENAME + 1)) with 9%nat.
  replace ((dname_off n <=? dname_off n + m) && (dname_off n + m <? dname_off n + Z.of_nat 9))
    with true by (symmetry; apply andb_true_iff; split; [apply Z.leb_le | apply Z.ltb_lt]; lia).
  f_equal. lia.
Qed.

Local Lemma root3_before i :
  4 <= i < dname_off n -> byte_at root3 i = byte_at root i.
Proof.
  intros Hi. pose proof n_range. pose proof root_length as [_ Hlen].
  rewrite dname_off_val in Hi.
  unfold root3, store_int, store_long.
  rewrite !byte_at_store_le_out
    by (rewrite ?nStartBlock_off_val; lia).
  rewrite byte_at_strncpy; [| exact d_free | rewrite dname_off_val; lia
                            | rewrite dname_off_val; change (Z.to_nat (MAX_FILENAME + 1)) with 9%nat; lia].
  rewrite dname_off_val.
  replace (4 + 17 * n <=? i) with false by (symmetry; apply Z.leb_gt; lia).
  reflexivity.
Qed.

Local Lemma nDirectories_root3 : nDirectories root3 = n + 1.
Proof.
  pose proof n_range. pose proof root_length as [_ Hlen].
  unfold nDirectories, load_int, root3, store_int.
  rewrite load_le_store_le_same.
  - apply signed_small; lia.
  - lia.
  - unfold store_long. rewrite length_store_le, length_strncpy. lia.
  - change (256 ^ Z.of_nat 4) with 4294967296. lia.
Qed.

Local Lemma nStartBlock_root3 : nStartBlock root3 n = b.
Proof.
  pose proof n_range. pose proof root_length as [_ Hlen].
  pose proof free_block_range as Hb. change DISK_BLOCKS with 10240 in Hb.
  unfold nStartBlock, load_long, root3, store_int, store_long.
  rewrite load_le_store_le_other by (rewrite nStartBlock_off_val; lia).
  rewrite load_le_store_le_same.
  - apply signed_small; lia.
  - rewrite nStartBlock_off_val; lia.
  - rewrite length_strncpy, nStartBlock_off_val. lia.
  - change (256 ^ Z.of_nat 8) with 18446744073709551616. lia.
Qed.

Local Lemma root3_hit : strneq d root3 (dname_off n) MAX_FILENAME = true
                        /\ streq d root3 (dname_off n) = true.
Proof.
  pose proof d_length as Hd.
  split.
  - apply strncmp_eq_bytes. intros m Hm.
    change (Z.to_nat MAX_FILENAME) with 8%nat in Hm.
    rewrite root3_name by lia. f_equal. lia.
  - apply strcmp_eq_bytes; [exact d_free |]. intros m Hm.
    rewrite root3_name by lia. f_equal. lia.
Qed.

Local Lemma root3_miss i :
  0 <= i < n ->
  strneq d root3 (dname_off i) MAX_FILENAME = false
  /\ streq d root3 (dname_off i) = false.
Proof.
  intros Hi. pose proof d_length as Hd. pose proof n_range.
  assert (Hold : strneq d root (dname_off i) MAX_FILENAME = false).
  { pose proof fresh as Hf. unfold dir_index_strneq in Hf. fold n in Hf.
    refine (search_loop_none (Z.to_nat n) _ n 0 _ _ Hf i _); lia. }
  assert (Hn : strneq d root3 (dname_off i) MAX_FILENAME = false).
  { rewrite <- Hold. apply strncmp_eq_ext. intros k Hk.
    change (Z.to_nat MAX_FILENAME) with 8%nat in Hk.
    apply root3_before. rewrite dname_off_val in *. lia. }
  split; [exact Hn |].
  destruct (streq d root3 (dname_off i)) eqn:Hs; [| reflexivity].
  unfold streq in Hs.
  apply (strcmp_eq_strncmp_eq (Z.to_nat MAX_FILENAME)) in Hs.
  unfold strneq in Hn. congruence.
Qed.

Local Lemma dir_index_root3 :
  dir_index_strneq root3 d = n /\ dir_index_streq root3 d = n.
Proof.
  pose proof n_range. destruct root3_hit as [H1 H2].
  unfold dir_index_strneq, dir_index_streq. rewrite nDirectories_root3.
  split; apply search_loop_first; try lia; try assumption.
  - intros j Hj. apply root3_miss. lia.
  - intros j Hj. apply root3_miss. lia.
Qed.

Local Lemma mkdir_state :
  exists st3,
    cs1550_mkdir path st = Ok 0 st3
    /\ get_root_dir st3 = Some root3
    /\ bitmap st3 = or_bit (bitmap st) (b / 8) (b mod 8).
Proof.
  pose proof n_range as Hn. pose proof root_length as [Hdrop Hlen].
  pose proof free_block_range as Hb.
  unfold cs1550_mkdir.
  replace (tokens (sscanf_path path) >? 1) with false
    by (symmetry; rewrite Z.gtb_ltb; apply Z.ltb_ge; exact at_most_one_token).
  fold d. replace (strlen d >? MAX_FILENAME) with false
    by (symmetry; rewrite Z.gtb_ltb; apply Z.ltb_ge; exact short_name).
  rewrite root_loaded. fold n. rewrite MAX_DIRS_IN_ROOT_val.
  replace (n =? 29) with false by (symmetry; apply Z.eqb_neq; lia).
  rewrite fresh, Z.ltb_irrefl.
  assert (Hfind : find_free_block st = (b, st)).
  { pose proof free_block as Hf. rewrite find_free_block_eq in *.
    unfold scanned_state in *. rewrite bitmap_ready in *.
    cbn [fst] in Hf. now rewrite Hf. }
  rewrite Hfind.
  assert (Hset : set_bit b st = Ok 0 (with_bitmap st (or_bit (bitmap st) (b / 8) (b mod 8)))).
  { unfold set_bit.
    replace (b >? DISK_BLOCKS) with false by (symmetry; rewrite Z.gtb_ltb; apply Z.ltb_ge; lia).
    replace (b <? 0) with false by (symmetry; apply Z.ltb_ge; lia).
    rewrite Z.quot_div_nonneg, Z.rem_mod_nonneg by lia. reflexivity. }
  rewrite Hset. cbn [bind Z.ltb Z.compare].
  set (st2 := with_bitmap st _).
  assert (Hsome : is_Some (get_block 0 st2)).
  { rewrite (get_block_same_disk 0 st st2) by reflexivity.
    unfold get_root_dir in root_loaded. rewrite root_loaded. eauto. }
  destruct (write_disk_block_spec 0 root3 st2 Hsome)
    as (st3 & Hw & Hget & _ & Hbm & _).
  exists st3. fold root3. rewrite Hw. cbn [bind Z.ltb Z.compare].
  split; [reflexivity |]. split; [| exact Hbm].
  unfold get_root_dir. rewrite Hget. f_equal. apply reload_buffer.
  unfold root3, store_int, store_long.
  rewrite !drop_store_le, drop_strncpy; [exact Hdrop | | |].
  - rewrite dname_off_val. change (Z.to_nat (MAX_FILENAME + 1)) with 9%nat.
    change (Z.to_nat BLOCK_SIZE) with 512%nat. lia.
  - rewrite nStartBlock_off_val. change (Z.to_nat BLOCK_SIZE) with 512%nat. lia.
  - change (Z.to_nat BLOCK_SIZE) with 512%nat. lia.
Qed.

Local Lemma block_marked :
  bit_of (or_bit (bitmap st) (b / 8) (b mod 8)) b = true.
Proof.
  pose proof (initialised_length st bitmap_ready) as Hlen.
  pose proof free_block_range as Hb.
  unfold BIT_MAP_SIZE in Hlen. unfold DISK_BLOCKS in Hb.
  assert (Hq : 0 <= b / 8 < 1536)
    by (split; [apply Z.div_pos | apply Z.div_lt_upper_bound]; lia).
  pose proof (Z.mod_pos_bound b 8 ltac:(lia)) as Hm.
  rewrite bit_of_or_bit by lia.
  replace (8 * (b / 8) + b mod 8) with b by (rewrite <- Z.div_mod; lia).
  rewrite Z.eqb_refl. apply orb_true_r.
Qed.

Local Lemma mkdir_again st3 :
  get_root_dir st3 = Some root3 ->
  cs1550_mkdir path st3
  = Ok (if n + 1 =? MAX_DIRS_IN_ROOT then - ENOSPC else - EEXIST) st3.
Proof.
  intros Hroot. unfold cs1550_mkdir.
  replace (tokens (sscanf_path path) >? 1) with false
    by (symmetry; rewrite Z.gtb_ltb; apply Z.ltb_ge; exact at_most_one_token).
  fold d. replace (strlen d >? MAX_FILENAME) with false
    by (symmetry; rewrite Z.gtb_ltb; apply Z.ltb_ge; exact short_name).
  rewrite Hroot, nDirectories_root3.
  destruct (n + 1 =? MAX_DIRS_IN_ROOT); [reflexivity |].
  rewrite (proj1 dir_index_root3).
  replace (n <? n + 1) with true by (symmetry; apply Z.ltb_lt; lia).
  reflexivity.
Qed.

Local Lemma getattr_new_directory st3 :
  tokens (sscanf_path path) = 1 ->
  get_root_dir st3 = Some root3 ->
  cs1550_getattr path st3 = Ok (0, dir_stat) st3.
Proof.
  intros one_token Hroot. unfold cs1550_getattr.
  destruct (sscanf_path_one_token path one_token) as (Hf & He & Hnot).
  rewrite Hnot. cbv zeta. rewrite Hf, He, one_token. cbn [strlen length orb Z.gtb Z.ltb Z.eqb Z.of_nat Z.compare Pos.compare Pos.compare_cont].
  change (0 >? MAX_FILENAME) with false. change (0 >? MAX_EXTENSION) with false. cbn [orb].
  rewrite Hroot. fold d. rewrite (proj1 dir_index_root3), nDirectories_root3.
  replace (n =? n + 1) with false by (symmetry; apply Z.eqb_neq; lia).
  reflexivity.
Qed.

Local Lemma readdir_root_after st3 :
  get_root_dir st3 = Some root3 ->
  exists names,
    cs1550_readdir root_path st3 = Ok (0, names) st3
    /\ last names = Some d
    /\ Z.of_nat (length names) = n + 3.
Proof.
  intros Hroot. pose proof n_range as Hn. pose proof root_length as [_ Hlen].
  pose proof d_length as Hd.
  unfold cs1550_readdir. rewrite Hroot.
  change (is_root_path root_path) with true. cbv iota.
  eexists. split; [reflexivity |].
  rewrite nDirectories_root3.
  replace (n + 1) with (Z.of_nat (S (Z.to_nat n))) by lia.
  rewrite seqZ_S, map_app, app_assoc. cbn [map].
  split.
  - rewrite last_snoc. f_equal. rewrite Z.add_0_l, Z2Nat.id by lia.
    apply c_string_at_bytes.
    + rewrite dname_off_val. lia.
    + exact d_free.
    + rewrite length_root3, dname_off_val. lia.
    + intros m Hm. rewrite root3_name by lia. f_equal. lia.
  - rewrite !length_app, length_map, length_seqZ. cbn [length dot_entries]. lia.
Qed.

End Mkdir.

(** X11: a successful [mkdir].  With a path of at most one component (the
    test of the code is [tokens > 1]: the path ["/"], where [sscanf] returns
    -1 and the name is empty, passes it too) whose name has at most 8 bytes
    and is not yet in the root, a root with a free slot, and a free block
    [b] in the initialised bitmap, [mkdir] returns 0; afterwards
    the root on the image has one more directory, the new name is found in
    the slot that was free by both searches of the code ([strneq] as in
    [mkdir], [getattr], [readdir], and [streq] as in [mknod], [read],
    [write]), its start block is [b], and [b] is marked in the bitmap. *)
Theorem mkdir_creates_directory path st root b :
  tokens (sscanf_path path) <= 1 ->
  strlen (dir (sscanf_path path)) <= MAX_FILENAME ->
  get_root_dir st = Some root ->
  block_sized 0 st = true ->
  0 <= nDirectories root < MAX_DIRS_IN_ROOT ->
  dir_index_strneq root (dir (sscanf_path path)) = nDirectories root ->
  initialised st = true ->
  fst (find_free_block st) = b ->
  0 <= b <= DISK_BLOCKS ->
  exists st' root',
    cs1550_mkdir path st = Ok 0 st'
    /\ get_root_dir st' = Some root'
    /\ nDirectories root' = nDirectories root + 1
    /\ dir_index_strneq root' (dir (sscanf_path path)) = nDirectories root
    /\ dir_index_streq root' (dir (sscanf_path path)) = nDirectories root
    /\ nStartBlock root' (nDirectories root) = b
    /\ bit_of (bitmap st') b = true.
Proof.
  intros H1 H2 H3 H4 H5 H6 H7 H8 H9.
  edestruct (mkdir_state path st root b) as (st3 & Hm & Hr & Hbm);
    [eassumption .. |].
  exists st3. eexists. split; [exact Hm |]. split; [exact Hr |].
  split; [eapply nDirectories_root3 with (st := st) (root := root) (b := b); eassumption |].
  split; [eapply dir_index_root3 with (st := st) (root := root) (b := b); eassumption |].
  split; [eapply dir_index_root3 with (st := st) (root := root) (b := b); eassumption |].
  split; [eapply nStartBlock_root3 with (st := st) (root := root) (b := b); eassumption |].
  rewrite Hbm. eapply block_marked; eassumption.
Qed.

Lemma mkdir_creates_directory_witness :
  (exists st' root',
     cs1550_mkdir alpha mounted = Ok 0 st'
     /\ get_root_dir st' = Some root'
     /\ nDirectories root' = nDirectories (the_block (get_root_dir mounted)) + 1
     /\ dir_index_strneq root' (dir (sscanf_path alpha))
        = nDirectories (the_block (get_root_dir mounted))
     /\ dir_index_streq root' (dir (sscanf_path alpha))
        = nDirectories (the_block (get_root_dir mounted))
     /\ nStartBlock root' (nDirectories (the_block (get_root_dir mounted))) = 1
     /\ bit_of (bitmap st') 1 = true)
  /\ (exists st' root',
        cs1550_mkdir root_path with_alpha = Ok 0 st'
        /\ get_root_dir st' = Some root'
        /\ nDirectories root'
           = nDirectories (the_block (get_root_dir with_alpha)) + 1
        /\ dir_index_strneq root' (dir (sscanf_path root_path))
           = nDirectories (the_block (get_root_dir with_alpha))
        /\ dir_index_streq root' (dir (sscanf_path root_path))
           = nDirectories (the_block (get_root_dir with_alpha))
        /\ nStartBlock root' (nDirectories (the_block (get_root_dir with_alpha)))
           = 2
        /\ bit_of (bitmap st') 2 = true).
Proof.
  split.
  - apply (mkdir_creates_directory alpha mounted
             (the_block (get_root_dir mounted)) 1);
      side_condition.
  - apply (mkdir_creates_directory root_path with_alpha
             (the_block (get_root_dir with_alpha)) 2);
      side_condition.
Defined.

(** X12: what the other operations see after a successful [mkdir] (same
    preconditions as X11): a second [mkdir] of the same path changes
    nothing and returns [-EEXIST], or [-ENOSPC] when the root has just
    become full (the full test comes first); [getattr] of the path reports
    a directory ([S_IFDIR | 0755], 2 links); [readdir] of ["/"] lists
    ["."], [".."] and one name per directory, the new name last. *)
Theorem mkdir_then_lookup path st root b :
  tokens (sscanf_path path) = 1 ->
  strlen (dir (sscanf_path path)) <= MAX_FILENAME ->
  get_root_dir st = Some root ->
  block_sized 0 st = true ->
  0 <= nDirectories root < MAX_DIRS_IN_ROOT ->
  dir_index_strneq root (dir (sscanf_path path)) = nDirectories root ->
  initialised st = true ->
  fst (find_free_block st) = b ->
  0 <= b <= DISK_BLOCKS ->
  exists st' names,
    cs1550_mkdir path st = Ok 0 st'
    /\ cs1550_mkdir path st'
       = Ok (if nDirectories root + 1 =? MAX_DIRS_IN_ROOT
             then - ENOSPC else - EEXIST) st'
    /\ cs1550_getattr path st' = Ok (0, dir_stat) st'
    /\ cs1550_readdir root_path st' = Ok (0, names) st'
    /\ last names = Some (dir (sscanf_path path))
    /\ Z.of_nat (length names) = nDirectories root + 3.
Proof.
  intros H1 H2 H3 H4 H5 H6 H7 H8 H9.
  assert (H1' : tokens (sscanf_path path) <= 1) by lia.
  edestruct (mkdir_state path st root b) as (st3 & Hm & Hr & Hbm);
    [eassumption .. |].
  edestruct (readdir_root_after path st root b) as (names & Hrd & Hlast & Hlen);
    [eassumption .. |].
  exists st3, names. split; [exact Hm |].
  split; [eapply mkdir_again with (st := st) (root := root) (b := b); eassumption |].
  split; [eapply getattr_new_directory with (st := st) (root := root) (b := b); eassumption |].
  auto.
Qed.

Lemma mkdir_then_lookup_witness :
  exists st' names,
    cs1550_mkdir beta with_alpha = Ok 0 st'
    /\ cs1550_mkdir beta st'
       = Ok (if nDirectories (the_block (get_root_dir with_alpha)) + 1
                =? MAX_DIRS_IN_ROOT
             then - ENOSPC else - EEXIST) st'
    /\ cs1550_getattr beta st' = Ok (0, dir_stat) st'
    /\ cs1550_readdir root_path st' = Ok (0, names) st'
    /\ last names = Some (dir (sscanf_path beta))
    /\ Z.of_nat (length names)
       = nDirectories (the_block (get_root_dir with_alpha)) + 3.
Proof.
  apply (mkdir_then_lookup beta with_alpha (the_block (get_root_dir with_alpha)) 2);
    side_condition.
Defined.

(** ** Existing files: [getattr] and [mknod] *)

Lemma is_root_path_tokens path :
  is_root_path path = true -> tokens (sscanf_path path) = -1.
Proof.
  unfold is_root_path, sscanf_path, c_text.
  destruct (fst (scan_until (Z.eqb 0) path)) as [| c r0]; [discriminate |].
  destruct r0 as [| c0 r0']; [| discriminate].
  intros ->. reflexivity.
Qed.

Lemma find_file_not_root dir_index path st f :
  find_file dir_index path st = Some f -> is_root_path path = false.
Proof.
  intros Hf. destruct (find_file_inv _ _ _ _ Hf) as (Htok & _).
  destruct (is_root_path path) eqn:Hr; [| reflexivity].
  apply is_root_path_tokens in Hr. rewrite Hr in Htok. discriminate.
Qed.

Lemma find_file_block_range dir_index path st f :
  find_file dir_index path st = Some f -> 0 <= f_sub_block f <= DISK_BLOCKS.
Proof.
  intros Hf.
  destruct (find_file_inv _ _ _ _ Hf) as (_ & _ & root & _ & _ & _ & Hsd & _).
  unfold get_dir in Hsd. apply get_block_inv in Hsd. tauto.
Qed.

(** X13: [getattr] of an existing file.  When the path names a file by the
    lookup [write] uses, [getattr] returns 0 and reports a regular file
    ([S_IFREG | 0666]) with one link and the size stored in the directory
    entry; the state is not changed. *)
Theorem getattr_reports_file path st f :
  find_for_write path st = Some f ->
  cs1550_getattr path st = Ok (0, file_stat (file_size f)) st.
Proof.
  intros Hf.
  pose proof (find_file_not_root _ _ _ _ Hf) as Hnot.
  destruct (find_file_inv _ _ _ _ Hf)
    as (Htok & Hname & root & Hr & Hi & Hsb & Hsd & Hidx & Hj).
  unfold name_too_long in Hname.
  apply orb_false_iff in Hname as [Hname He].
  apply orb_false_iff in Hname as [_ Hfn].
  apply Z.ltb_ge in Htok.
  unfold cs1550_getattr. rewrite Hnot. cbv zeta. rewrite Hfn, He. cbn [orb].
  replace (tokens (sscanf_path path) <? 1) with false
    by (symmetry; apply Z.ltb_ge; lia).
  rewrite Hr.
  replace (dir_index_strneq root (dir (sscanf_path path)) =? nDirectories root)
    with false by (symmetry; apply Z.eqb_neq; lia).
  replace (tokens (sscanf_path path) =? 1) with false
    by (symmetry; apply Z.eqb_neq; lia).
  rewrite <- Hsb, Hsd, <- Hidx.
  replace (f_index f <? nFiles (f_sub_dir f)) with true
    by (symmetry; apply Z.ltb_lt; lia).
  reflexivity.
Qed.

Lemma getattr_reports_file_witness :
  cs1550_getattr hi_txt with_hello
  = Ok (0, file_stat (file_size (the_file (find_for_write hi_txt with_hello))))
       with_hello
  /\ file_size (the_file (find_for_write hi_txt with_hello)) = 5.
Proof.
  split.
  - apply (getattr_reports_file hi_txt with_hello
             (the_file (find_for_write hi_txt with_hello))).
    side_condition.
  - vm_compute. reflexivity.
Defined.

(** X14: [mknod] of an existing file.  When the path names a file by the
    lookup [read] uses, [mknod] returns [-EEXIST] and changes nothing. *)
Theorem mknod_of_existing_file path st f :
  find_for_read path st = Some f ->
  cs1550_mknod path st = Ok (- EEXIST) st.
Proof.
  intros Hf.
  pose proof (find_file_block_range _ _ _ _ Hf) as Hrange.
  destruct (find_file_inv _ _ _ _ Hf)
    as (Htok & Hname & root & Hr & Hi & Hsb & Hsd & Hidx & Hj).
  unfold DISK_BLOCKS in Hrange.
  unfold cs1550_mknod. rewrite Htok, Hname, Hr, <- Hsb.
  rewrite to_int_small by lia. rewrite Hsd, <- Hidx.
  replace (f_index f <? nFiles (f_sub_dir f)) with true
    by (symmetry; apply Z.ltb_lt; lia).
  reflexivity.
Qed.

Lemma mknod_of_existing_file_witness :
  result_of (cs1550_mknod hi_txt with_hi) = Some (- EEXIST).
Proof.
  rewrite (mknod_of_existing_file hi_txt with_hi
             (the_file (find_for_read hi_txt with_hi))).
  - reflexivity.
  - side_condition.
Defined.

(** ** mknod *)

Lemma byte_at_store_le_zero n :
  forall b off i,
    0 <= off -> off <= i < off + Z.of_nat n ->
    off + Z.of_nat n <= Z.of_nat (length b) ->
    byte_at (store_le n b off 0) i = 0.
Proof.
  induction n as [| k IH]; intros b off i Hoff Hi Hlen; [lia |].
  cbn [store_le]. change (0 mod 256) with 0. change (0 / 256) with 0.
  destruct (Z.eq_dec i off) as [-> | Hne].
  - rewrite byte_at_store_le_out by lia. apply byte_at_set_byte_eq. lia.
  - apply IH; rewrite ?length_set_byte; lia.
Qed.

Lemma load_le_zero n :
  forall b off,
    (forall i, off <= i < off + Z.of_nat n -> byte_at b i = 0) ->
    load_le n b off = 0.
Proof.
  induction n as [| k IH]; intros b off H; [reflexivity |].
  cbn [load_le]. rewrite (H off) by lia. rewrite IH; [reflexivity |].
  intros i Hi. apply H. lia.
Qed.

Lemma nth_beyond (a : list Z) m : (length a <= m)%nat -> nth m a 0 = 0.
Proof. intros H. now apply nth_overflow. Qed.

Lemma block_sized_of_get_block a st blk :
  get_block a st = Some (blk ++ past_end st) ->
  Z.of_nat (length blk) = BLOCK_SIZE ->
  block_sized a st = true.
Proof.
  intros Hg Hlen. apply get_block_inv in Hg as (_ & blk' & Hlk & Heq).
  apply app_inv_tail in Heq. subst blk'.
  unfold block_sized. rewrite Hlk. now apply Z.eqb_eq.
Qed.

Lemma readable_spec n st :
  readable n st = true <-> 0 <= n <= DISK_BLOCKS /\ n < Z.of_nat (length (disk st)).
Proof.
  rewrite <- get_block_is_Some. unfold readable.
  destruct (get_block n st); split; intros H; eauto; try discriminate.
  destruct H as [? H]. discriminate.
Qed.

Lemma find_free_block_of_initialised st :
  initialised st = true ->
  find_free_block st = (fst (find_free_block st), st).
Proof.
  intros Hinit. rewrite find_free_block_eq. unfold scanned_state.
  rewrite Hinit. reflexivity.
Qed.

Lemma free_block_is_clear st :
  initialised st = true -> 0 <= fst (find_free_block st) ->
  bit_of (bitmap st) (fst (find_free_block st)) = false.
Proof.
  intros Hinit Hnn. destruct (find_free_block_scan st) as [_ Hr].
  unfold scanned_state in Hr. rewrite Hinit in Hr.
  destruct Hr as [[Hno _] | (_ & Hc & _)]; [unfold ENOSPC in Hno; lia | exact Hc].
Qed.

Lemma set_bit_in_range n st :
  0 <= n <= DISK_BLOCKS -> initialised st = true ->
  set_bit n st = Ok 0 (with_bitmap st (or_bit (bitmap st) (n / 8) (n mod 8)))
  /\ initialised (with_bitmap st (or_bit (bitmap st) (n / 8) (n mod 8))) = true
  /\ forall k, 0 <= k ->
       bit_of (or_bit (bitmap st) (n / 8) (n mod 8)) k
       = bit_of (bitmap st) k || (k =? n).
Proof.
  intros Hn Hinit. pose proof (initialised_length st Hinit) as Hlen.
  unfold BIT_MAP_SIZE in Hlen. unfold DISK_BLOCKS in Hn.
  assert (Hq : 0 <= n / 8 < 1536)
    by (split; [apply Z.div_pos | apply Z.div_lt_upper_bound]; lia).
  pose proof (Z.mod_pos_bound n 8 ltac:(lia)) as Hm.
  split; [| split].
  - unfold set_bit.
    replace (n >? DISK_BLOCKS) with false
      by (symmetry; rewrite Z.gtb_ltb; apply Z.ltb_ge; unfold DISK_BLOCKS; lia).
    replace (n <? 0) with false by (symmetry; apply Z.ltb_ge; lia).
    rewrite Z.quot_div_nonneg, Z.rem_mod_nonneg by lia. reflexivity.
  - unfold initialised in *. cbn [bitmap with_bitmap].
    apply or_bit_keeps_set; [lia | lia | exact Hinit].
  - intros k Hk. rewrite bit_of_or_bit by lia.
    replace (8 * (n / 8) + n mod 8) with n by (rewrite <- Z.div_mod; lia).
    reflexivity.
Qed.

Lemma byte_at_strncpy_in n b off src i :
  free_of (Z.eqb 0) src = true ->
  0 <= off -> off + Z.of_nat n <= Z.of_nat (length b) ->
  off <= i < off + Z.of_nat n ->
  byte_at (strncpy n b off src) i = nth (Z.to_nat (i - off)) src 0.
Proof.
  intros Hf Hoff Hlen Hi. rewrite byte_at_strncpy by assumption.
  replace ((off <=? i) && (i <? off + Z.of_nat n)) with true; [reflexivity |].
  symmetry. apply andb_true_iff. split; [apply Z.leb_le | apply Z.ltb_lt]; lia.
Qed.

Lemma byte_at_strncpy_out n b off src i :
  free_of (Z.eqb 0) src = true ->
  0 <= off -> off + Z.of_nat n <= Z.of_nat (length b) ->
  i < off \/ off + Z.of_nat n <= i ->
  byte_at (strncpy n b off src) i = byte_at b i.
Proof.
  intros Hf Hoff Hlen Hi. rewrite byte_at_strncpy by assumption.
  replace ((off <=? i) && (i <? off + Z.of_nat n)) with false; [reflexivity |].
  symmetry. apply andb_false_iff.
  destruct Hi; [left; apply Z.leb_gt | right; apply Z.ltb_ge]; lia.
Qed.

Lemma block_sized_of_buffer a st buf :
  get_block a st = Some buf ->
  drop (Z.to_nat BLOCK_SIZE) buf = past_end st ->
  BLOCK_SIZE <= Z.of_nat (length buf) ->
  block_sized a st = true.
Proof.
  intros Hg Hdrop Hlen.
  apply (block_sized_of_get_block a st (take (Z.to_nat BLOCK_SIZE) buf)).
  - rewrite Hg, <- Hdrop, take_drop. reflexivity.
  - rewrite length_take. unfold BLOCK_SIZE in *. lia.
Qed.

Lemma calloc_block_buffer st :
  drop (Z.to_nat BLOCK_SIZE) (calloc_block st) = past_end st
  /\ BLOCK_SIZE <= Z.of_nat (length (calloc_block st)).
Proof.
  unfold calloc_block. split.
  - change (Z.to_nat BLOCK_SIZE) with (length zero_block).
    apply drop_app_length.
  - rewrite length_app. unfold zero_block. rewrite length_replicate.
    unfold BLOCK_SIZE. lia.
Qed.

Section MknodEntry.

Variables (sub_dir f e pe : list Z) (ib : Z).

Let nf := nFiles sub_dir.

Hypothesis f_short : Z.of_nat (length f) <= 8.
Hypothesis e_short : Z.of_nat (length e) <= 3.
Hypothesis f_free : free_of (Z.eqb 0) f = true.
Hypothesis e_free : free_of (Z.eqb 0) e = true.
Hypothesis sub_dir_tail : drop (Z.to_nat BLOCK_SIZE) sub_dir = pe.
Hypothesis sub_dir_length : 512 <= Z.of_nat (length sub_dir).
Hypothesis entry_room : 0 <= nf < 17.
Hypothesis entry_new : file_index sub_dir f e = nf.
Hypothesis ib_range : 0 <= ib < 2 ^ 63.

Let sd5 : buffer := with_new_file sub_dir f e ib.

Local Lemma sd5_fname m :
  0 <= m < 9 ->
  byte_at sd5 (fname_off nf + m) = nth (Z.to_nat m) f 0.
Proof.
  intros Hm. pose proof sub_dir_length as Hlen. pose proof entry_room as Hnf.
  pose proof f_free as Hff. pose proof e_free as Hfe.
  unfold sd5, with_new_file, store_int, store_size_t, store_long.
  cbv zeta. fold nf.
  rewrite fname_off_val, fext_off_val, fsize_off_val, nIndexBlock_off_val.
  change (Z.to_nat (MAX_FILENAME + 1)) with 9%nat.
  rewrite byte_at_store_le_out by lia.
  rewrite byte_at_strncpy_out;
    [| assumption | lia | rewrite length_strncpy, !length_store_le; lia | lia].
  rewrite byte_at_strncpy_in;
    [| assumption | lia | rewrite !length_store_le; lia | lia].
  f_equal. lia.
Qed.

Local Lemma sd5_fext m :
  0 <= m < 9 ->
  byte_at sd5 (fext_off nf + m) = nth (Z.to_nat m) e 0.
Proof.
  intros Hm. pose proof sub_dir_length as Hlen. pose proof entry_room as Hnf.
  pose proof f_free as Hff. pose proof e_free as Hfe.
  unfold sd5, with_new_file, store_int, store_size_t, store_long.
  cbv zeta. fold nf.
  rewrite fname_off_val, fext_off_val, fsize_off_val, nIndexBlock_off_val.
  change (Z.to_nat (MAX_FILENAME + 1)) with 9%nat.
  rewrite byte_at_store_le_out by lia.
  rewrite byte_at_strncpy_in;
    [| assumption | lia | rewrite length_strncpy, !length_store_le; lia | lia].
  f_equal. lia.
Qed.

Local Lemma sd5_before k :
  4 <= k < fname_off nf -> byte_at sd5 k = byte_at sub_dir k.
Proof.
  intros Hk. pose proof sub_dir_length as Hlen. pose proof entry_room as Hnf.
  pose proof f_free as Hff. pose proof e_free as Hfe.
  revert Hk. unfold sd5, with_new_file, store_int, store_size_t, store_long.
  cbv zeta. fold nf.
  rewrite fname_off_val, fext_off_val, fsize_off_val, nIndexBlock_off_val.
  change (Z.to_nat (MAX_FILENAME + 1)) with 9%nat. intros Hk.
  rewrite byte_at_store_le_out by lia.
  rewrite byte_at_strncpy_out;
    [| assumption | lia | rewrite length_strncpy, !length_store_le; lia | lia].
  rewrite byte_at_strncpy_out;
    [| assumption | lia | rewrite !length_store_le; lia | lia].
  rewrite !byte_at_store_le_out by lia. reflexivity.
Qed.

Local Lemma length_sd5 : length sd5 = length sub_dir.
Proof.
  unfold sd5, with_new_file, store_int, store_size_t, store_long.
  cbv zeta. fold nf.
  now rewrite length_store_le, !length_strncpy, !length_store_le.
Qed.

Local Lemma drop_sd5 : drop (Z.to_nat BLOCK_SIZE) sd5 = pe.
Proof.
  pose proof sub_dir_tail as Hdrop. pose proof sub_dir_length as Hlen.
  pose proof entry_room as Hnf.
  unfold sd5, with_new_file, store_int, store_size_t, store_long.
  cbv zeta. fold nf.
  rewrite fname_off_val, fext_off_val, fsize_off_val, nIndexBlock_off_val.
  change (Z.to_nat (MAX_FILENAME + 1)) with 9%nat.
  change (Z.to_nat BLOCK_SIZE) with 512%nat.
  rewrite drop_store_le by lia. rewrite !drop_strncpy by lia.
  rewrite !drop_store_le by lia. exact Hdrop.
Qed.

Local Lemma nFiles_sd5 : nFiles sd5 = nf + 1.
Proof.
  pose proof sub_dir_length as Hlen. pose proof entry_room as Hnf.
  unfold nFiles at 1. unfold load_int, sd5, with_new_file, store_int.
  cbv zeta. fold nf.
  rewrite load_le_store_le_same.
  - apply signed_small; lia.
  - lia.
  - unfold store_size_t, store_long.
    rewrite !length_strncpy, !length_store_le. lia.
  - change (256 ^ Z.of_nat 4) with 4294967296. lia.
Qed.

Local Lemma nIndexBlock_sd5 : 0 <= ib < 2 ^ 63 -> nIndexBlock sd5 nf = ib.
Proof.
  intros Hib.
  pose proof sub_dir_length as Hlen. pose proof entry_room as Hnf.
  pose proof f_free as Hff. pose proof e_free as Hfe.
  unfold nIndexBlock, load_long, sd5, with_new_file, store_int, store_size_t, store_long.
  cbv zeta. fold nf.
  rewrite fname_off_val, fext_off_val, fsize_off_val, nIndexBlock_off_val.
  change (Z.to_nat (MAX_FILENAME + 1)) with 9%nat.
  rewrite load_le_store_le_other by lia.
  erewrite load_le_ext.
  2:{ intros k Hk. rewrite byte_at_strncpy_out;
        [| assumption | lia | rewrite length_strncpy, !length_store_le; lia | lia].
      rewrite byte_at_strncpy_out;
        [| assumption | lia | rewrite !length_store_le; lia | lia].
      reflexivity. }
  rewrite load_le_store_le_other by lia.
  rewrite load_le_store_le_same.
  - apply signed_small; lia.
  - lia.
  - lia.
  - change (256 ^ Z.of_nat 8) with 18446744073709551616. lia.
Qed.

Local Lemma fsize_sd5 : fsize sd5 nf = 0.
Proof.
  pose proof sub_dir_length as Hlen. pose proof entry_room as Hnf.
  pose proof e_short as He. pose proof f_free as Hff. pose proof e_free as Hfe.
  unfold fsize, load_size_t. apply load_le_zero. intros k Hk.
  rewrite fsize_off_val in Hk.
  destruct (Z.lt_ge_cases k (22 + 29 * nf)) as [Hlt | Hge].
  - replace k with (fext_off nf + (k - fext_off nf)) by lia.
    rewrite fext_off_val. rewrite <- (fext_off_val nf).
    rewrite sd5_fext by (rewrite fext_off_val; lia).
    apply nth_beyond. rewrite fext_off_val. lia.
  - unfold sd5, with_new_file, store_int, store_size_t, store_long.
  cbv zeta. fold nf.
    rewrite fname_off_val, fext_off_val, fsize_off_val, nIndexBlock_off_val.
    change (Z.to_nat (MAX_FILENAME + 1)) with 9%nat.
    rewrite byte_at_store_le_out by lia.
    rewrite byte_at_strncpy_out;
      [| assumption | lia | rewrite length_strncpy, !length_store_le; lia | lia].
    rewrite byte_at_strncpy_out;
      [| assumption | lia | rewrite !length_store_le; lia | lia].
    apply byte_at_store_le_zero; rewrite ?length_store_le; lia.
Qed.

Local Lemma sd5_match : file_match sd5 f e nf = true.
Proof.
  unfold file_match, strneq. apply andb_true_iff. split.
  - apply strncmp_eq_bytes. intros m Hm.
    change (Z.to_nat MAX_FILENAME) with 8%nat in Hm.
    rewrite sd5_fname by lia. f_equal. lia.
  - apply strncmp_eq_bytes. intros m Hm.
    change (Z.to_nat MAX_EXTENSION) with 3%nat in Hm.
    rewrite sd5_fext by lia. f_equal. lia.
Qed.

Local Lemma sd5_miss j :
  0 <= j < nf -> file_match sd5 f e j = false.
Proof.
  intros Hj. pose proof sub_dir_length as Hlen. pose proof entry_room as Hnf.
  assert (Hold : file_match sub_dir f e j = false).
  { pose proof entry_new as Hf. unfold file_index in Hf. fold nf in Hf.
    refine (search_loop_none (Z.to_nat nf) _ nf 0 _ _ Hf j _); lia. }
  rewrite <- Hold. unfold file_match, strneq. f_equal.
  - apply strncmp_eq_ext. intros k Hk.
    change (Z.to_nat MAX_FILENAME) with 8%nat in Hk.
    apply sd5_before. rewrite fname_off_val in *. lia.
  - apply strncmp_eq_ext. intros k Hk.
    change (Z.to_nat MAX_EXTENSION) with 3%nat in Hk.
    apply sd5_before. rewrite fname_off_val, fext_off_val in *. lia.
Qed.

Local Lemma file_index_sd5 : file_index sd5 f e = nf.
Proof.
  pose proof entry_room as Hnf.
  unfold file_index. rewrite nFiles_sd5.
  apply search_loop_first; try lia.
  - intros j Hj. apply sd5_miss. lia.
  - exact sd5_match.
Qed.

Local Lemma new_file_entry_facts :
  nFiles sd5 = nf + 1
  /\ nIndexBlock sd5 nf = ib
  /\ fsize sd5 nf = 0
  /\ file_index sd5 f e = nf
  /\ drop (Z.to_nat BLOCK_SIZE) sd5 = pe
  /\ length sd5 = length sub_dir.
Proof.
  repeat split.
  - exact nFiles_sd5.
  - exact (nIndexBlock_sd5 ib_range).
  - exact fsize_sd5.
  - exact file_index_sd5.
  - exact drop_sd5.
  - exact length_sd5.
Qed.

End MknodEntry.

Lemma new_file_entry sub_dir f e pe ib :
  Z.of_nat (length f) <= 8 -> Z.of_nat (length e) <= 3 ->
  free_of (Z.eqb 0) f = true -> free_of (Z.eqb 0) e = true ->
  drop (Z.to_nat BLOCK_SIZE) sub_dir = pe ->
  512 <= Z.of_nat (length sub_dir) ->
  0 <= nFiles sub_dir < 17 ->
  file_index sub_dir f e = nFiles sub_dir ->
  0 <= ib < 2 ^ 63 ->
  nFiles (with_new_file sub_dir f e ib) = nFiles sub_dir + 1
  /\ nIndexBlock (with_new_file sub_dir f e ib) (nFiles sub_dir) = ib
  /\ fsize (with_new_file sub_dir f e ib) (nFiles sub_dir) = 0
  /\ file_index (with_new_file sub_dir f e ib) f e = nFiles sub_dir
  /\ drop (Z.to_nat BLOCK_SIZE) (with_new_file sub_dir f e ib) = pe
  /\ length (with_new_file sub_dir f e ib) = length sub_dir.
Proof.
  intros. eapply new_file_entry_facts; eassumption.
Qed.

Section Mknod.

Variables (path : list Z) (st : fs_state) (root sub_dir : buffer) (ib db : Z).

Let p := sscanf_path path.
Let i := dir_index_streq root (dir p).
Let sb := nStartBlock root i.
Let nf := nFiles sub_dir.

Hypothesis three_tokens : tokens p = 3.
Hypothesis short_names : name_too_long p = false.
Hypothesis root_loaded : get_root_dir st = Some root.
Hypothesis dir_found : i < nDirectories root.
Hypothesis same_dir : dir_index_strneq root (dir p) = i.
Hypothesis dir_loaded : get_dir sb st = Some sub_dir.
Hypothesis dir_not_root : sb <> 0.
Hypothesis dir_sized : block_sized sb st = true.
Hypothesis dir_marked : bit_of (bitmap st) sb = true.
Hypothesis new_file : file_index sub_dir (fname p) (fext p) = nf.
Hypothesis room : 0 <= nf < MAX_FILES_IN_DIR.
Hypothesis bitmap_ready : initialised st = true.
Hypothesis index_block : fst (find_free_block st) = ib.
Hypothesis data_block : fst (find_free_block (state_of (set_bit ib st) st)) = db.
Hypothesis index_block_in_image : 0 < ib /\ readable ib st = true.
Hypothesis data_block_in_image : 0 < db /\ readable db st = true.

Let sd5 : buffer := with_new_file sub_dir (fname p) (fext p) ib.

Let i_block : buffer := set_entries (calloc_block st) 0 db.

Local Lemma mknod_names :
  Z.of_nat (length (fname p)) <= 8 /\ Z.of_nat (length (fext p)) <= 3
  /\ free_of (Z.eqb 0) (fname p) = true /\ free_of (Z.eqb 0) (fext p) = true.
Proof.
  pose proof short_names as H. unfold name_too_long in H.
  apply orb_false_iff in H as [H He]. apply orb_false_iff in H as [_ Hf].
  rewrite Z.gtb_ltb in Hf, He. apply Z.ltb_ge in Hf, He.
  destruct (sscanf_path_components_free path) as (_ & Hff & Hfe).
  repeat split; assumption.
Qed.

Local Lemma mknod_sub_dir :
  drop (Z.to_nat BLOCK_SIZE) sub_dir = past_end st
  /\ 512 <= Z.of_nat (length sub_dir) /\ 0 <= nf < 17
  /\ 0 <= sb <= 10240.
Proof.
  destruct (block_sized_buffer sb st sub_dir dir_sized dir_loaded) as [H1 H2].
  pose proof room as H3. rewrite MAX_FILES_IN_DIR_val in H3.
  pose proof dir_loaded as H4. unfold get_dir in H4.
  apply get_block_inv in H4 as [H4 _].
  repeat split; try assumption; try lia; apply H4.
Qed.

Local Lemma mknod_entry :
  0 <= ib < 2 ^ 63 ->
  nFiles sd5 = nf + 1
  /\ nIndexBlock sd5 nf = ib
  /\ fsize sd5 nf = 0
  /\ file_index sd5 (fname p) (fext p) = nf
  /\ drop (Z.to_nat BLOCK_SIZE) sd5 = past_end st
  /\ length sd5 = length sub_dir.
Proof.
  intros Hib.
  destruct mknod_names as (Hf & He & Hff & Hfe).
  destruct mknod_sub_dir as (Hdrop & Hlen & Hnf & _).
  apply new_file_entry; assumption || exact new_file.
Qed.

Local Lemma mknod_bits :
  0 < ib <= DISK_BLOCKS /\ 0 < db <= DISK_BLOCKS
  /\ sb <> ib /\ sb <> db /\ ib <> db
  /\ set_bit ib st
     = Ok 0 (with_bitmap st (or_bit (bitmap st) (ib / 8) (ib mod 8)))
  /\ initialised (with_bitmap st (or_bit (bitmap st) (ib / 8) (ib mod 8))) = true.
Proof.
  destruct index_block_in_image as [Hib0 Hib]. apply readable_spec in Hib.
  destruct data_block_in_image as [Hdb0 Hdb]. apply readable_spec in Hdb.
  destruct (set_bit_in_range ib st ltac:(lia) bitmap_ready) as (Hset & Hinit2 & Hbits).
  pose proof (free_block_is_clear st bitmap_ready) as Hc1.
  rewrite index_block in Hc1. specialize (Hc1 ltac:(lia)).
  pose proof data_block as Hd. rewrite Hset in Hd. cbn [state_of] in Hd.
  pose proof (free_block_is_clear _ Hinit2) as Hc2.
  rewrite Hd in Hc2. specialize (Hc2 ltac:(lia)).
  cbn [bitmap with_bitmap] in Hc2. rewrite Hbits in Hc2 by lia.
  apply orb_false_iff in Hc2 as [Hc2 Hne]. apply Z.eqb_neq in Hne.
  pose proof dir_marked as Hm.
  repeat split; try lia; try assumption.
  - intros Heq. rewrite Heq in Hm. congruence.
  - intros Heq. rewrite Heq in Hm. congruence.
Qed.

Local Lemma mknod_state :
  exists st7,
    cs1550_mknod path st = Ok 0 st7
    /\ get_root_dir st7 = Some root
    /\ get_block sb st7 = Some sd5
    /\ get_block ib st7 = Some i_block
    /\ get_block db st7 = Some (calloc_block st)
    /\ past_end st7 = past_end st.
Proof.
  destruct mknod_bits as (Hib & Hdb & Hsbib & Hsbdb & Hibdb & Hset & Hinit2).
  destruct mknod_sub_dir as (_ & Hlen & Hnf & Hsb).
  destruct (mknod_entry ltac:(unfold DISK_BLOCKS in Hib; lia))
    as (EnF & EiB & Efs & Efi & Edrop & Elen).
  destruct index_block_in_image as [_ Hrib]. apply readable_spec in Hrib.
  destruct data_block_in_image as [_ Hrdb]. apply readable_spec in Hrdb.
  set (st2 := with_bitmap st (or_bit (bitmap st) (ib / 8) (ib mod 8))) in *.
  destruct (set_bit_in_range db st2 ltac:(lia) Hinit2) as (Hset2 & _ & _).
  set (st4 := with_bitmap st2 _) in Hset2.
  pose proof data_block as Hd. rewrite Hset in Hd. cbn [state_of] in Hd.
  destruct (write_disk_block_spec sb sd5 st4) as (st5 & Hw5 & Hsb5 & Hoth5 & _ & Hpe5).
  { rewrite (get_block_same_disk sb st st4) by reflexivity.
    pose proof dir_loaded as Hl. unfold get_dir in Hl. rewrite Hl. eauto. }
  destruct (write_disk_block_spec ib i_block st5) as (st6 & Hw6 & Hib6 & Hoth6 & _ & Hpe6).
  { rewrite Hoth5 by lia. apply get_block_is_Some. exact Hrib. }
  destruct (write_disk_block_spec db (calloc_block st) st6)
    as (st7 & Hw7 & Hdb7 & Hoth7 & _ & Hpe7).
  { rewrite Hoth6, Hoth5 by lia. apply get_block_is_Some. exact Hrdb. }
  exists st7. split.
  { unfold cs1550_mknod. fold p. rewrite three_tokens, short_names, root_loaded.
    cbn [Z.ltb Z.compare Pos.compare Pos.compare_cont].
    fold i. fold sb. rewrite to_int_small by lia.
    rewrite dir_loaded, new_file. fold nf. rewrite Z.ltb_irrefl.
    rewrite MAX_FILES_IN_DIR_val.
    replace (nf =? 17) with false by (symmetry; apply Z.eqb_neq; lia).
    rewrite (find_free_block_of_initialised st bitmap_ready), index_block.
    rewrite Hset. cbn [bind]. fold st2.
    rewrite (find_free_block_of_initialised st2 Hinit2), Hd.
    rewrite Hset2. cbn [bind]. fold st4.
    replace ((ib =? 0) || (db =? 0)) with false
      by (symmetry; apply orb_false_iff; split; apply Z.eqb_neq; lia).
    change (calloc_block st4) with (calloc_block st).
    change (store_int _ 0 _) with sd5. fold i_block.
    rewrite Hw5. cbn [bind]. rewrite Hw6. cbn [bind]. rewrite Hw7. reflexivity. }
  split.
  { unfold get_root_dir. rewrite Hoth7, Hoth6, Hoth5 by lia. exact root_loaded. }
  split.
  { rewrite Hoth7, Hoth6, Hsb5 by lia. f_equal. apply reload_buffer. exact Edrop. }
  split.
  { rewrite Hoth7, Hib6, Hpe5 by lia.
    change (past_end st4) with (past_end st).
    rewrite reload_buffer; [reflexivity |].
    unfold i_block, set_entries, store_long.
    rewrite drop_store_le by (change (Z.to_nat BLOCK_SIZE) with 512%nat;
                              change sizeof_long with 8; lia).
    apply calloc_block_buffer. }
  split.
  { rewrite Hdb7, Hpe6, Hpe5.
    change (past_end st4) with (past_end st).
    rewrite reload_buffer; [reflexivity | apply calloc_block_buffer]. }
  rewrite Hpe7, Hpe6, Hpe5. reflexivity.
Qed.

Local Lemma entries_i_block : entries i_block 0 = db.
Proof.
  destruct mknod_bits as (_ & Hdb & _). unfold DISK_BLOCKS in Hdb.
  destruct (calloc_block_buffer st) as [_ Hlen]. unfold BLOCK_SIZE in Hlen.
  unfold entries, load_long, i_block, set_entries, store_long.
  change (sizeof_long * 0) with 0.
  rewrite load_le_store_le_same.
  - apply signed_small; lia.
  - lia.
  - lia.
  - change (256 ^ Z.of_nat 8) with 18446744073709551616. lia.
Qed.

Local Lemma mknod_result :
  exists st' f,
    cs1550_mknod path st = Ok 0 st'
    /\ find_for_read path st' = Some f
    /\ find_for_write path st' = Some f
    /\ f_sub_block f = sb
    /\ f_index f = nf
    /\ nFiles (f_sub_dir f) = nf + 1
    /\ inode_addr f = ib
    /\ file_size f = 0
    /\ file_blocks_ok st' f 0 = true
    /\ get_root_dir st' = Some root.
Proof.
  destruct mknod_state as (st7 & Hm & Hroot & Hsb7 & Hib7 & Hdb7 & Hpe7).
  destruct mknod_bits as (Hib & Hdb & Hsbib & Hsbdb & Hibdb & _).
  destruct mknod_sub_dir as (_ & Hlen & Hnf & Hsb).
  destruct (mknod_entry ltac:(unfold DISK_BLOCKS in Hib; lia))
    as (EnF & EiB & Efs & Efi & Edrop & Elen).
  assert (Hfind : forall dir_index,
             dir_index root (dir p) = i ->
             find_file dir_index path st7 = Some (mkFileRef sb sd5 nf)).
  { intros dir_index Hi. unfold find_file. fold p.
    rewrite three_tokens, short_names, Hroot, Hi.
    cbn [Z.ltb Z.compare Pos.compare Pos.compare_cont orb].
    replace (i <? nDirectories root) with true
      by (symmetry; apply Z.ltb_lt; exact dir_found).
    fold sb. unfold get_dir. rewrite Hsb7, Efi, EnF.
    replace (nf <? nf + 1) with true by (symmetry; apply Z.ltb_lt; lia).
    reflexivity. }
  assert (Haddr : inode_addr (mkFileRef sb sd5 nf) = ib)
    by exact EiB.
  exists st7, (mkFileRef sb sd5 nf). split; [exact Hm |].
  split; [apply Hfind; reflexivity |].
  split; [apply Hfind; exact same_dir |].
  split; [reflexivity |]. split; [reflexivity |].
  split; [exact EnF |].
  split; [exact Haddr |].
  split; [unfold file_size; cbn [f_sub_dir f_index]; rewrite Efs; reflexivity |].
  split; [| exact Hroot].
  unfold file_blocks_ok. rewrite Haddr. unfold get_inode. rewrite Hib7.
  cbn [f_sub_block f_sub_dir]. rewrite EnF.
  unfold slots_in_use. change (seqZ 0 (0 + 1)) with [0]. cbn [forallb].
  rewrite entries_i_block.
  assert (Hr : readable db st7 = true) by (unfold readable; now rewrite Hdb7).
  rewrite Hr.
  rewrite (block_sized_of_buffer sb st7 sd5 Hsb7)
    by (rewrite ?Hpe7, ?Elen;
        first [exact Edrop | unfold BLOCK_SIZE; lia]).
  rewrite (block_sized_of_buffer ib st7 i_block Hib7).
  2:{ rewrite Hpe7. unfold i_block, set_entries, store_long.
      rewrite drop_store_le by (change (Z.to_nat BLOCK_SIZE) with 512%nat;
                                change sizeof_long with 8; lia).
      apply calloc_block_buffer. }
  2:{ unfold i_block, set_entries, store_long. rewrite length_store_le.
      apply calloc_block_buffer. }
  rewrite (block_sized_of_buffer db st7 (calloc_block st) Hdb7)
    by (rewrite ?Hpe7; apply calloc_block_buffer).
  rewrite MAX_FILES_IN_DIR_val.
  repeat (apply andb_true_iff; split);
    try reflexivity;
    try (apply negb_true_iff, Z.eqb_neq; lia);
    apply Z.leb_le; lia.
Qed.

End Mknod.

(** X15: a successful [mknod].  The path has three components of legal
    length; the root lists the directory (both searches of the code find it
    in the same slot); the directory block [sb] is a 512-byte block other
    than the root, marked in the bitmap, with a free slot and no entry of
    that name; the bitmap is initialised; [ib] and [db], the blocks
    [find_free_block] hands out before and after [ib] is marked, are blocks
    of the image other than block 0.  Then [mknod] returns 0 and, in the
    state it leaves, [read] and [write] both find the file: in the slot that
    was free, with size 0 and index block [ib]; the directory block, the
    index block and the data block in slot 0 are three distinct 512-byte
    blocks, none of them the root ([file_blocks_ok]), and the root block is
    as before. *)
Theorem mknod_creates_file path st root sub_dir ib db :
  let p := sscanf_path path in
  let sb := nStartBlock root (dir_index_streq root (dir p)) in
  tokens p = 3 ->
  name_too_long p = false ->
  get_root_dir st = Some root ->
  dir_index_streq root (dir p) < nDirectories root ->
  dir_index_strneq root (dir p) = dir_index_streq root (dir p) ->
  get_dir sb st = Some sub_dir ->
  sb <> 0 ->
  block_sized sb st = true ->
  bit_of (bitmap st) sb = true ->
  file_index sub_dir (fname p) (fext p) = nFiles sub_dir ->
  0 <= nFiles sub_dir < MAX_FILES_IN_DIR ->
  initialised st = true ->
  fst (find_free_block st) = ib ->
  fst (find_free_block (state_of (set_bit ib st) st)) = db ->
  0 < ib /\ readable ib st = true ->
  0 < db /\ readable db st = true ->
  exists st' f,
    cs1550_mknod path st = Ok 0 st'
    /\ find_for_read path st' = Some f
    /\ find_for_write path st' = Some f
    /\ f_sub_block f = sb
    /\ f_index f = nFiles sub_dir
    /\ nFiles (f_sub_dir f) = nFiles sub_dir + 1
    /\ inode_addr f = ib
    /\ file_size f = 0
    /\ file_blocks_ok st' f 0 = true
    /\ get_root_dir st' = Some root.
Proof.
  intros p sb H1 H2 H3 H4 H5 H6 H7 H8 H9 H10 H11 H12 H13 H14 H15 H16.
  exact (mknod_result path st root sub_dir ib db
           H1 H2 H3 H4 H5 H6 H7 H8 H9 H10 H11 H12 H13 H14 H15 H16).
Qed.

Lemma mknod_creates_file_witness :
  exists st' f,
    cs1550_mknod hi_txt with_alpha = Ok 0 st'
    /\ find_for_read hi_txt st' = Some f
    /\ find_for_write hi_txt st' = Some f
    /\ f_sub_block f
       = nStartBlock (the_block (get_root_dir with_alpha))
           (dir_index_streq (the_block (get_root_dir with_alpha))
              (dir (sscanf_path hi_txt)))
    /\ f_index f = nFiles (the_block (get_dir 1 with_alpha))
    /\ nFiles (f_sub_dir f) = nFiles (the_block (get_dir 1 with_alpha)) + 1
    /\ inode_addr f = 2
    /\ file_size f = 0
    /\ file_blocks_ok st' f 0 = true
    /\ get_root_dir st' = Some (the_block (get_root_dir with_alpha)).
Proof.
  apply (mknod_creates_file hi_txt with_alpha
           (the_block (get_root_dir with_alpha))
           (the_block (get_dir 1 with_alpha)) 2 3);
    side_condition.
Defined.

(** ** A write that stays inside one data block *)

(** X16: the state a write inside one block leaves.  Under the
    preconditions of the round trip (an existing file whose directory block,
    index block and data block [k] are distinct 512-byte blocks; a non-empty
    region that starts at or before the end of the file and lies in data
    block [k] short of in-block position 512) the write returns the number
    of bytes and, afterwards: both lookups find the file in the same slot
    with the same index block; its size is the larger of the old size and
    [o + n]; the three blocks are still distinct 512-byte blocks
    ([file_blocks_ok]), so that the preconditions hold again; the bitmap is
    as before; and every block other than the directory block, the index
    block and data block [k] reads as before. *)
Theorem write_inside_block_keeps_file path b o st f k :
  find_for_write path st = Some f ->
  find_for_read path st = Some f ->
  file_blocks_ok st f k = true ->
  0 <= k < MAX_ENTRIES_IN_INDEX_BLOCK ->
  BLOCK_SIZE * k < o \/ (k = 0 /\ 0 <= o) ->
  o + Z.of_nat (length b) <= BLOCK_SIZE * (k + 1) ->
  o <= file_size f ->
  b <> [] ->
  exists st' f',
    cs1550_write path b (Z.of_nat (length b)) o st = Ok (Z.of_nat (length b)) st'
    /\ find_for_write path st' = Some f'
    /\ find_for_read path st' = Some f'
    /\ f_sub_block f' = f_sub_block f
    /\ f_index f' = f_index f
    /\ inode_addr f' = inode_addr f
    /\ file_size f' = Z.max (file_size f) (o + Z.of_nat (length b))
    /\ file_blocks_ok st' f' k = true
    /\ bitmap st' = bitmap st
    /\ forall m, m <> f_sub_block f -> m <> inode_addr f ->
                 m <> data_block_of st f k ->
                 get_block m st' = get_block m st.
Proof.
  intros Hfw Hfr Hok Hk Hlo Hhi Hend Hne.
  destruct (file_blocks_ok_inv _ _ _ Hok)
    as (inode & fb & Hinode & Hfb & Hslots & Hsb0 & Hib0 & Hsbib & Hsbdb & Hibdb
        & Hsz_sb & Hsz_ib & Hsz_db & Hnf).
  destruct (find_file_inv _ _ _ _ Hfw)
    as (_ & _ & root & Hroot & _ & _ & Hsd & Hidxw & Hj).
  unfold data_block_of. rewrite Hinode. cbn [the_block default].
  unfold file_blocks_ok in Hok. rewrite Hinode in Hok.
  unfold get_dir, get_inode in *.
  set (n := Z.of_nat (length b)) in *.
  set (sb := f_sub_block f) in *. set (ib := inode_addr f) in *.
  set (db := entries inode k) in *. set (j := f_index f) in *.
  set (sd := f_sub_dir f) in *. set (p := o - BLOCK_SIZE * k).
  rewrite MAX_ENTRIES_IN_INDEX_BLOCK_val in Hk. rewrite MAX_FILES_IN_DIR_val in Hnf.
  assert (Hn : 0 < n) by (destruct b; [contradiction | subst n; cbn [length]; lia]).
  assert (Hp : 0 <= p /\ p + n <= 512) by (unfold p, BLOCK_SIZE in *; lia).
  assert (Hfs : 0 <= file_size f < 2 ^ 63).
  { pose proof (to_long_range (fsize sd j)). unfold file_size. fold sd j.
    unfold file_size in Hend. fold sd j in Hend. unfold BLOCK_SIZE in *. lia. }
  assert (Hloc : locate inode o = mkLocated db k p p).
  { unfold locate.
    rewrite (locate_loop_found _ inode 0 o k);
      rewrite ?MAX_ENTRIES_IN_INDEX_BLOCK_val, ?Z.sub_0_r; try lia.
    - reflexivity.
    - intros m Hm. apply Hslots. lia. }
  destruct (block_sized_buffer _ _ _ Hsz_sb Hsd) as [Hdrop_sd Hlen_sd].
  destruct (block_sized_buffer _ _ _ Hsz_ib Hinode) as [Hdrop_in Hlen_in].
  destruct (block_sized_buffer _ _ _ Hsz_db Hfb) as [Hdrop_fb Hlen_fb].
  set (v := c_MAX (file_size f) (n + o)).
  assert (Hv : v = Z.max (file_size f) (n + o)).
  { unfold v. apply c_MAX_max; [lia | unfold BLOCK_SIZE in *; lia]. }
  set (sd' := store_size_t sd (fsize_off j) v).
  set (fb' := store_bytes fb p b).
  assert (Hdb0 : db <> 0) by (apply Hslots; lia).
  destruct (write_disk_block_spec sb sd' st ltac:(rewrite Hsd; eauto))
    as (st1 & Hw1 & Hsb1 & Hoth1 & Hbm1 & Hpe1).
  destruct (write_disk_block_spec ib inode st1
              ltac:(rewrite Hoth1 by lia; rewrite Hinode; eauto))
    as (st2 & Hw2 & Hib2 & Hoth2 & Hbm2 & Hpe2).
  destruct (write_disk_block_spec db fb' st2
              ltac:(rewrite Hoth2, Hoth1 by lia; rewrite Hfb; eauto))
    as (st3 & Hw3 & Hdb3 & Hoth3 & Hbm3 & Hpe3).
  assert (Hpe : past_end st3 = past_end st) by congruence.
  assert (Hdrop_sd' : drop (Z.to_nat BLOCK_SIZE) sd' = past_end st).
  { unfold sd', store_size_t. rewrite drop_store_le; [exact Hdrop_sd |].
    rewrite fsize_off_val. unfold BLOCK_SIZE. lia. }
  assert (Hdrop_fb' : drop (Z.to_nat BLOCK_SIZE) fb' = past_end st).
  { unfold fb'. rewrite drop_store_bytes; [exact Hdrop_fb |].
    unfold BLOCK_SIZE. fold n. lia. }
  assert (Hroot3 : get_root_dir st3 = get_root_dir st).
  { unfold get_root_dir. rewrite Hoth3, Hoth2, Hoth1 by lia. reflexivity. }
  assert (Hsd3 : get_block sb st3 = Some sd').
  { rewrite Hoth3, Hoth2, Hsb1 by lia. f_equal.
    apply reload_buffer. exact Hdrop_sd'. }
  assert (Hin3 : get_block ib st3 = Some inode).
  { rewrite Hoth3, Hib2, Hpe1 by lia. f_equal.
    apply reload_buffer. exact Hdrop_in. }
  assert (Hfb3 : get_block db st3 = Some fb').
  { rewrite Hdb3, Hpe2, Hpe1. f_equal. apply reload_buffer. exact Hdrop_fb'. }
  assert (Hnf' : nFiles sd' = nFiles sd) by (apply nFiles_store_fsize; lia).
  assert (Hfind : forall dir_index,
             find_file dir_index path st = Some f ->
             find_file dir_index path st3 = Some (mkFileRef sb sd' j)).
  { intros dir_index Hf.
    apply (find_file_after _ _ st st3 f sd' Hf Hroot3 Hsd3 Hnf').
    unfold sd'. rewrite file_index_store_fsize by lia.
    symmetry. exact Hidxw. }
  assert (Hib3 : inode_addr (mkFileRef sb sd' j) = ib).
  { unfold inode_addr. cbn [f_sub_dir f_index]. unfold sd'.
    apply nIndexBlock_store_fsize. }
  exists st3, (mkFileRef sb sd' j).
  split.
  { unfold cs1550_write.
    destruct (Z.eqb_spec n 0); [lia |].
    rewrite (write_resolve_found _ _ _ _ _ Hfw).
    cbn [w_file_old_size w_file_inode_addr w_sub_nStartBlock w_sub_dir].
    destruct (Z.gtb_spec o (file_size f)); [lia |].
    fold ib. destruct (Z.eqb_spec ib 0); [contradiction |].
    unfold get_inode, get_disk_block.
    rewrite Hinode, Hloc. cbn [cur_block_addr cur_block_index cur_pos].
    rewrite Hfb.
    replace (take (Z.to_nat n) b) with b by (symmetry; apply take_ge; lia).
    rewrite write_loop_inside by (unfold BLOCK_SIZE; fold n; lia).
    cbn [bind w_inode w_file_block w_block_addr].
    fold sb sd j v sd' fb'. rewrite Hw1. cbn [bind]. rewrite Hw2. cbn [bind].
    rewrite Hw3. cbn [bind]. rewrite to_int_small by lia. reflexivity. }
  split; [apply Hfind; exact Hfw |].
  split; [apply Hfind; exact Hfr |].
  split; [reflexivity |]. split; [reflexivity |].
  split; [exact Hib3 |].
  split.
  { change (to_long (fsize sd' j) = Z.max (file_size f) (o + n)). unfold sd'.
    rewrite fsize_store_fsize.
    - rewrite Hv. rewrite (Z.add_comm o n).
      apply to_long_small. unfold BLOCK_SIZE in *. lia.
    - lia.
    - rewrite fsize_off_val. unfold BLOCK_SIZE in *. lia.
    - rewrite Hv. unfold BLOCK_SIZE in *. lia. }
  split.
  { unfold file_blocks_ok. rewrite Hib3. unfold get_inode. rewrite Hin3.
    cbn [f_sub_block f_sub_dir]. fold db. rewrite Hnf'.
    assert (Hr : readable db st3 = true) by (unfold readable; now rewrite Hfb3).
    rewrite Hr.
    rewrite (block_sized_of_buffer sb st3 sd' Hsd3)
      by (rewrite ?Hpe; first [exact Hdrop_sd'
                              | unfold sd', store_size_t; rewrite length_store_le;
                                exact Hlen_sd]).
    rewrite (block_sized_of_buffer ib st3 inode Hin3)
      by (rewrite ?Hpe; first [exact Hdrop_in | exact Hlen_in]).
    rewrite (block_sized_of_buffer db st3 fb' Hfb3)
      by (rewrite ?Hpe; first [exact Hdrop_fb'
                              | unfold fb'; rewrite length_store_bytes;
                                exact Hlen_fb]).
    repeat (apply andb_true_iff in Hok as [Hok ?]).
    repeat (apply andb_true_iff; split); assumption || reflexivity. }
  split; [congruence |].
  intros m Hm1 Hm2 Hm3. rewrite Hoth3, Hoth2, Hoth1 by assumption. reflexivity.
Qed.

Lemma write_inside_block_keeps_file_witness :
  exists st' f',
    cs1550_write hi_txt hello (Z.of_nat (length hello)) 0 with_hi
    = Ok (Z.of_nat (length hello)) st'
    /\ find_for_write hi_txt st' = Some f'
    /\ find_for_read hi_txt st' = Some f'
    /\ f_sub_block f' = f_sub_block (the_file (find_for_write hi_txt with_hi))
    /\ f_index f' = f_index (the_file (find_for_write hi_txt with_hi))
    /\ inode_addr f' = inode_addr (the_file (find_for_write hi_txt with_hi))
    /\ file_size f'
       = Z.max (file_size (the_file (find_for_write hi_txt with_hi)))
               (0 + Z.of_nat (length hello))
    /\ file_blocks_ok st' f' 0 = true
    /\ bitmap st' = bitmap with_hi
    /\ forall m,
         m <> f_sub_block (the_file (find_for_write hi_txt with_hi)) ->
         m <> inode_addr (the_file (find_for_write hi_txt with_hi)) ->
         m <> data_block_of with_hi (the_file (find_for_write hi_txt with_hi)) 0 ->
         get_block m st' = get_block m with_hi.
Proof.
  apply (write_inside_block_keeps_file hi_txt hello 0 with_hi
           (the_file (find_for_write hi_txt with_hi)) 0);
    first [ side_condition | right; side_condition | discriminate
          | vm_compute; lia ].
Defined.

(** ** No free block left *)

Lemma set_bit_beyond n st : DISK_BLOCKS < n -> set_bit n st = Ok (-1) st.
Proof.
  intros Hn. unfold set_bit.
  replace (n >? DISK_BLOCKS) with true
    by (symmetry; rewrite Z.gtb_ltb; apply Z.ltb_lt; exact Hn).
  reflexivity.
Qed.

Lemma write_disk_block_beyond n blk st :
  DISK_BLOCKS < n -> write_disk_block n blk st = Ok (-1) st.
Proof.
  intros Hn. unfold write_disk_block.
  replace (n >? DISK_BLOCKS) with true
    by (symmetry; rewrite Z.gtb_ltb; apply Z.ltb_lt; exact Hn).
  reflexivity.
Qed.

Lemma get_block_beyond n st : DISK_BLOCKS < n -> get_block n st = None.
Proof.
  intros Hn. unfold get_block.
  replace (n >? DISK_BLOCKS) with true
    by (symmetry; rewrite Z.gtb_ltb; apply Z.ltb_lt; exact Hn).
  reflexivity.
Qed.

(** X17: [mkdir] when no block is free.  With an initialised bitmap whose
    first clear bit is beyond [DISK_BLOCKS], a [mkdir] that passes the path,
    full-root and duplicate tests returns -1 and leaves the image and the
    bitmap as they were: the root it has updated in memory is not written. *)
Theorem mkdir_without_free_block path st root :
  tokens (sscanf_path path) <= 1 ->
  strlen (dir (sscanf_path path)) <= MAX_FILENAME ->
  get_root_dir st = Some root ->
  nDirectories root <> MAX_DIRS_IN_ROOT ->
  nDirectories root <= dir_index_strneq root (dir (sscanf_path path)) ->
  initialised st = true ->
  DISK_BLOCKS < fst (find_free_block st) ->
  cs1550_mkdir path st = Ok (-1) st.
Proof.
  intros Htok Hlen Hroot Hfull Hnew Hinit Hfree.
  unfold cs1550_mkdir.
  replace (tokens (sscanf_path path) >? 1) with false
    by (symmetry; rewrite Z.gtb_ltb; apply Z.ltb_ge; exact Htok).
  replace (strlen (dir (sscanf_path path)) >? MAX_FILENAME) with false
    by (symmetry; rewrite Z.gtb_ltb; apply Z.ltb_ge; exact Hlen).
  rewrite Hroot.
  replace (nDirectories root =? MAX_DIRS_IN_ROOT) with false
    by (symmetry; apply Z.eqb_neq; exact Hfull).
  replace (dir_index_strneq root (dir (sscanf_path path)) <? nDirectories root)
    with false by (symmetry; apply Z.ltb_ge; exact Hnew).
  rewrite (find_free_block_of_initialised st Hinit).
  rewrite set_bit_beyond by exact Hfree. reflexivity.
Qed.

Lemma mkdir_without_free_block_witness :
  result_of (cs1550_mkdir beta crowded) = Some (-1)
  /\ fst (find_free_block crowded) = 10248.
Proof.
  split.
  - rewrite (mkdir_without_free_block beta crowded
               (the_block (get_root_dir crowded))).
    + reflexivity.
    + side_condition.
    + side_condition.
    + side_condition.
    + side_condition.
    + side_condition.
    + side_condition.
    + side_condition.
  - vm_compute. reflexivity.
Defined.

Section MknodFull.

Variables (path : list Z) (st : fs_state) (root sub_dir : buffer) (ib : Z).

Let p := sscanf_path path.
Let i := dir_index_streq root (dir p).
Let sb := nStartBlock root i.
Let nf := nFiles sub_dir.

Hypothesis three_tokens : tokens p = 3.
Hypothesis short_names : name_too_long p = false.
Hypothesis root_loaded : get_root_dir st = Some root.
Hypothesis dir_found : i < nDirectories root.
Hypothesis dir_loaded : get_dir sb st = Some sub_dir.
Hypothesis dir_not_root : sb <> 0.
Hypothesis dir_sized : block_sized sb st = true.
Hypothesis new_file : file_index sub_dir (fname p) (fext p) = nf.
Hypothesis room : 0 <= nf < MAX_FILES_IN_DIR.
Hypothesis bitmap_ready : initialised st = true.
Hypothesis index_block : fst (find_free_block st) = ib.
Hypothesis beyond : DISK_BLOCKS < ib.

Let sd5 : buffer := with_new_file sub_dir (fname p) (fext p) ib.

Local Lemma mknod_full_result :
  exists st' f,
    cs1550_mknod path st = Ok 0 st'
    /\ find_for_read path st' = Some f
    /\ f_index f = nf
    /\ inode_addr f = ib
    /\ get_inode (inode_addr f) st' = None
    /\ bitmap st' = bitmap st
    /\ forall buf size offset,
         size <> 0 -> cs1550_read path buf size offset st' = Undef.
Proof.
  edestruct (mknod_names path) as (Hf & He & Hff & Hfe); [exact short_names |].
  edestruct (mknod_sub_dir path st root sub_dir) as (Hdrop & Hlen & Hnf & Hsb);
    [eassumption .. |].
  fold p in Hf, He, Hff, Hfe. fold p i sb in Hsb. fold nf in Hnf.
  assert (Hib : 0 <= ib < 2 ^ 63).
  { destruct (find_free_block_scan st) as [_ Hr]. rewrite index_block in Hr.
    pose proof beyond as Hb. unfold DISK_BLOCKS in Hb.
    destruct Hr as [[Hno _] | (Hr & _)]; [unfold ENOSPC in Hno; lia |].
    unfold BIT_MAP_SIZE in Hr. lia. }
  destruct (new_file_entry sub_dir (fname p) (fext p) (past_end st) ib
              Hf He Hff Hfe Hdrop Hlen Hnf new_file Hib)
    as (EnF & EiB & Efs & Efi & Edrop & Elen).
  fold nf sd5 in EnF, EiB, Efs, Efi, Edrop, Elen.
  pose proof beyond as Hb. unfold DISK_BLOCKS in Hb.
  destruct (write_disk_block_spec sb sd5 st) as (st5 & Hw5 & Hsb5 & Hoth5 & Hbm5 & Hpe5).
  { pose proof dir_loaded as Hl. unfold get_dir in Hl. rewrite Hl. eauto. }
  assert (Hroot5 : get_root_dir st5 = Some root).
  { unfold get_root_dir. rewrite Hoth5 by lia. exact root_loaded. }
  assert (Hsd5 : get_block sb st5 = Some sd5).
  { rewrite Hsb5. f_equal. apply reload_buffer. exact Edrop. }
  assert (Hnone : get_block ib st5 = None) by (apply get_block_beyond; exact beyond).
  assert (Hfound : (i <? nDirectories root) = true)
    by (apply Z.ltb_lt; exact dir_found).
  exists st5, (mkFileRef sb sd5 nf).
  split.
  { unfold cs1550_mknod. fold p. rewrite three_tokens, short_names, root_loaded.
    cbn [Z.ltb Z.compare Pos.compare Pos.compare_cont].
    fold i. fold sb. rewrite to_int_small by lia.
    rewrite dir_loaded, new_file. fold nf. rewrite Z.ltb_irrefl.
    rewrite MAX_FILES_IN_DIR_val.
    replace (nf =? 17) with false by (symmetry; apply Z.eqb_neq; lia).
    rewrite (find_free_block_of_initialised st bitmap_ready), index_block.
    rewrite set_bit_beyond by exact beyond. cbn [bind].
    rewrite (find_free_block_of_initialised st bitmap_ready), index_block.
    rewrite set_bit_beyond by exact beyond. cbn [bind].
    replace ((ib =? 0) || (ib =? 0)) with false
      by (symmetry; apply orb_false_iff; split; apply Z.eqb_neq; lia).
    change (store_int _ 0 _) with sd5.
    rewrite Hw5. cbn [bind].
    rewrite write_disk_block_beyond by exact beyond. cbn [bind].
    rewrite write_disk_block_beyond by exact beyond. reflexivity. }
  split.
  { unfold find_for_read, find_file. fold p.
    rewrite three_tokens, short_names, Hroot5.
    cbn [Z.ltb Z.compare Pos.compare Pos.compare_cont orb].
    fold i. rewrite Hfound. fold sb. unfold get_dir. rewrite Hsd5, Efi, EnF.
    replace (nf <? nf + 1) with true by (symmetry; apply Z.ltb_lt; lia).
    reflexivity. }
  split; [reflexivity |].
  split; [exact EiB |].
  split; [unfold inode_addr, get_inode; cbn [f_sub_dir f_index];
          rewrite EiB; exact Hnone |].
  split; [exact Hbm5 |].
  intros buf size offset Hsize.
  unfold cs1550_read, read_steps.
  replace (size =? 0) with false by (symmetry; apply Z.eqb_neq; exact Hsize).
  unfold read_resolve. fold p.
  rewrite three_tokens, short_names, Hroot5.
  cbn [Z.ltb Z.compare Pos.compare Pos.compare_cont].
  fold i. fold sb. unfold get_dir. rewrite Hsd5, Efi, EnF.
  replace (nf <? nf + 1) with true by (symmetry; apply Z.ltb_lt; lia).
  rewrite EiB.
  replace (ib =? 0) with false by (symmetry; apply Z.eqb_neq; lia).
  unfold get_inode. rewrite Hnone. reflexivity.
Qed.

End MknodFull.

(** X18: [mknod] when no block is free.  With an initialised bitmap whose
    first clear bit [ib] is beyond [DISK_BLOCKS], a [mknod] of a new file in
    an existing directory with a free slot returns 0: neither [set_bit]
    result is tested and the "disk full" test compares the block numbers
    with 0.  The directory block is written with the new entry, whose index
    block is [ib]; the two other writes fail.  Afterwards [read] finds the
    file, [get_inode] of its index block returns NULL, and a [read] of a
    non-zero size dereferences it. *)
Theorem mknod_without_free_block path st root sub_dir ib :
  let p := sscanf_path path in
  let sb := nStartBlock root (dir_index_streq root (dir p)) in
  tokens p = 3 ->
  name_too_long p = false ->
  get_root_dir st = Some root ->
  dir_index_streq root (dir p) < nDirectories root ->
  get_dir sb st = Some sub_dir ->
  sb <> 0 ->
  block_sized sb st = true ->
  file_index sub_dir (fname p) (fext p) = nFiles sub_dir ->
  0 <= nFiles sub_dir < MAX_FILES_IN_DIR ->
  initialised st = true ->
  fst (find_free_block st) = ib ->
  DISK_BLOCKS < ib ->
  exists st' f,
    cs1550_mknod path st = Ok 0 st'
    /\ find_for_read path st' = Some f
    /\ f_index f = nFiles sub_dir
    /\ inode_addr f = ib
    /\ get_inode (inode_addr f) st' = None
    /\ bitmap st' = bitmap st
    /\ forall buf size offset,
         size <> 0 -> cs1550_read path buf size offset st' = Undef.
Proof.
  intros p sb H1 H2 H3 H4 H5 H6 H7 H8 H9 H10 H11 H12.
  exact (mknod_full_result path st root sub_dir ib
           H1 H2 H3 H4 H5 H6 H7 H8 H9 H10 H11 H12).
Qed.

Lemma mknod_without_free_block_witness :
  exists st' f,
    cs1550_mknod hi_txt crowded = Ok 0 st'
    /\ find_for_read hi_txt st' = Some f
    /\ f_index f = nFiles (the_block (get_dir 1 crowded))
    /\ inode_addr f = 10248
    /\ get_inode (inode_addr f) st' = None
    /\ bitmap st' = bitmap crowded
    /\ forall buf size offset,
         size <> 0 -> cs1550_read hi_txt buf size offset st' = Undef.
Proof.
  apply (mknod_without_free_block hi_txt crowded
           (the_block (get_root_dir crowded))
           (the_block (get_dir 1 crowded)) 10248);
    side_condition.
Defined.

(** ** Blocks written and read back *)

Lemma put_block_gap d n m blk :
  (length d <= m < n)%nat -> put_block d n blk !! m = Some zero_block.
Proof.
  intros Hm. unfold put_block. destruct (decide (n < length d)%nat); [lia |].
  rewrite lookup_app_r by lia. rewrite lookup_app_l by (rewrite length_replicate; lia).
  apply lookup_replicate. split; [reflexivity | lia].
Qed.

Lemma put_block_after d n m blk :
  (n < m)%nat -> (length d <= m)%nat -> put_block d n blk !! m = None.
Proof.
  intros Hm Hlen. apply lookup_ge_None. unfold put_block.
  destruct (decide (n < length d)%nat).
  - rewrite length_insert. lia.
  - rewrite !length_app, length_replicate. cbn [length]. lia.
Qed.

(** X19: [write_disk_block] followed by [get_block].  For a block number
    from 0 to [DISK_BLOCKS], writing a buffer returns 0 and leaves the
    bitmap alone; reading the block back gives the first 512 bytes of the
    buffer; every other block that was in the image, or that lies after the
    written one, reads as before; and when the write extends the image, the
    blocks of the gap read as zeros. *)
Theorem written_block_is_read_back n buf st :
  0 <= n <= DISK_BLOCKS ->
  exists st',
    write_disk_block n (Some buf) st = Ok 0 st'
    /\ get_block n st' = Some (take (Z.to_nat BLOCK_SIZE) buf ++ past_end st)
    /\ (forall m, m <> n -> m < Z.of_nat (length (disk st)) \/ n < m ->
                  get_block m st' = get_block m st)
    /\ (forall m, Z.of_nat (length (disk st)) <= m < n ->
                  get_block m st' = Some (zero_block ++ past_end st))
    /\ bitmap st' = bitmap st.
Proof.
  intros Hn. unfold write_disk_block.
  replace (n >? DISK_BLOCKS) with false
    by (symmetry; rewrite Z.gtb_ltb; apply Z.ltb_ge; lia).
  replace (n <? 0) with false by (symmetry; apply Z.ltb_ge; lia).
  eexists. split; [reflexivity |].
  unfold get_block. cbn [disk past_end with_disk bitmap].
  split; [| split; [| split; [| reflexivity]]].
  - replace (n >? DISK_BLOCKS) with false
      by (symmetry; rewrite Z.gtb_ltb; apply Z.ltb_ge; lia).
    replace (n <? 0) with false by (symmetry; apply Z.ltb_ge; lia).
    rewrite put_block_lookup_eq. reflexivity.
  - intros m Hne Hm.
    destruct (m >? DISK_BLOCKS); [reflexivity |].
    destruct (Z.ltb_spec m 0); [reflexivity |].
    destruct (Z.lt_ge_cases m (Z.of_nat (length (disk st)))) as [Hin | Hout].
    + rewrite put_block_lookup_ne by lia. reflexivity.
    + rewrite put_block_after by lia.
      rewrite (proj2 (lookup_ge_None (disk st) (Z.to_nat m))) by lia.
      reflexivity.
  - intros m Hm.
    replace (m >? DISK_BLOCKS) with false
      by (symmetry; rewrite Z.gtb_ltb; apply Z.ltb_ge; lia).
    replace (m <? 0) with false by (symmetry; apply Z.ltb_ge; lia).
    rewrite put_block_gap by lia. reflexivity.
Qed.

Lemma written_block_is_read_back_witness :
  exists st',
    write_disk_block 5 (Some (replicate 600 7)) mounted = Ok 0 st'
    /\ get_block 5 st'
       = Some (take (Z.to_nat BLOCK_SIZE) (replicate 600 7) ++ past_end mounted)
    /\ (forall m, m <> 5 -> m < Z.of_nat (length (disk mounted)) \/ 5 < m ->
                  get_block m st' = get_block m mounted)
    /\ (forall m, Z.of_nat (length (disk mounted)) <= m < 5 ->
                  get_block m st' = Some (zero_block ++ past_end mounted))
    /\ bitmap st' = bitmap mounted.
Proof.
  apply (written_block_is_read_back 5 (replicate 600 7) mounted). side_condition.
Defined.

(** ** Directories listed and looked up *)

Lemma c_text_bytes s :
  forall m, (m <= length (c_text s))%nat ->
            default 0 (s !! m) = nth m (c_text s) 0.
Proof.
  unfold c_text. induction s as [| c s IH]; intros m Hm.
  - cbn in *. destruct m; reflexivity.
  - cbn [scan_until] in *. destruct (Z.eqb_spec 0 c) as [<- | Hc].
    + cbn [fst length] in *. assert (m = 0%nat) as -> by lia. reflexivity.
    + destruct (scan_until (Z.eqb 0) s) as [t r]. cbn [fst length] in *.
      destruct m as [| m]; [reflexivity |].
      cbn [nth]. rewrite lookup_cons_ne_0 by lia. cbn [Nat.pred].
      apply IH. lia.
Qed.

Lemma c_string_at_spec b off :
  0 <= off ->
  forall m, (m <= length (c_string_at b off))%nat ->
            byte_at b (off + Z.of_nat m) = nth m (c_string_at b off) 0.
Proof.
  intros Hoff m Hm. unfold c_string_at in *.
  destruct (Z.ltb_spec off 0); [lia |].
  rewrite <- (c_text_bytes _ m Hm). rewrite lookup_drop. unfold byte_at.
  destruct (Z.ltb_spec (off + Z.of_nat m) 0); [lia |].
  replace (Z.to_nat (off + Z.of_nat m)) with (Z.to_nat off + m)%nat by lia.
  reflexivity.
Qed.

Lemma c_string_at_free b off : free_of (Z.eqb 0) (c_string_at b off) = true.
Proof.
  unfold c_string_at, c_text. destruct (off <? 0); [reflexivity |].
  apply scan_until_fst_free.
Qed.

Lemma search_loop_le fuel hit n k :
  forall i, 0 <= i <= k -> k < n -> (Z.to_nat (k - i) < fuel)%nat ->
            hit k = true ->
            i <= search_loop fuel hit n i <= k.
Proof.
  induction fuel as [| f IH]; intros i Hi Hk Hfuel Hhit; [lia |].
  cbn [search_loop]. destruct (Z.ltb_spec i n); [| lia].
  destruct (hit i) eqn:E; [lia |].
  destruct (Z.eq_dec i k) as [-> | Hne]; [congruence |].
  specialize (IH (i + 1) ltac:(lia) Hk ltac:(lia) Hhit). lia.
Qed.

Lemma sscanf_path_of_dir_path d :
  d <> [] -> free_of (Z.eqb 0) d = true -> free_of (Z.eqb slash) d = true ->
  sscanf_path (dir_path d) = mkParsed 1 d [] []
  /\ is_root_path (dir_path d) = false.
Proof.
  intros Hd Zd Sd.
  assert (Hc : c_text (dir_path d) = slash :: d).
  { unfold c_text, dir_path. rewrite scan_until_all; [reflexivity |].
    cbn [free_of forallb]. fold (free_of (Z.eqb 0) d). rewrite Zd. reflexivity. }
  split.
  - unfold sscanf_path. fold (c_text (dir_path d)). rewrite Hc.
    rewrite Z.eqb_refl. cbn [negb].
    rewrite scan_until_all by exact Sd.
    destruct d as [| d0 d']; [contradiction | reflexivity].
  - unfold is_root_path. rewrite Hc.
    destruct d as [| d0 d']; [contradiction | reflexivity].
Qed.

(** X20: a directory that [readdir] lists exists for [getattr].  When slot
    [i] of the root is in use and the name stored there is not empty, has at
    most 8 bytes and holds no ['/'], [readdir] of ["/"] returns 0 and lists
    that name at position [2 + i], after ["."] and [".."], and [getattr] of
    ["/name"] returns 0 and reports a directory. *)
Theorem listed_directory_has_attributes st root i :
  get_root_dir st = Some root ->
  0 <= i < nDirectories root ->
  c_string_at root (dname_off i) <> [] ->
  strlen (c_string_at root (dname_off i)) <= MAX_FILENAME ->
  free_of (Z.eqb slash) (c_string_at root (dname_off i)) = true ->
  exists names,
    cs1550_readdir root_path st = Ok (0, names) st
    /\ names !! Z.to_nat (2 + i) = Some (c_string_at root (dname_off i))
    /\ cs1550_getattr (dir_path (c_string_at root (dname_off i))) st
       = Ok (0, dir_stat) st.
Proof.
  intros Hroot Hi Hne Hlen Hslash.
  set (name := c_string_at root (dname_off i)) in *.
  pose proof (c_string_at_free root (dname_off i)) as Hfree. fold name in Hfree.
  destruct (sscanf_path_of_dir_path name Hne Hfree Hslash) as [Hparse Hnot].
  eexists. split; [| split].
  - unfold cs1550_readdir. rewrite Hroot.
    change (is_root_path root_path) with true. reflexivity.
  - rewrite lookup_app_r by (cbn [length dot_entries]; lia).
    rewrite list_lookup_fmap.
    replace (Z.to_nat (2 + i) - length dot_entries)%nat with (Z.to_nat i)
      by (cbn [length dot_entries]; lia).
    rewrite lookup_seqZ_lt by lia. cbn [fmap option_fmap option_map].
    rewrite Z.add_0_l, Z2Nat.id by lia. reflexivity.
  - assert (Hhit : strneq name root (dname_off i) MAX_FILENAME = true).
    { unfold strneq. apply strcmp_eq_strncmp_eq.
      apply strcmp_eq_bytes; [exact Hfree |].
      intros m Hm. apply c_string_at_spec; [rewrite dname_off_val; lia | exact Hm]. }
    assert (Hidx : 0 <= dir_index_strneq root name <= i).
    { unfold dir_index_strneq.
      apply (search_loop_le _ (fun k => strneq name root (dname_off k) MAX_FILENAME));
        try lia. exact Hhit. }
    unfold cs1550_getattr. rewrite Hnot. cbv zeta. rewrite Hparse.
    cbn [tokens dir fname fext strlen length orb].
    change (Z.of_nat 0 >? MAX_FILENAME) with false.
    change (Z.of_nat 0 >? MAX_EXTENSION) with false.
    cbn [orb Z.ltb Z.eqb Z.compare Pos.compare Pos.compare_cont].
    rewrite Hroot.
    replace (dir_index_strneq root name =? nDirectories root) with false
      by (symmetry; apply Z.eqb_neq; lia).
    reflexivity.
Qed.

Lemma listed_directory_has_attributes_witness :
  exists names,
    cs1550_readdir root_path with_hello = Ok (0, names) with_hello
    /\ names !! Z.to_nat (2 + 0)
       = Some (c_string_at (the_block (get_root_dir with_hello)) (dname_off 0))
    /\ cs1550_getattr
         (dir_path (c_string_at (the_block (get_root_dir with_hello)) (dname_off 0)))
         with_hello
       = Ok (0, dir_stat) with_hello.
Proof.
  apply (listed_directory_has_attributes with_hello
           (the_block (get_root_dir with_hello)) 0);
    side_condition.
Defined.

(** ** Files listed and looked up *)

Lemma list_files_lookup sub_dir :
  forall ixs names k j,
    list_files sub_dir ixs = Some names ->
    ixs !! k = Some j ->
    exists nm, full_name sub_dir j = Some nm /\ names !! k = Some nm.
Proof.
  induction ixs as [| x ixs IH]; intros names k j Hl Hk; [discriminate |].
  cbn [list_files] in Hl.
  destruct (full_name sub_dir x) as [nm |] eqn:Hx; [| discriminate].
  destruct (list_files sub_dir ixs) as [rest |] eqn:Hr; [| discriminate].
  injection Hl as <-.
  destruct k as [| k].
  - injection Hk as ->. exists nm. auto.
  - cbn in Hk. destruct (IH rest k j eq_refl Hk) as (nm' & H1 & H2).
    exists nm'. auto.
Qed.

Lemma free_of_nul_or c0 s :
  free_of (Z.eqb 0) s = true -> free_of (Z.eqb c0) s = true ->
  free_of (is_nul_or c0) s = true.
Proof.
  unfold free_of. rewrite !forallb_forall. intros H0 Hc x Hx.
  specialize (H0 x Hx). specialize (Hc x Hx).
  apply negb_true_iff in H0, Hc. apply negb_true_iff. unfold is_nul_or.
  rewrite Z.eqb_sym, H0, Z.eqb_sym, Hc. reflexivity.
Qed.

Lemma free_of_nul_or_space s :
  free_of (Z.eqb 0) s = true -> free_of is_space s = true ->
  free_of is_nul_or_space s = true.
Proof.
  unfold free_of. rewrite !forallb_forall. intros H0 Hc x Hx.
  specialize (H0 x Hx). specialize (Hc x Hx).
  apply negb_true_iff in H0, Hc. apply negb_true_iff. unfold is_nul_or_space.
  rewrite Z.eqb_sym, H0, Hc. reflexivity.
Qed.

Lemma stored_string_matches a b off n :
  0 <= off -> a = c_string_at b off -> strncmp_eq n a b off = true.
Proof.
  intros Hoff ->. apply strcmp_eq_strncmp_eq.
  apply strcmp_eq_bytes; [apply c_string_at_free |].
  intros m Hm. apply c_string_at_spec; assumption.
Qed.

(** X21: a file that [readdir] lists exists for [getattr].  Slot [i] of the
    root is in use, the name [d] stored there is not empty, has at most 8
    bytes, holds no ['/'] and is first matched in slot [i]; its block loads
    as [sub_dir]; the listing loop over the [nFiles] entries of [sub_dir]
    completes with [names]; entry [j] is in use and stores a name [f] and an
    extension [e] that are not empty, of at most 8 and 3 bytes, [f] without
    ['.'] and [e] without white space.  Then [readdir] of ["/d"] returns 0
    with ["."], [".."] and [names], of which number [j] is ["f.e"], and
    [getattr] of ["/d/f.e"] returns 0 and reports a regular file. *)
Theorem listed_file_has_attributes st root sub_dir i j names :
  let d := c_string_at root (dname_off i) in
  let f := c_string_at sub_dir (fname_off j) in
  let e := c_string_at sub_dir (fext_off j) in
  get_root_dir st = Some root ->
  0 <= i < nDirectories root ->
  d <> [] -> strlen d <= MAX_FILENAME -> free_of (Z.eqb slash) d = true ->
  dir_index_strneq root d = i ->
  get_dir (nStartBlock root i) st = Some sub_dir ->
  list_files sub_dir (seqZ 0 (nFiles sub_dir)) = Some names ->
  0 <= j < nFiles sub_dir ->
  f <> [] -> strlen f <= MAX_FILENAME -> free_of (Z.eqb dot) f = true ->
  e <> [] -> strlen e <= MAX_EXTENSION -> free_of is_space e = true ->
  cs1550_readdir (dir_path d) st = Ok (0, dot_entries ++ names) st
  /\ names !! Z.to_nat j = Some (f ++ [dot] ++ e)
  /\ exists size,
       cs1550_getattr (file_path d f e) st = Ok (0, file_stat size) st.
Proof.
  intros d f e Hroot Hi Hd Hdlen Hdslash Hidx Hsub Hlist Hj
         Hf Hflen Hfdot He Helen Hespace.
  pose proof (c_string_at_free root (dname_off i)) as Zd. fold d in Zd.
  pose proof (c_string_at_free sub_dir (fname_off j)) as Zf. fold f in Zf.
  pose proof (c_string_at_free sub_dir (fext_off j)) as Ze. fold e in Ze.
  unfold strlen, MAX_FILENAME, MAX_EXTENSION in Hdlen, Hflen, Helen.
  destruct (sscanf_path_of_dir_path d Hd Zd Hdslash) as [Hparse Hnot].
  assert (Hfound : (i <? nDirectories root) = true) by (apply Z.ltb_lt; lia).
  split; [| split].
  - unfold cs1550_readdir. rewrite Hroot, Hnot, Hparse. cbn [dir].
    rewrite Hidx, Hfound, Hsub, Hlist. reflexivity.
  - destruct (list_files_lookup sub_dir _ names (Z.to_nat j) j Hlist)
      as (nm & Hfull & Hnm).
    { rewrite lookup_seqZ_lt by lia. f_equal. lia. }
    rewrite Hnm. f_equal. unfold full_name in Hfull. fold f e in Hfull.
    change (Z.to_nat (MAX_FILENAME + 1)) with 9%nat in Hfull.
    change (Z.to_nat (MAX_EXTENSION + 1)) with 4%nat in Hfull.
    rewrite (take_ge f), (take_ge e) in Hfull by lia.
    destruct (Z.eqb_spec (Z.of_nat (length f)) (MAX_FILENAME + 1)) as [E |];
      [unfold MAX_FILENAME in E; lia |].
    now injection Hfull as <-.
  - assert (Hpath : sscanf_path (file_path d f e) = mkParsed 3 d f e).
    { apply sscanf_path_of_file_path; try assumption.
      - apply free_of_nul_or; assumption.
      - apply free_of_nul_or; assumption.
      - apply free_of_nul_or_space; assumption. }
    assert (Hnotroot : is_root_path (file_path d f e) = false).
    { destruct (is_root_path (file_path d f e)) eqn:E; [| reflexivity].
      apply is_root_path_tokens in E. rewrite Hpath in E. discriminate. }
    assert (Hhit : file_match sub_dir f e j = true).
    { unfold file_match, strneq. apply andb_true_iff. split.
      - apply stored_string_matches; [rewrite fname_off_val; lia | reflexivity].
      - apply stored_string_matches; [rewrite fext_off_val; lia | reflexivity]. }
    assert (Hfile : 0 <= file_index sub_dir f e <= j).
    { unfold file_index. apply search_loop_le; try lia. exact Hhit. }
    unfold cs1550_getattr. rewrite Hnotroot. cbv zeta. rewrite Hpath.
    cbn [tokens dir fname fext].
    replace (strlen f >? MAX_FILENAME) with false
      by (symmetry; rewrite Z.gtb_ltb; apply Z.ltb_ge;
          unfold strlen, MAX_FILENAME; lia).
    replace (strlen e >? MAX_EXTENSION) with false
      by (symmetry; rewrite Z.gtb_ltb; apply Z.ltb_ge;
          unfold strlen, MAX_EXTENSION; lia).
    cbn [orb Z.ltb Z.eqb Z.compare Pos.compare Pos.compare_cont].
    rewrite Hroot, Hidx.
    replace (i =? nDirectories root) with false
      by (symmetry; apply Z.eqb_neq; lia).
    rewrite Hsub.
    replace (file_index sub_dir f e <? nFiles sub_dir) with true
      by (symmetry; apply Z.ltb_lt; lia).
    eexists. reflexivity.
Qed.

Lemma listed_file_has_attributes_witness :
  let root := the_block (get_root_dir with_hello) in
  let sub_dir := the_block (get_dir 1 with_hello) in
  let names := default [] (list_files sub_dir (seqZ 0 (nFiles sub_dir))) in
  let d := c_string_at root (dname_off 0) in
  let f := c_string_at sub_dir (fname_off 0) in
  let e := c_string_at sub_dir (fext_off 0) in
  cs1550_readdir (dir_path d) with_hello = Ok (0, dot_entries ++ names) with_hello
  /\ names !! Z.to_nat 0 = Some (f ++ [dot] ++ e)
  /\ exists size,
       cs1550_getattr (file_path d f e) with_hello
       = Ok (0, file_stat size) with_hello.
Proof.
  apply (listed_file_has_attributes with_hello
           (the_block (get_root_dir with_hello))
           (the_block (get_dir 1 with_hello)) 0 0
           (default [] (list_files (the_block (get_dir 1 with_hello))
                          (seqZ 0 (nFiles (the_block (get_dir 1 with_hello)))))));
    side_condition.
Defined.
